(** * Container Kit MCP command-line front end ([src/apps/cli.ts])

    A shallow embedding of the option validator [validateOptions], of the
    mode dispatcher [main] with its four modes, of the signal handler
    [shutdown] and of the start-up failure handler, together with the
    properties the specification states about them.

    Conventions.
    - JavaScript strings are [string]; the text of a template literal is
      built with [+:+].
    - Effects are explicit: a computation takes the process state and gives
      back how it completed (normally, by a thrown value, or by
      [process.exit]), the new state and the events it emitted, oldest first.
    - Code that lives outside [cli.ts] (the configuration constructor, the
      server class, the file system, child processes) is a [World] of
      operations that either return or throw. *)

From Stdlib Require Import String Ascii List ZArith Bool Lia DecimalString Permutation Sorted.
From Stdlib Require QArith Qround.
From stdpp Require Import gmap strings.
Import ListNotations.
Open Scope string_scope.
Open Scope list_scope.

(** ** Fragments of the JavaScript runtime the file relies on *)

Module JS.

(** A line feed, the [\n] of the source's string literals. *)
Definition nl : string := String "010"%char EmptyString.

(** Numbers as [parseInt] produces them: an integer, [NaN], or an
    infinity. *)
Inductive number : Type :=
| NaN
| Infinity (negative : bool)
| Int (z : Z).

(** [n < k] and [n > k] against an integer literal [k]; every comparison
    with [NaN] is false. *)
Definition lt (n : number) (k : Z) : bool :=
  match n with
  | NaN => false
  | Infinity negative => negative
  | Int z => (z <? k)%Z
  end.

Definition gt (n : number) (k : Z) : bool :=
  match n with
  | NaN => false
  | Infinity negative => negb negative
  | Int z => (z >? k)%Z
  end.

(** [ToString] on numbers (decimal digits; the runtime switches to
    exponent notation from 10^21 on). *)
Definition Number_toString (n : number) : string :=
  match n with
  | NaN => "NaN"
  | Infinity negative => if negative then "-Infinity" else "Infinity"
  | Int z => NilZero.string_of_int (Z.to_int z)
  end.

Definition Nat_toString (n : nat) : string :=
  NilZero.string_of_uint (Nat.to_uint n).

(** [ToBoolean], for the kinds of value a parsed option can hold.
    [undefined] is [None]. *)
Class Truthy (A : Type) := truthy : A -> bool.

#[export] Instance truthy_bool : Truthy bool := fun b => b.

#[export] Instance truthy_string : Truthy string :=
  fun s => match s with EmptyString => false | String _ _ => true end.

#[export] Instance truthy_number : Truthy number :=
  fun n =>
    match n with
    | NaN => false
    | Infinity _ => true
    | Int z => negb (z =? 0)%Z
    end.

#[export] Instance truthy_option {A} `{Truthy A} : Truthy (option A) :=
  fun o => match o with Some a => truthy a | None => false end.

(** The value of [x] in a position guarded by [if (x)]: present only when
    [x] is truthy. *)
Definition guarded {A} `{Truthy A} (o : option A) : option A :=
  match o with
  | Some a => if truthy a then Some a else None
  | None => None
  end.

(** [x || d] for a possibly undefined string [x]. *)
Definition or_else (o : option string) (d : string) : string :=
  match guarded o with Some s => s | None => d end.

(** A possibly undefined string inside a template literal. *)
Definition interpolate (o : option string) : string :=
  match o with Some s => s | None => "undefined" end.

(** [s.includes(sub)]. *)
Fixpoint String_includes (s sub : string) : bool :=
  String.prefix sub s ||
  match s with
  | EmptyString => false
  | String _ rest => String_includes rest sub
  end.

(** [arr.includes(x)] on an array of strings, [x] possibly undefined. *)
Definition Array_includes (arr : list string) (x : option string) : bool :=
  match x with
  | Some s => existsb (String.eqb s) arr
  | None => false
  end.

(** [arr.join(sep)]. *)
Definition Array_join (arr : list string) (sep : string) : string :=
  String.concat sep arr.

(** [arr.push(x)]. *)
Definition push {A} (arr : list A) (x : A) : list A := arr ++ [x].

(** [s.repeat(n)]. *)
Fixpoint String_repeat (s : string) (n : nat) : string :=
  match n with
  | O => EmptyString
  | S n' => s +:+ String_repeat s n'
  end.

(** [s.padEnd(n)]: spaces are appended up to length [n]. *)
Definition String_padEnd (s : string) (n : nat) : string :=
  s +:+ String_repeat " " (n - String.length s).

(** [s.toUpperCase()] on the ASCII letters; other characters are kept. *)
Definition upper_ascii (c : ascii) : ascii :=
  let n := nat_of_ascii c in
  if (97 <=? n)%nat && (n <=? 122)%nat then ascii_of_nat (n - 32) else c.

Fixpoint String_toUpperCase (s : string) : string :=
  match s with
  | EmptyString => EmptyString
  | String c rest => String (upper_ascii c) (String_toUpperCase rest)
  end.

(** *** Plain objects used as string-keyed maps

    An object created by the literal [{}] is the list of its own
    properties in creation order; what it does not own it inherits from
    [Object.prototype]. *)

Definition Obj (V : Type) : Type := list (string * V).

Definition objectPrototypeKeys : list string :=
  [ "constructor"; "__defineGetter__"; "__defineSetter__"; "hasOwnProperty";
    "__lookupGetter__"; "__lookupSetter__"; "isPrototypeOf";
    "propertyIsEnumerable"; "toString"; "valueOf"; "__proto__";
    "toLocaleString" ].

Inductive Property (V : Type) : Type :=
| Own (v : V)
| Inherited
| Undefined.
Arguments Own {V} v.
Arguments Inherited {V}.
Arguments Undefined {V}.

Fixpoint own {V} (o : Obj V) (k : string) : option V :=
  match o with
  | [] => None
  | (k', v) :: rest => if String.eqb k' k then Some v else own rest k
  end.

(** [o[k]]. *)
Definition get {V} (o : Obj V) (k : string) : Property V :=
  match own o k with
  | Some v => Own v
  | None => if existsb (String.eqb k) objectPrototypeKeys then Inherited else Undefined
  end.

(** [o[k] = v] for a key [o] neither owns nor inherits: a new own property,
    created last. *)
Definition define {V} (o : Obj V) (k : string) (v : V) : Obj V := o ++ [(k, v)].

(** The effect on [o] of mutating in place the value it owns under [k]. *)
Fixpoint update {V} (o : Obj V) (k : string) (f : V -> V) : Obj V :=
  match o with
  | [] => []
  | (k', v) :: rest =>
      if String.eqb k' k then (k', f v) :: rest else (k', v) :: update rest k f
  end.

(** Array indices: the canonical decimal spelling of an integer in
    [0, 2^32 - 2]. *)
Definition digit (c : ascii) : option N :=
  let n := N_of_ascii c in
  if (48 <=? n)%N && (n <=? 57)%N then Some (n - 48)%N else None.

Fixpoint parseDigits (acc : N) (s : string) : option N :=
  match s with
  | EmptyString => Some acc
  | String c rest =>
      match digit c with
      | Some d => parseDigits (10 * acc + d)%N rest
      | None => None
      end
  end.

Definition arrayIndex (k : string) : option N :=
  match k with
  | EmptyString => None
  | _ =>
      match parseDigits 0%N k with
      | Some n =>
          if String.eqb (NilZero.string_of_uint (N.to_uint n)) k
             && (n <=? 4294967294)%N
          then Some n else None
      | None => None
      end
  end.

Definition isArrayIndex (k : string) : bool :=
  match arrayIndex k with Some _ => true | None => false end.

Definition indexOf (k : string) : N :=
  match arrayIndex k with Some n => n | None => 0%N end.

(** Ordering of own keys: array indices ascending, then the other keys in
    creation order. *)
Fixpoint insertByIndex {V} (e : string * V) (sorted : list (string * V))
  : list (string * V) :=
  match sorted with
  | [] => [e]
  | e' :: rest =>
      if (indexOf (fst e) <=? indexOf (fst e'))%N
      then e :: e' :: rest
      else e' :: insertByIndex e rest
  end.

Definition sortByIndex {V} (l : list (string * V)) : list (string * V) :=
  fold_right insertByIndex [] l.

(** [Object.entries(o)]. *)
Definition Object_entries {V} (o : Obj V) : list (string * V) :=
  sortByIndex (List.filter (fun e => isArrayIndex (fst e)) o)
  ++ List.filter (fun e => negb (isArrayIndex (fst e))) o.

End JS.
Import JS.

(** ** Data model *)

(** The object [program.opts()] returns, with the options declared in
    [cli.ts]; an option that was not given and has no default is [None]
    (or [false] for a flag). *)
Record Options : Type := {
  config : option string;
  logLevel : option string;
  workspace : option string;
  port : option number;
  host : option string;
  dev : bool;
  mock : bool;
  validate : bool;
  listTools : bool;
  healthCheck : bool;
  dockerSocket : option string;
  k8sNamespace : option string
}.

(** What [statSync] returns, as far as [cli.ts] looks at it. *)
Record Stats : Type := { isDirectory : bool }.

(** A thrown value: an [Error] with its message and stack, or anything
    else. *)
Inductive Thrown : Type :=
| ErrorObject (message : string) (stack : option string)
| OtherValue (text : string).

(** Result of an operation of the outside world. *)
Inductive Try (A : Type) : Type :=
| Returns (a : A)
| Throws (e : Thrown).
Arguments Returns {A} a.
Arguments Throws {A} e.

Record ValidationResult : Type := {
  valid : bool;
  errors : list string
}.

Module Config.
Record server_t : Type := { logLevel : string }.
Record workspace_t : Type := { workspaceDir : string }.
Record t : Type := { server : server_t; workspace : workspace_t }.
End Config.

Record ToolDescriptor : Type := {
  name : string;
  description : string;
  category : option string
}.

(** The [tools] property of a tool listing, when there is one. *)
Inductive ToolsValue : Type :=
| ArrayOf (items : list ToolDescriptor)
| NotAnArray.

Record ToolListResult : Type := { tools : option ToolsValue }.

Inductive MetricValue : Type :=
| MNumber (n : number)
| MString (s : string)
| MBoolean (b : bool).

(** [String(value)]. *)
Definition String_of (v : MetricValue) : string :=
  match v with
  | MNumber n => Number_toString n
  | MString s => s
  | MBoolean b => if b then "true" else "false"
  end.

Record HealthReport : Type := {
  status : string;
  uptime : QArith_base.Q;
  services : Obj bool;
  metrics : option (Obj MetricValue)
}.

(** The server object, by what each of its methods does when [cli.ts]
    calls it. [shutdown n] is the call made after [n] earlier calls of
    [shutdown]. *)
Module Server.
Record t : Type := {
  initialize : Try unit;
  listTools : Try ToolListResult;
  getHealth : Try HealthReport;
  start : Try unit;
  shutdown : nat -> Try unit
}.
End Server.

Inductive Signal : Type := SIGTERM | SIGINT.

Definition Signal_name (s : Signal) : string :=
  match s with SIGTERM => "SIGTERM" | SIGINT => "SIGINT" end.

Definition Signal_eqb (a b : Signal) : bool :=
  match a, b with
  | SIGTERM, SIGTERM | SIGINT, SIGINT => true
  | _, _ => false
  end.

(** ** Effects *)

(** What a run does that can be observed from outside. *)
Inductive Event : Type :=
| ConsoleLog (line : string)
| ConsoleError (line : string)
| ConsoleErrorValue (label : string) (e : Thrown)
| Logger (level msg : string)
| StatSync (path : string)
| ExecSync (command : string)
| CreateConfig
| LogConfigSummaryIfDev
| NewServer
| ServerInitialize
| ServerListTools
| ServerGetHealth
| ServerStart
| ServerShutdown
| ProcessOn (s : Signal).

(** The mutable state of the process: its environment variables, the
    signal handlers installed (each closes over the server it shuts down),
    and how often [server.shutdown] was entered. *)
Record State : Type := {
  env : gmap string string;
  signalHandlers : list (Signal * Server.t);
  shutdownCalls : nat
}.

(** How a computation completes. [Exit] is [process.exit]: it ends the
    process, so no [catch] sees it. *)
Inductive Completion (A : Type) : Type :=
| Normal (a : A)
| Throw (e : Thrown)
| Exit (code : Z).
Arguments Normal {A} a.
Arguments Throw {A} e.
Arguments Exit {A} code.

Definition M (A : Type) : Type := State -> Completion A * State * list Event.

Definition ret {A} (a : A) : M A := fun st => (Normal a, st, []).

Definition bind {A B} (m : M A) (k : A -> M B) : M B :=
  fun st =>
    match m st with
    | (Normal a, st1, out1) =>
        let '(c, st2, out2) := k a st1 in (c, st2, out1 ++ out2)
    | (Throw e, st1, out1) => (Throw e, st1, out1)
    | (Exit code, st1, out1) => (Exit code, st1, out1)
    end.

Declare Scope js_scope.
Delimit Scope js_scope with js.
Notation "x <- m ;; k" := (bind m (fun x => k))
  (at level 100, m at next level, right associativity) : js_scope.
Notation "m ;; k" := (bind m (fun _ => k))
  (at level 100, right associativity) : js_scope.
Open Scope js_scope.

(** [try { body } catch (error) { handler }]. *)
Definition tryCatch {A} (body : M A) (handler : Thrown -> M A) : M A :=
  fun st =>
    match body st with
    | (Throw e, st1, out1) =>
        let '(c, st2, out2) := handler e st1 in (c, st2, out1 ++ out2)
    | done => done
    end.

Definition emit (ev : Event) : M unit := fun st => (Normal tt, st, [ev]).

Definition exit (code : Z) : M unit := fun st => (Exit code, st, []).

(** An operation of the outside world: its call is recorded, then it
    returns or throws. *)
Definition perform {A} (ev : Event) (r : Try A) : M A :=
  fun st =>
    match r with
    | Returns a => (Normal a, st, [ev])
    | Throws e => (Throw e, st, [ev])
    end.

Definition console_log (line : string) : M unit := emit (ConsoleLog line).
Definition console_error (line : string) : M unit := emit (ConsoleError line).
Definition logger (level msg : string) : M unit := emit (Logger level msg).

Definition when (b : bool) (m : M unit) : M unit := if b then m else ret tt.

Fixpoint forEach {A} (arr : list A) (f : A -> M unit) : M unit :=
  match arr with
  | [] => ret tt
  | x :: rest => f x ;; forEach rest f
  end.

(** [process.env[key] = value] and [process.env[key]]. *)
Definition setenv (key value : string) : M unit :=
  fun st =>
    (Normal tt,
     {| env := <[key := value]> (env st);
        signalHandlers := signalHandlers st;
        shutdownCalls := shutdownCalls st |},
     []).

Definition getenv (key : string) : M (option string) :=
  fun st => (Normal (env st !! key), st, []).

(** ** The outside world *)

Record World : Type := {
  fs_stat : string -> Try Stats;
  child_process : string -> Try unit;
  config_of_env : gmap string string -> Try Config.t;
  config_summary : Config.t -> Try unit;
  server_of_config : Config.t -> Try Server.t
}.

(** ** The program *)

Section Program.

Variable W : World.

Definition statSync (path : string) : M Stats :=
  perform (StatSync path) (fs_stat W path).

Definition execSync (command : string) : M unit :=
  perform (ExecSync command) (child_process W command).

Definition createConfig : M Config.t :=
  fun st => perform CreateConfig (config_of_env W (env st)) st.

Definition logConfigSummaryIfDev (config : Config.t) : M unit :=
  perform LogConfigSummaryIfDev (config_summary W config).

Definition new_ContainerKitMCPServer (config : Config.t) : M Server.t :=
  perform NewServer (server_of_config W config).

Definition server_initialize (server : Server.t) : M unit :=
  perform ServerInitialize (Server.initialize server).

Definition server_listTools (server : Server.t) : M ToolListResult :=
  perform ServerListTools (Server.listTools server).

Definition server_getHealth (server : Server.t) : M HealthReport :=
  perform ServerGetHealth (Server.getHealth server).

Definition server_start (server : Server.t) : M unit :=
  perform ServerStart (Server.start server).

Definition server_shutdown (server : Server.t) : M unit :=
  fun st =>
    perform ServerShutdown (Server.shutdown server (shutdownCalls st))
      {| env := env st;
         signalHandlers := signalHandlers st;
         shutdownCalls := S (shutdownCalls st) |}.

(** [process.on(signal, () => void shutdown(signal))], [shutdown] being
    the closure over [server]. *)
Definition process_on (s : Signal) (server : Server.t) : M unit :=
  fun st =>
    (Normal tt,
     {| env := env st;
        signalHandlers := signalHandlers st ++ [(s, server)];
        shutdownCalls := shutdownCalls st |},
     [ProcessOn s]).

(** *** [validateOptions] (lines 80-124) *)

Definition validLogLevels : list string := ["debug"; "info"; "warn"; "error"].

Definition validateOptions (opts : Options) : M ValidationResult :=
  let errors : list string := [] in
  let errors :=
    if truthy (logLevel opts) && negb (Array_includes validLogLevels (logLevel opts))
    then push errors
           ("Invalid log level: " +:+ interpolate (logLevel opts)
            +:+ ". Valid options: " +:+ Array_join validLogLevels ", ")
    else errors in
  let errors :=
    match guarded (port opts) with
    | Some p =>
        if lt p 1 || gt p 65535
        then push errors
               ("Invalid port: " +:+ Number_toString p
                +:+ ". Must be between 1 and 65535")
        else errors
    | None => errors
    end in
  errors <-
    match guarded (workspace opts) with
    | Some path =>
        tryCatch
          (stat <- statSync path ;;
           if negb (isDirectory stat)
           then ret (push errors ("Workspace path is not a directory: " +:+ path))
           else ret errors)
          (fun _ =>
             ret (push errors ("Workspace directory does not exist: " +:+ path)))
    | None => ret errors
    end ;;
  errors <-
    match (if mock opts then None else guarded (dockerSocket opts)) with
    | Some path =>
        tryCatch
          (statSync path ;; ret errors)
          (fun _ =>
             ret (push errors
                    ("Docker socket not found: " +:+ path
                     +:+ ". Try --mock for testing without Docker.")))
    | None => ret errors
    end ;;
  errors <-
    match guarded (config opts) with
    | Some path =>
        tryCatch
          (statSync path ;; ret errors)
          (fun _ => ret (push errors ("Configuration file not found: " +:+ path)))
    | None => ret errors
    end ;;
  ret {| valid := Nat.eqb (length errors) 0; errors := errors |}.

(** *** Start-up: validation gate and environment (lines 128-149) *)

Definition reportInvalid (validation : ValidationResult) : M unit :=
  when (negb (valid validation))
    (console_error "❌ Configuration errors:" ;;
     forEach (errors validation) (fun error => console_error ("  • " +:+ error)) ;;
     console_error (nl +:+ "Use --help for usage information") ;;
     exit 1).

Definition assignIfSet (key : string) (value : option string) : M unit :=
  match guarded value with
  | Some v => setenv key v
  | None => ret tt
  end.

Definition setEnvironment (options : Options) : M unit :=
  assignIfSet "LOG_LEVEL" (logLevel options) ;;
  assignIfSet "WORKSPACE_DIR" (workspace options) ;;
  assignIfSet "DOCKER_SOCKET" (dockerSocket options) ;;
  assignIfSet "K8S_NAMESPACE" (k8sNamespace options) ;;
  when (dev options) (setenv "NODE_ENV" "development") ;;
  when (mock options) (setenv "MOCK_MODE" "true").

(** *** Validate mode (lines 151-188) *)

Definition validateMode (options : Options) (config : Config.t) : M unit :=
  console_log ("🔍 Validating Container Kit MCP configuration..." +:+ nl) ;;
  console_log "📋 Configuration Summary:" ;;
  console_log ("  • Log Level: " +:+ Config.logLevel (Config.server config)) ;;
  console_log ("  • Workspace: " +:+ Config.workspaceDir (Config.workspace config)) ;;
  docker_socket <- getenv "DOCKER_SOCKET" ;;
  console_log ("  • Docker Socket: " +:+ or_else docker_socket "/var/run/docker.sock") ;;
  k8s_namespace <- getenv "K8S_NAMESPACE" ;;
  console_log ("  • K8s Namespace: " +:+ or_else k8s_namespace "default") ;;
  mock_mode <- getenv "MOCK_MODE" ;;
  console_log ("  • Mock Mode: " +:+
               match mock_mode with
               | Some v => if String.eqb v "true" then "enabled" else "disabled"
               | None => "disabled"
               end) ;;
  node_env <- getenv "NODE_ENV" ;;
  console_log ("  • Environment: " +:+ or_else node_env "production") ;;
  when (negb (mock options))
    (console_log (nl +:+ "🐳 Testing Docker connection...") ;;
     tryCatch
       (execSync "docker version" ;;
        console_log "  ✅ Docker connection successful")
       (fun _ =>
          console_log "  ⚠️  Docker connection failed - consider using --mock for testing")) ;;
  console_log (nl +:+ "☸️  Testing Kubernetes connection...") ;;
  tryCatch
    (execSync "kubectl version --client=true" ;;
     console_log "  ✅ Kubernetes client available")
    (fun _ =>
       console_log "  ⚠️  Kubernetes client not found - kubectl not in PATH") ;;
  logger "info" "Configuration validation completed" ;;
  console_log (nl +:+ "✅ Configuration validation complete!") ;;
  console_log (nl +:+ "Next steps:") ;;
  console_log "  • Start server: container-kit-mcp" ;;
  console_log "  • List tools: container-kit-mcp --list-tools" ;;
  console_log "  • Health check: container-kit-mcp --health-check" ;;
  exit 0.

(** *** List-tools mode (lines 193-221) *)

Definition categoryOf (tool : ToolDescriptor) : string :=
  or_else (category tool) "utility".

(** The callback of [reduce]: [acc[category].push(tool)] on a value that
    is inherited, hence not an array, is a [TypeError] (the frames of its
    stack are left out). *)
Definition groupTool (acc : Obj (list ToolDescriptor)) (tool : ToolDescriptor)
  : Try (Obj (list ToolDescriptor)) :=
  let category := categoryOf tool in
  match get acc category with
  | Undefined => Returns (update (define acc category []) category (fun arr => push arr tool))
  | Own _ => Returns (update acc category (fun arr => push arr tool))
  | Inherited =>
      Throws (ErrorObject "acc[category].push is not a function"
                (Some "TypeError: acc[category].push is not a function"))
  end.

Fixpoint reduce (items : list ToolDescriptor) (acc : Obj (list ToolDescriptor))
  : Try (Obj (list ToolDescriptor)) :=
  match items with
  | [] => Returns acc
  | tool :: rest =>
      match groupTool acc tool with
      | Returns acc' => reduce rest acc'
      | Throws e => Throws e
      end
  end.

Definition toolLine (tool : ToolDescriptor) : string :=
  "  • " +:+ String_padEnd (name tool) 25 +:+ " " +:+ description tool.

Definition categoryHeader (category : string) : string :=
  nl +:+ "📁 " +:+ String_toUpperCase category.

Definition totalLine (items : list ToolDescriptor) : string :=
  nl +:+ "Total: " +:+ Nat_toString (length items) +:+ " tools available".

Definition printGroup (entry : string * list ToolDescriptor) : M unit :=
  console_log (categoryHeader (fst entry)) ;;
  forEach (snd entry) (fun tool => console_log (toolLine tool)).

Definition listToolsMode (server : Server.t) : M unit :=
  logger "info" "Listing available tools" ;;
  server_initialize server ;;
  toolList <- server_listTools server ;;
  console_log "Available tools:" ;;
  console_log (String_repeat "═" 60) ;;
  match tools toolList with
  | Some (ArrayOf items) =>
      toolsByCategory <-
        (match reduce items [] with
         | Returns acc => ret acc
         | Throws e => fun st => (Throw e, st, [])
         end) ;;
      forEach (Object_entries toolsByCategory) printGroup ;;
      console_log (totalLine items)
  | Some NotAnArray | None => ret tt
  end ;;
  server_shutdown server ;;
  exit 0.

(** *** Health-check mode (lines 223-249) *)

Definition healthCheckMode (server : Server.t) : M unit :=
  logger "info" "Performing health check" ;;
  server_initialize server ;;
  health <- server_getHealth server ;;
  console_log "🏥 Health Check Results" ;;
  console_log (String_repeat "═" 40) ;;
  console_log ("Status: " +:+
               (if String.eqb (status health) "healthy"
                then "✅ Healthy" else "❌ Unhealthy")) ;;
  console_log ("Uptime: " +:+
               Number_toString (Int (Qround.Qfloor (uptime health))) +:+ "s") ;;
  console_log (nl +:+ "Services:") ;;
  forEach (Object_entries (services health))
    (fun entry =>
       let icon := if snd entry : bool then "✅" else "❌" in
       console_log ("  " +:+ icon +:+ " " +:+ fst entry)) ;;
  match metrics health with
  | Some values =>
      console_log (nl +:+ "Metrics:") ;;
      forEach (Object_entries values)
        (fun entry =>
           console_log ("  📊 " +:+ fst entry +:+ ": " +:+ String_of (snd entry)))
  | None => ret tt
  end ;;
  server_shutdown server ;;
  exit (if String.eqb (status health) "healthy" then 0 else 1).

(** *** Run mode and the signal handler (lines 251-294) *)

(** Taken from [package.json], which is read when the module loads. *)
Variable packageVersion : string.

Definition shutdown (server : Server.t) (signal : string) : M unit :=
  logger "info" "Shutting down" ;;
  console_log (nl +:+ "🛑 Received " +:+ signal +:+ ", shutting down gracefully...") ;;
  tryCatch
    (server_shutdown server ;;
     console_log "✅ Shutdown complete" ;;
     exit 0)
    (fun error =>
       logger "error" "Shutdown error" ;;
       emit (ConsoleErrorValue "❌ Shutdown error:" error) ;;
       exit 1).

Definition runMode (options : Options) (config : Config.t) (server : Server.t)
  : M unit :=
  logger "info" "Starting Container Kit MCP Server" ;;
  console_log "🚀 Starting Container Kit MCP Server..." ;;
  console_log ("📦 Version: " +:+ packageVersion) ;;
  console_log ("🏠 Workspace: " +:+ Config.workspaceDir (Config.workspace config)) ;;
  console_log ("📊 Log Level: " +:+ Config.logLevel (Config.server config)) ;;
  when (mock options) (console_log "🤖 Running with mock AI sampler") ;;
  when (dev options) (console_log "🔧 Development mode enabled") ;;
  server_start server ;;
  console_log "✅ Server started successfully" ;;
  console_log "🔌 Listening on stdio transport" ;;
  process_on SIGTERM server ;;
  process_on SIGINT server.

(** *** The start-up failure handler (lines 296-349) *)

Definition dockerGuidance : M unit :=
  console_error (nl +:+ "💡 Docker-related issue detected:") ;;
  console_error "  • Ensure Docker Desktop is running" ;;
  console_error "  • Check Docker socket path: --docker-socket <path>" ;;
  console_error "  • Try mock mode for testing: --mock" ;;
  console_error "  • Verify Docker installation: docker version".

Definition portGuidance : M unit :=
  console_error (nl +:+ "💡 Port already in use:") ;;
  console_error "  • Try a different port: --port <number>" ;;
  console_error "  • Check running processes: lsof -i :<port>" ;;
  console_error "  • Use stdio transport (default) instead of HTTP".

Definition permissionGuidance : M unit :=
  console_error (nl +:+ "💡 Permission issue detected:") ;;
  console_error "  • Check file/directory permissions" ;;
  console_error "  • Ensure workspace is readable: --workspace <path>" ;;
  console_error "  • Try running with appropriate permissions".

Definition configGuidance : M unit :=
  console_error (nl +:+ "💡 Configuration issue:") ;;
  console_error "  • Copy .env.example to .env" ;;
  console_error "  • Validate config: --validate" ;;
  console_error "  • Check config file path: --config <path>".

Definition troubleshootingSteps : M unit :=
  console_error (nl +:+ "🛠️ Troubleshooting steps:") ;;
  console_error "  1. Run health check: container-kit-mcp --health-check" ;;
  console_error "  2. Validate config: container-kit-mcp --validate" ;;
  console_error "  3. Try mock mode: container-kit-mcp --mock" ;;
  console_error "  4. Enable debug logging: --log-level debug" ;;
  console_error "  5. Check the documentation: docs/TROUBLESHOOTING.md".

Definition startupFailed (options : Options) (error : Thrown) : M unit :=
  logger "error" "Server startup failed" ;;
  console_error "❌ Server startup failed" ;;
  match error with
  | ErrorObject message stack =>
      console_error (nl +:+ "🔍 Error: " +:+ message) ;;
      when (String_includes message "Docker" || String_includes message "ENOENT")
        dockerGuidance ;;
      when (String_includes message "EADDRINUSE")
        portGuidance ;;
      when (String_includes message "permission" || String_includes message "EACCES")
        permissionGuidance ;;
      when (String_includes message "config" || String_includes message "Config")
        configGuidance ;;
      troubleshootingSteps ;;
      if truthy stack && dev options
      then console_error (nl +:+ "📍 Stack trace (dev mode):") ;;
           console_error (interpolate stack)
      else when (negb (dev options))
             (console_error (nl +:+ "💡 For detailed error information, use --dev flag"))
  | OtherValue _ => ret tt
  end ;;
  exit 1.

(** *** [main] (lines 126-350) *)

(** The mode blocks, in the order the source tests their flags. *)
Definition dispatch (options : Options) (config : Config.t) : M unit :=
  when (validate options) (validateMode options config) ;;
  server <- new_ContainerKitMCPServer config ;;
  when (listTools options) (listToolsMode server) ;;
  when (healthCheck options) (healthCheckMode server) ;;
  runMode options config server.

Definition mainBody (options : Options) : M unit :=
  validation <- validateOptions options ;;
  reportInvalid validation ;;
  setEnvironment options ;;
  config <- createConfig ;;
  logConfigSummaryIfDev config ;;
  dispatch options config.

Definition main (options : Options) : M unit :=
  tryCatch (mainBody options) (startupFailed options).

End Program.

(** ** The process around [main] *)

Inductive Status : Type :=
| Alive
| Exited (code : Z)
| Killed (s : Signal).

Record Process : Type := {
  condition : Status;
  memory : State;
  output : list Event
}.

(** The handlers [cli.ts] installs for [uncaughtException] and
    [unhandledRejection] (lines 352-362): log, print, [exit(1)]. *)
Definition fatalHandler (what label : string) (e : Thrown) : list Event :=
  [Logger "fatal" what; ConsoleErrorValue label e].

(** The process after a callback completed. *)
Definition settle (what label : string) (before : list Event)
  (r : Completion unit * State * list Event) : Process :=
  match r with
  | (Normal _, st, out) =>
      {| condition := Alive; memory := st; output := before ++ out |}
  | (Exit code, st, out) =>
      {| condition := Exited code; memory := st; output := before ++ out |}
  | (Throw e, st, out) =>
      {| condition := Exited 1; memory := st;
         output := before ++ out ++ fatalHandler what label e |}
  end.

Section Lifecycle.

Variable W : World.
Variable packageVersion : string.

(** [void main()] in a fresh process. *)
Definition launch (options : Options) (st : State) : Process :=
  settle "Unhandled rejection in CLI" "❌ Unhandled rejection:" []
    (main W packageVersion options st).

(** The listeners of one signal run in the order they were installed, as
    long as the process lives. *)
Fixpoint runListeners (listeners : list (Signal * Server.t)) (s : Signal)
  (p : Process) : Process :=
  match listeners with
  | [] => p
  | (s', server) :: rest =>
      if Signal_eqb s' s
      then match condition p with
           | Alive =>
               runListeners rest s
                 (settle "Uncaught exception in CLI" "❌ Uncaught exception:"
                    (output p)
                    (shutdown server (Signal_name s) (memory p)))
           | _ => p
           end
      else runListeners rest s p
  end.

(** Delivery of a termination signal: a process that has ended receives
    nothing; one without a listener for the signal is killed by it. *)
Definition deliver (s : Signal) (p : Process) : Process :=
  match condition p with
  | Alive =>
      if existsb (fun h => Signal_eqb (fst h) s) (signalHandlers (memory p))
      then runListeners (signalHandlers (memory p)) s p
      else {| condition := Killed s; memory := memory p; output := output p |}
  | _ => p
  end.

End Lifecycle.

(** Delivery of several signals, one after the other. *)
Definition deliverAll (signals : list Signal) (p : Process) : Process :=
  fold_left (fun q s => deliver s q) signals p.

(** How often the server's teardown was entered. *)
Definition teardowns (out : list Event) : nat :=
  length (List.filter (fun ev => match ev with ServerShutdown => true | _ => false end) out).

(** ** Vocabulary of the specification *)

(** *** Modes (specification, section 3: validate > list-tools >
    health-check > run) *)

Inductive Mode : Type :=
| ValidateMode
| ListToolsMode
| HealthCheckMode
| RunMode.

Definition selectMode (options : Options) : Mode :=
  if validate options then ValidateMode
  else if listTools options then ListToolsMode
  else if healthCheck options then HealthCheckMode
  else RunMode.

(** Running one mode and nothing else. The three modes that talk to the
    server construct it first. *)
Definition execMode (W : World) (packageVersion : string) (options : Options)
  (config : Config.t) (mode : Mode) : M unit :=
  match mode with
  | ValidateMode => validateMode W options config
  | ListToolsMode =>
      server <- new_ContainerKitMCPServer W config ;; listToolsMode server
  | HealthCheckMode =>
      server <- new_ContainerKitMCPServer W config ;; healthCheckMode server
  | RunMode =>
      server <- new_ContainerKitMCPServer W config ;;
      runMode packageVersion options config server
  end.

(** Events that touch the server. *)
Definition isServerEvent (ev : Event) : bool :=
  match ev with
  | NewServer | ServerInitialize | ServerListTools | ServerGetHealth
  | ServerStart | ServerShutdown => true
  | _ => false
  end.

(** Events of the validation report: a stat of a path, a line on
    [console.error]. *)
Definition isStatOrConsoleError (ev : Event) : Prop :=
  match ev with
  | StatSync _ | ConsoleError _ => True
  | _ => False
  end.

(** The lines written with [console.log]. *)
Definition consoleLines (out : list Event) : list string :=
  flat_map (fun ev => match ev with ConsoleLog line => [line] | _ => [] end) out.

(** *** Validation (specification, section 4.1) *)

(** Each message of [validateOptions] starts with a text of its own. *)
Definition isPortError (msg : string) : bool :=
  String.prefix "Invalid port: " msg.
Definition isDockerSocketError (msg : string) : bool :=
  String.prefix "Docker socket not found: " msg.

Definition countErrors (kind : string -> bool) (msgs : list string) : nat :=
  length (List.filter kind msgs).

(** What each of the five checks contributes, from the option it looks at
    alone. *)
Definition logLevelCheck (level : option string) : list string :=
  if truthy level && negb (Array_includes validLogLevels level)
  then ["Invalid log level: " +:+ interpolate level
        +:+ ". Valid options: debug, info, warn, error"]
  else [].

Definition portCheck (p : option number) : list string :=
  match guarded p with
  | Some n =>
      if lt n 1 || gt n 65535
      then ["Invalid port: " +:+ Number_toString n +:+ ". Must be between 1 and 65535"]
      else []
  | None => []
  end.

Definition workspaceCheck (W : World) (ws : option string) : list string :=
  match guarded ws with
  | Some path =>
      match fs_stat W path with
      | Returns stat =>
          if isDirectory stat then []
          else ["Workspace path is not a directory: " +:+ path]
      | Throws _ => ["Workspace directory does not exist: " +:+ path]
      end
  | None => []
  end.

Definition dockerSocketCheck (W : World) (mockMode : bool) (socket : option string)
  : list string :=
  if mockMode then []
  else match guarded socket with
       | Some path =>
           match fs_stat W path with
           | Returns _ => []
           | Throws _ =>
               ["Docker socket not found: " +:+ path
                +:+ ". Try --mock for testing without Docker."]
           end
       | None => []
       end.

Definition configCheck (W : World) (file : option string) : list string :=
  match guarded file with
  | Some path =>
      match fs_stat W path with
      | Returns _ => []
      | Throws _ => ["Configuration file not found: " +:+ path]
      end
  | None => []
  end.

(** The five contributions, in the order of the checks. *)
Definition checksOf (W : World) (opts : Options) : list string :=
  logLevelCheck (logLevel opts) ++ portCheck (port opts)
  ++ workspaceCheck W (workspace opts)
  ++ dockerSocketCheck W (mock opts) (dockerSocket opts)
  ++ configCheck W (config opts).

(** The paths a check stats. *)
Definition pathChecked (o : option string) : list string :=
  match guarded o with Some path => [path] | None => [] end.

Definition statCalls (opts : Options) : list Event :=
  map StatSync
    (pathChecked (workspace opts)
     ++ (if mock opts then [] else pathChecked (dockerSocket opts))
     ++ pathChecked (config opts)).

(** Validation succeeds on these options. *)
Definition passesValidation (W : World) (opts : Options) (st : State) : Prop :=
  exists r st1 out1,
    validateOptions W opts st = (Normal r, st1, out1) /\ valid r = true.

Definition failsValidation (W : World) (opts : Options) (st : State) : Prop :=
  exists r st1 out1,
    validateOptions W opts st = (Normal r, st1, out1) /\ valid r = false.

(** The environment after lines 138-143. *)
Definition assigned (key : string) (value : option string)
  (e : gmap string string) : gmap string string :=
  match guarded value with Some v => <[key := v]> e | None => e end.

Definition normalizedEnv (options : Options) (e : gmap string string)
  : gmap string string :=
  let e := assigned "LOG_LEVEL" (logLevel options) e in
  let e := assigned "WORKSPACE_DIR" (workspace options) e in
  let e := assigned "DOCKER_SOCKET" (dockerSocket options) e in
  let e := assigned "K8S_NAMESPACE" (k8sNamespace options) e in
  let e := if dev options then <["NODE_ENV" := "development"]> e else e in
  if mock options then <["MOCK_MODE" := "true"]> e else e.

Definition normalized (options : Options) (st : State) : State :=
  {| env := normalizedEnv options (env st);
     signalHandlers := signalHandlers st;
     shutdownCalls := shutdownCalls st |}.

(** What start-up emits before the mode blocks. *)
Definition startupEvents (opts : Options) : list Event :=
  statCalls opts ++ [CreateConfig; LogConfigSummaryIfDev].

(** Start-up gets as far as the mode blocks with configuration [cfg]. *)
Definition reachesDispatch (W : World) (opts : Options) (st : State)
  (cfg : Config.t) : Prop :=
  passesValidation W opts st
  /\ config_of_env W (normalizedEnv opts (env st)) = Returns cfg
  /\ config_summary W cfg = Returns tt.

(** A process that has just been started. *)
Definition fresh (e : gmap string string) : State :=
  {| env := e; signalHandlers := []; shutdownCalls := 0 |}.

(** *** Tool listing (specification, section 4.2) *)

(** The distinct elements of a list, each at the place it first occurs. *)
Fixpoint firstSeen (l : list string) : list string :=
  match l with
  | [] => []
  | x :: rest => x :: List.filter (fun y => negb (String.eqb x y)) (firstSeen rest)
  end.

Definition inCategory (c : string) (tool : ToolDescriptor) : bool :=
  String.eqb (categoryOf tool) c.

(** A category with its tools, in the order the server returned them. *)
Definition groupOf (items : list ToolDescriptor) (c : string)
  : string * list ToolDescriptor :=
  (c, List.filter (inCategory c) items).

Definition groupLines (g : string * list ToolDescriptor) : list string :=
  categoryHeader (fst g) :: map toolLine (snd g).

Definition listingHead : list string :=
  ["Available tools:"; String_repeat "═" 60].

(** The listing the specification describes: groups in first-seen order. *)
Definition listingFirstSeen (items : list ToolDescriptor) : list string :=
  listingHead
  ++ flat_map groupLines (map (groupOf items) (firstSeen (map categoryOf items)))
  ++ [totalLine items].

(** List-tools mode is reached and the server returns [items]. *)
Definition listsTools (W : World) (opts : Options) (st : State)
  (server : Server.t) (listing : ToolListResult) : Prop :=
  validate opts = false /\ listTools opts = true
  /\ (exists cfg, reachesDispatch W opts st cfg
                  /\ server_of_config W cfg = Returns server)
  /\ Server.initialize server = Returns tt
  /\ Server.listTools server = Returns listing.

(** The claim on group order, as the specification words it. *)
Definition groups_in_first_seen_order : Prop :=
  forall W v opts e server items,
    listsTools W opts (fresh e) server {| tools := Some (ArrayOf items) |} ->
    consoleLines (output (launch W v opts (fresh e))) = listingFirstSeen items.

(** *** Health check (specification, sections 4.2 and 8) *)

Definition checksHealth (opts : Options) : Prop :=
  validate opts = false /\ listTools opts = false /\ healthCheck opts = true.

(** The claim on the exit code, as the specification words it: once a
    report was retrieved, its status alone decides. *)
Definition exit_code_follows_status : Prop :=
  forall W v opts e cfg server report,
    checksHealth opts ->
    reachesDispatch W opts (fresh e) cfg ->
    server_of_config W cfg = Returns server ->
    Server.initialize server = Returns tt ->
    Server.getHealth server = Returns report ->
    (condition (launch W v opts (fresh e)) = Exited 0 <-> status report = "healthy").

(** *** Error classification (specification, section 4.3) *)

Inductive Category : Type :=
| DockerIssue
| PortConflict
| PermissionIssue
| ConfigIssue.

Definition allCategories : list Category :=
  [DockerIssue; PortConflict; PermissionIssue; ConfigIssue].

Definition keywords (c : Category) : list string :=
  match c with
  | DockerIssue => ["Docker"; "ENOENT"]
  | PortConflict => ["EADDRINUSE"]
  | PermissionIssue => ["permission"; "EACCES"]
  | ConfigIssue => ["config"; "Config"]
  end.

Definition Substring (sub s : string) : Prop :=
  exists before after, s = before +:+ sub +:+ after.

Definition Matches (c : Category) (msg : string) : Prop :=
  exists k, In k (keywords c) /\ Substring k msg.

Definition classify (msg : string) : list Category :=
  List.filter (fun c => existsb (String_includes msg) (keywords c)) allCategories.

Definition guidanceOf (c : Category) : M unit :=
  match c with
  | DockerIssue => dockerGuidance
  | PortConflict => portGuidance
  | PermissionIssue => permissionGuidance
  | ConfigIssue => configGuidance
  end.

(** What a computation that only prints emits. *)
Definition printed (m : M unit) : list Event := snd (m (fresh ∅)).

Definition errorHead (msg : string) : list Event :=
  [Logger "error" "Server startup failed";
   ConsoleError "❌ Server startup failed";
   ConsoleError (nl +:+ "🔍 Error: " +:+ msg)].

Definition errorTail (options : Options) (stack : option string) : list Event :=
  printed troubleshootingSteps
  ++ (if truthy stack && dev options
      then [ConsoleError (nl +:+ "📍 Stack trace (dev mode):");
            ConsoleError (interpolate stack)]
      else if dev options then []
           else [ConsoleError (nl +:+ "💡 For detailed error information, use --dev flag")]).

(** A message in which exactly the chosen categories find a keyword. *)
Definition messageFor (docker portInUse permission configuration : bool) : string :=
  (if docker then "Docker " else "-")
  +:+ (if portInUse then "EADDRINUSE " else "-")
  +:+ (if permission then "EACCES " else "-")
  +:+ (if configuration then "Config" else "-").

Definition Category_eqb (a b : Category) : bool :=
  match a, b with
  | DockerIssue, DockerIssue | PortConflict, PortConflict
  | PermissionIssue, PermissionIssue | ConfigIssue, ConfigIssue => true
  | _, _ => false
  end.

(** ** Sample worlds, used to run the definitions *)

Module Sample.

Definition ping : ToolDescriptor :=
  {| name := "ping"; description := "Ping the server"; category := Some "utility" |}.
Definition build_image : ToolDescriptor :=
  {| name := "build_image"; description := "Build an image"; category := Some "build" |}.
Definition lettered : ToolDescriptor :=
  {| name := "scan"; description := "Scan"; category := Some "b" |}.
Definition numbered : ToolDescriptor :=
  {| name := "tag"; description := "Tag"; category := Some "1" |}.

Definition healthy : HealthReport :=
  {| status := "healthy"; uptime := QArith_base.Qmake 7 2;
     services := [("docker", true); ("kubernetes", false)];
     metrics := Some [("requests", MNumber (Int 3))] |}.

Definition server (listing : ToolListResult) (closing : Try unit) : Server.t :=
  {| Server.initialize := Returns tt;
     Server.listTools := Returns listing;
     Server.getHealth := Returns healthy;
     Server.start := Returns tt;
     Server.shutdown := fun _ => closing |}.

Definition configuration : Config.t :=
  {| Config.server := {| Config.logLevel := "info" |};
     Config.workspace := {| Config.workspaceDir := "/work" |} |}.

(** [/work] is a directory; nothing else exists. *)
Definition world (s : Server.t) : World :=
  {| fs_stat := fun path =>
       if String.eqb path "/work" then Returns {| isDirectory := true |}
       else Throws (ErrorObject "ENOENT: no such file or directory" None);
     child_process := fun _ => Returns tt;
     config_of_env := fun _ => Returns configuration;
     config_summary := fun _ => Returns tt;
     server_of_config := fun _ => Returns s |}.

(** The options of a bare [container-kit-mcp --mock] run in [/work]. *)
Definition options : Options :=
  {| config := None; logLevel := Some "info"; workspace := Some "/work";
     port := None; host := Some "localhost"; dev := false; mock := true;
     validate := false; listTools := false; healthCheck := false;
     dockerSocket := Some "/var/run/docker.sock";
     k8sNamespace := Some "default" |}.

Definition withModes (v l h : bool) (o : Options) : Options :=
  {| config := config o; logLevel := logLevel o; workspace := workspace o;
     port := port o; host := host o; dev := dev o; mock := mock o;
     validate := v; listTools := l; healthCheck := h;
     dockerSocket := dockerSocket o; k8sNamespace := k8sNamespace o |}.

Definition withPort (p : option number) (o : Options) : Options :=
  {| config := config o; logLevel := logLevel o; workspace := workspace o;
     port := p; host := host o; dev := dev o; mock := mock o;
     validate := validate o; listTools := listTools o;
     healthCheck := healthCheck o;
     dockerSocket := dockerSocket o; k8sNamespace := k8sNamespace o |}.

Definition withMock (m : bool) (o : Options) : Options :=
  {| config := config o; logLevel := logLevel o; workspace := workspace o;
     port := port o; host := host o; dev := dev o; mock := m;
     validate := validate o; listTools := listTools o;
     healthCheck := healthCheck o;
     dockerSocket := dockerSocket o; k8sNamespace := k8sNamespace o |}.

Definition noListing : ToolListResult := {| tools := None |}.

Definition failure : Thrown := ErrorObject "close failed" None.

End Sample.

(** ** Vocabulary of the proofs *)

(** Events among which there is no [console.log] line and no call to the
    server. *)
Definition silent (out : list Event) : Prop :=
  consoleLines out = [] /\ teardowns out = 0
  /\ Forall (fun ev => isServerEvent ev = false) out.

(** The state after [n] more calls of [server.shutdown]. *)
Definition called (n : nat) (st : State) : State :=
  {| env := env st; signalHandlers := signalHandlers st;
     shutdownCalls := n + shutdownCalls st |}.

(** What list-tools mode emits up to the call of [server.shutdown], when
    the listing was obtained. *)
Definition listed (lines : list string) : list Event :=
  [Logger "info" "Listing available tools"; ServerInitialize; ServerListTools]
  ++ map ConsoleLog lines ++ [ServerShutdown].

(** How a block completes whose last steps are [server.shutdown()] and
    [process.exit(code)]. *)
Definition afterShutdown (code : Z) (r : Try unit) : Completion unit :=
  match r with
  | Returns _ => Exit code
  | Throws e => Throw e
  end.

(** The shape of every completion of a block that ends the process or
    throws: at most one teardown, counted in the state; handlers untouched. *)
Definition endsOrThrows (st : State) (r : Completion unit * State * list Event) : Prop :=
  let '(c, st', out) := r in
  (forall a, c <> Normal a)
  /\ signalHandlers st' = signalHandlers st
  /\ shutdownCalls st' = teardowns out + shutdownCalls st
  /\ teardowns out <= 1.

(** What health-check mode prints for a report. *)
Definition healthLines (h : HealthReport) : list string :=
  ["🏥 Health Check Results";
   String_repeat "═" 40;
   "Status: " +:+ (if String.eqb (status h) "healthy" then "✅ Healthy" else "❌ Unhealthy");
   "Uptime: " +:+ Number_toString (Int (Qround.Qfloor (uptime h))) +:+ "s";
   nl +:+ "Services:"]
  ++ map (fun entry : string * bool =>
            "  " +:+ (if snd entry then "✅" else "❌") +:+ " " +:+ fst entry)
       (Object_entries (services h))
  ++ match metrics h with
     | Some values =>
         (nl +:+ "Metrics:")
         :: map (fun entry => "  📊 " +:+ fst entry +:+ ": " +:+ String_of (snd entry))
              (Object_entries values)
     | None => []
     end.

(** What health-check mode emits up to the call of [server.shutdown], when
    the report was obtained. *)
Definition healthChecked (lines : list string) : list Event :=
  [Logger "info" "Performing health check"; ServerInitialize; ServerGetHealth]
  ++ map ConsoleLog lines ++ [ServerShutdown].

(** The argument of [process.exit] on line 248. *)
Definition exitCodeOf (h : HealthReport) : Z :=
  if String.eqb (status h) "healthy" then 0 else 1.

(** What run mode emits up to the call of [server.start]. *)
Definition starting (v : string) (opts : Options) (cfg : Config.t) : list Event :=
  [Logger "info" "Starting Container Kit MCP Server";
   ConsoleLog "🚀 Starting Container Kit MCP Server...";
   ConsoleLog ("📦 Version: " +:+ v);
   ConsoleLog ("🏠 Workspace: " +:+ Config.workspaceDir (Config.workspace cfg));
   ConsoleLog ("📊 Log Level: " +:+ Config.logLevel (Config.server cfg))]
  ++ (if mock opts then [ConsoleLog "🤖 Running with mock AI sampler"] else [])
  ++ (if dev opts then [ConsoleLog "🔧 Development mode enabled"] else [])
  ++ [ServerStart].

(** What run mode emits once [server.start] has returned. *)
Definition started : list Event :=
  [ConsoleLog "✅ Server started successfully";
   ConsoleLog "🔌 Listening on stdio transport";
   ProcessOn SIGTERM; ProcessOn SIGINT].

(** The state once both signal handlers are installed. *)
Definition listening (server : Server.t) (st : State) : State :=
  {| env := env st;
     signalHandlers := signalHandlers st ++ [(SIGTERM, server); (SIGINT, server)];
     shutdownCalls := shutdownCalls st |}.

(** A health check in which nothing fails: start-up reaches the mode
    blocks, the server is constructed and initialized, it reports itself
    healthy, and its [shutdown] returns. *)
Definition healthyRun (W : World) (opts : Options) (st : State) : Prop :=
  exists cfg server report,
    reachesDispatch W opts st cfg
    /\ server_of_config W cfg = Returns server
    /\ Server.initialize server = Returns tt
    /\ Server.getHealth server = Returns report
    /\ status report = "healthy"
    /\ Server.shutdown server (shutdownCalls st) = Returns tt.

(** The order in which an object lists its own keys, given the order in
    which they were created: array indices ascending, then the rest as
    created. *)
Fixpoint insertKey (k : string) (sorted : list string) : list string :=
  match sorted with
  | [] => [k]
  | k' :: rest =>
      if (indexOf k <=? indexOf k')%N then k :: k' :: rest
      else k' :: insertKey k rest
  end.

Definition sortKeys (keys : list string) : list string :=
  fold_right insertKey [] keys.

Definition entryOrder (keys : list string) : list string :=
  sortKeys (List.filter isArrayIndex keys)
  ++ List.filter (fun k => negb (isArrayIndex k)) keys.

(** The groups [reduce] builds when no category is inherited. *)
Definition grouped (items : list ToolDescriptor) : Obj (list ToolDescriptor) :=
  map (groupOf items) (firstSeen (map categoryOf items)).

(** The category of the tool is not the name of a property every object
    inherits. *)
Definition ownCategory (tool : ToolDescriptor) : Prop :=
  existsb (String.eqb (categoryOf tool)) objectPrototypeKeys = false.

(** Order of two array indices by their numeric value. *)
Definition ascending (a b : string) : Prop := (indexOf a <= indexOf b)%N.

(** Two sample listings: the one of the specification's scenario, and one
    with a category that is an array index. *)
Definition scenarioListing : ToolListResult :=
  {| tools := Some (ArrayOf [Sample.ping; Sample.build_image]) |}.

Definition indexedListing : ToolListResult :=
  {| tools := Some (ArrayOf [Sample.lettered; Sample.numbered]) |}.

Definition listingWorld (listing : ToolListResult) : World :=
  Sample.world (Sample.server listing (Returns tt)).

Definition listingOptions : Options :=
  Sample.withModes false true false Sample.options.

(** What holds of the process at every moment of its life: the server was
    torn down at most once, as often as [server.shutdown] was entered; and
    while the process lives the server is still up and both signals have
    the one handler [main] installed. *)
Definition settled (p : Process) : Prop :=
  teardowns (output p) <= 1
  /\ shutdownCalls (memory p) = teardowns (output p)
  /\ match condition p with
     | Alive =>
         teardowns (output p) = 0
         /\ exists server,
              signalHandlers (memory p) = [(SIGTERM, server); (SIGINT, server)]
     | _ => True
     end.

(** The condition of the process after a callback completed with [c]. *)
Definition ended (c : Completion unit) : Status :=
  match c with
  | Normal _ => Alive
  | Exit code => Exited code
  | Throw _ => Exited 1
  end.

(** Membership in a list of categories, as a boolean. *)
Definition wants (wanted : list Category) (c : Category) : bool :=
  existsb (Category_eqb c) wanted.

(** ** Vocabulary of the further properties *)

(** The kinds of message [validateOptions] has besides the port and
    Docker-socket ones. *)
Definition isLogLevelError (msg : string) : bool :=
  String.prefix "Invalid log level: " msg.
Definition isWorkspaceError (msg : string) : bool :=
  String.prefix "Workspace " msg.
Definition isConfigError (msg : string) : bool :=
  String.prefix "Configuration file not found: " msg.

(** In how many of the five kinds a message falls. *)
Definition kindsOf (msg : string) : nat :=
  Nat.b2n (isLogLevelError msg) + Nat.b2n (isPortError msg)
  + Nat.b2n (isWorkspaceError msg) + Nat.b2n (isDockerSocketError msg)
  + Nat.b2n (isConfigError msg).

(** A computation that leaves the environment variables as they are,
    however it completes. *)
Definition keepsEnv {A} (m : M A) : Prop :=
  forall st, env (snd (fst (m st))) = env st.

(** The value of a variable after [if (option) env.VAR = option]. *)
Definition overridden (value old : option string) : option string :=
  match guarded value with
  | Some v => Some v
  | None => old
  end.

(** The six variables lines 138-143 may write. *)
Definition normalizedKeys : list string :=
  ["LOG_LEVEL"; "WORKSPACE_DIR"; "DOCKER_SOCKET"; "K8S_NAMESPACE"; "NODE_ENV"; "MOCK_MODE"].

(** The configuration summary of validate mode (lines 152-159), for a
    configuration and the environment it is read back from. *)
Definition summaryLines (cfg : Config.t) (e : gmap string string) : list string :=
  ["🔍 Validating Container Kit MCP configuration..." +:+ nl;
   "📋 Configuration Summary:";
   "  • Log Level: " +:+ Config.logLevel (Config.server cfg);
   "  • Workspace: " +:+ Config.workspaceDir (Config.workspace cfg);
   "  • Docker Socket: " +:+ or_else (e !! "DOCKER_SOCKET") "/var/run/docker.sock";
   "  • K8s Namespace: " +:+ or_else (e !! "K8S_NAMESPACE") "default";
   "  • Mock Mode: " +:+
     match e !! "MOCK_MODE" with
     | Some value => if String.eqb value "true" then "enabled" else "disabled"
     | None => "disabled"
     end;
   "  • Environment: " +:+ or_else (e !! "NODE_ENV") "production"].

(** A connectivity probe: the command is run and one of two lines printed. *)
Definition probe (W : World) (command succeeded failed : string) : list Event :=
  [ExecSync command;
   ConsoleLog (match child_process W command with
               | Returns _ => succeeded
               | Throws _ => failed
               end)].

Definition dockerProbe (W : World) : list Event :=
  ConsoleLog (nl +:+ "🐳 Testing Docker connection...")
  :: probe W "docker version" "  ✅ Docker connection successful"
       "  ⚠️  Docker connection failed - consider using --mock for testing".

Definition kubernetesProbe (W : World) : list Event :=
  ConsoleLog (nl +:+ "☸️  Testing Kubernetes connection...")
  :: probe W "kubectl version --client=true" "  ✅ Kubernetes client available"
       "  ⚠️  Kubernetes client not found - kubectl not in PATH".

Definition validateClosing : list Event :=
  [Logger "info" "Configuration validation completed";
   ConsoleLog (nl +:+ "✅ Configuration validation complete!");
   ConsoleLog (nl +:+ "Next steps:");
   ConsoleLog "  • Start server: container-kit-mcp";
   ConsoleLog "  • List tools: container-kit-mcp --list-tools";
   ConsoleLog "  • Health check: container-kit-mcp --health-check"].

(** The commands run with [execSync], in order. *)
Definition commandsRun (out : list Event) : list string :=
  flat_map (fun ev => match ev with ExecSync command => [command] | _ => [] end) out.

(** The events that touch the server, in order. *)
Definition serverCalls (out : list Event) : list Event :=
  List.filter isServerEvent out.

(** The calls a mode makes on the server when nothing fails; run mode ends
    with the [shutdown] of its signal handler. *)
Definition protocolOf (mode : Mode) : list Event :=
  match mode with
  | ValidateMode => []
  | ListToolsMode => [NewServer; ServerInitialize; ServerListTools; ServerShutdown]
  | HealthCheckMode => [NewServer; ServerInitialize; ServerGetHealth; ServerShutdown]
  | RunMode => [NewServer; ServerStart; ServerShutdown]
  end.

(** Run mode is selected and [server] was constructed and started. *)
Definition runStarted (W : World) (opts : Options) (st : State) (server : Server.t)
  : Prop :=
  selectMode opts = RunMode
  /\ (exists cfg, reachesDispatch W opts st cfg
                  /\ server_of_config W cfg = Returns server)
  /\ Server.start server = Returns tt.

(** What the signal handler emits, by the result of [server.shutdown]. *)
Definition shutdownEvents (signal : string) (r : Try unit) : list Event :=
  [Logger "info" "Shutting down";
   ConsoleLog (nl +:+ "🛑 Received " +:+ signal +:+ ", shutting down gracefully...");
   ServerShutdown]
  ++ match r with
     | Returns _ => [ConsoleLog "✅ Shutdown complete"]
     | Throws e => [Logger "error" "Shutdown error";
                    ConsoleErrorValue "❌ Shutdown error:" e]
     end.

(** What holds of the calls made on the server at every moment: they are
    the beginning of the protocol of the mode; while the process lives, it
    is run mode that was started, with its two handlers installed. *)
Definition onProtocol (mode : Mode) (p : Process) : Prop :=
  (exists rest, protocolOf mode = serverCalls (output p) ++ rest)
  /\ (condition p = Alive ->
      mode = RunMode
      /\ serverCalls (output p) = [NewServer; ServerStart]
      /\ exists server,
           signalHandlers (memory p) = [(SIGTERM, server); (SIGINT, server)]).

(** A server whose [initialize] throws, and one whose [shutdown] throws. *)
Definition brokenServer : Server.t :=
  {| Server.initialize := Throws (ErrorObject "connect ECONNREFUSED" None);
     Server.listTools := Returns Sample.noListing;
     Server.getHealth := Returns Sample.healthy;
     Server.start := Throws (ErrorObject "listen EADDRINUSE" None);
     Server.shutdown := fun _ => Returns tt |}.

Definition stubbornServer : Server.t :=
  Sample.server Sample.noListing (Throws Sample.failure).

Definition healthOptions : Options :=
  Sample.withModes false false true Sample.options.

(** Two option sets that [validateOptions] cannot tell apart: they agree
    on the six options it reads. *)
Definition sameForValidation (a b : Options) : Prop :=
  logLevel a = logLevel b /\ port a = port b /\ workspace a = workspace b
  /\ mock a = mock b /\ dockerSocket a = dockerSocket b /\ config a = config b.

(** Two option sets that differ at most in [host] and [port]. *)
Definition sameButHostAndPort (a b : Options) : Prop :=
  config a = config b /\ logLevel a = logLevel b /\ workspace a = workspace b
  /\ dev a = dev b /\ mock a = mock b /\ validate a = validate b
  /\ listTools a = listTools b /\ healthCheck a = healthCheck b
  /\ dockerSocket a = dockerSocket b /\ k8sNamespace a = k8sNamespace b.

(** The heading of the stack trace in the start-up failure report. *)
Definition stackHeading : Event :=
  ConsoleError (nl +:+ "📍 Stack trace (dev mode):").

(** The line printed in its place without [--dev]. *)
Definition devHint : Event :=
  ConsoleError (nl +:+ "💡 For detailed error information, use --dev flag").

Definition isStackHeading (ev : Event) : bool :=
  match ev with
  | ConsoleError line => String.eqb line (nl +:+ "📍 Stack trace (dev mode):")
  | _ => false
  end.

(** * Properties *)

(** ** The effect monad *)

Lemma bind_run {A B} (m : M A) (k : A -> M B) st a st1 out1 :
  m st = (Normal a, st1, out1) ->
  bind m k st = (let '(c, st2, out2) := k a st1 in (c, st2, out1 ++ out2)).
Proof. intros H. unfold bind. rewrite H. reflexivity. Qed.

Lemma bind_exit {A B} (m : M A) (k : A -> M B) st code st1 out1 :
  m st = (Exit code, st1, out1) -> bind m k st = (Exit code, st1, out1).
Proof. intros H. unfold bind. rewrite H. reflexivity. Qed.

Lemma bind_throw {A B} (m : M A) (k : A -> M B) st e st1 out1 :
  m st = (Throw e, st1, out1) -> bind m k st = (Throw e, st1, out1).
Proof. intros H. unfold bind. rewrite H. reflexivity. Qed.

Lemma bind_ret {A B} (a : A) (k : A -> M B) st : bind (ret a) k st = k a st.
Proof. unfold bind, ret. destruct (k a st) as [[c st2] out2]. reflexivity. Qed.

Lemma bind_ext {A B} (m : M A) (k1 k2 : A -> M B) st :
  (forall a st1, k1 a st1 = k2 a st1) -> bind m k1 st = bind m k2 st.
Proof.
  intros H. unfold bind. destruct (m st) as [[[a|e|code] st1] out1];
    [rewrite H|..]; reflexivity.
Qed.

Lemma forEach_console_log {A} (f : A -> string) (l : list A) st :
  forEach l (fun x => console_log (f x)) st
  = (Normal tt, st, map (fun x => ConsoleLog (f x)) l).
Proof.
  induction l as [|x l IH]; [reflexivity|].
  cbn [forEach]. unfold bind at 1. cbn. rewrite IH. reflexivity.
Qed.

Lemma forEach_console_error {A} (f : A -> string) (l : list A) st :
  forEach l (fun x => console_error (f x)) st
  = (Normal tt, st, map (fun x => ConsoleError (f x)) l).
Proof.
  induction l as [|x l IH]; [reflexivity|].
  cbn [forEach]. unfold bind at 1. cbn. rewrite IH. reflexivity.
Qed.

(** ** [validateOptions] *)

Lemma validateOptions_run W opts st :
  validateOptions W opts st
  = (Normal {| valid := Nat.eqb (length (checksOf W opts)) 0;
               errors := checksOf W opts |},
     st, statCalls opts).
Proof.
  unfold validateOptions, checksOf, statCalls, logLevelCheck, portCheck,
    workspaceCheck, dockerSocketCheck, configCheck, pathChecked.
  destruct (truthy (logLevel opts) && negb (Array_includes validLogLevels (logLevel opts)));
  (destruct (guarded (port opts)) as [p|]; [destruct (lt p 1 || gt p 65535)|]);
  (destruct (guarded (workspace opts)) as [ws|];
     [unfold tryCatch, bind at 1, statSync, perform; destruct (fs_stat W ws) as [[[]]|]|]);
  (destruct (mock opts); [|destruct (guarded (dockerSocket opts)) as [ds|];
     [unfold tryCatch, bind, statSync, perform; destruct (fs_stat W ds) as [?|]|]]);
  (destruct (guarded (config opts)) as [cf|];
     [unfold tryCatch, bind, statSync, perform; destruct (fs_stat W cf) as [?|]|]);
  reflexivity.
Qed.

Lemma length_zero_nil {A} (l : list A) : Nat.eqb (length l) 0 = true <-> l = [].
Proof. destruct l; cbn; split; congruence. Qed.

(** C6. [validateOptions] always returns a result and never throws or
    exits, whatever the options and the file system; it leaves the process
    state alone; the error list is what the five checks contribute, each
    from its own option, one after the other; and [valid] holds exactly when
    that list is empty. *)
Theorem validateOptions_total_and_accumulating :
  forall (W : World) (opts : Options) (st : State),
  exists r,
    validateOptions W opts st = (Normal r, st, statCalls opts)
    /\ errors r
       = logLevelCheck (logLevel opts) ++ portCheck (port opts)
         ++ workspaceCheck W (workspace opts)
         ++ dockerSocketCheck W (mock opts) (dockerSocket opts)
         ++ configCheck W (config opts)
    /\ (valid r = true <-> errors r = []).
Proof.
  intros W opts st. eexists. split; [apply validateOptions_run|].
  split; [reflexivity|]. cbn [valid errors]. apply length_zero_nil.
Qed.

Lemma validateOptions_inv W opts st r st1 out :
  validateOptions W opts st = (Normal r, st1, out) ->
  errors r = checksOf W opts /\ st1 = st /\ out = statCalls opts
  /\ valid r = Nat.eqb (length (checksOf W opts)) 0.
Proof.
  rewrite validateOptions_run. intros H. inversion H; subst. cbn. auto.
Qed.

(** *** Counting the errors of one kind *)

Lemma countErrors_app kind l1 l2 :
  countErrors kind (l1 ++ l2) = countErrors kind l1 + countErrors kind l2.
Proof. unfold countErrors. rewrite List.filter_app, length_app. reflexivity. Qed.

Ltac count_check :=
  intros;
  unfold logLevelCheck, portCheck, workspaceCheck, dockerSocketCheck, configCheck;
  repeat match goal with
         | |- context [match ?x with _ => _ end] => destruct x
         end;
  reflexivity.

Lemma docker_in_logLevel l : countErrors isDockerSocketError (logLevelCheck l) = 0.
Proof. count_check. Qed.
Lemma docker_in_port p : countErrors isDockerSocketError (portCheck p) = 0.
Proof. count_check. Qed.
Lemma docker_in_workspace W ws : countErrors isDockerSocketError (workspaceCheck W ws) = 0.
Proof. count_check. Qed.
Lemma docker_in_config W cf : countErrors isDockerSocketError (configCheck W cf) = 0.
Proof. count_check. Qed.

Lemma port_in_logLevel l : countErrors isPortError (logLevelCheck l) = 0.
Proof. count_check. Qed.
Lemma port_in_workspace W ws : countErrors isPortError (workspaceCheck W ws) = 0.
Proof. count_check. Qed.
Lemma port_in_docker W m ds : countErrors isPortError (dockerSocketCheck W m ds) = 0.
Proof. count_check. Qed.
Lemma port_in_config W cf : countErrors isPortError (configCheck W cf) = 0.
Proof. count_check. Qed.

Lemma countErrors_docker W opts :
  countErrors isDockerSocketError (checksOf W opts)
  = countErrors isDockerSocketError (dockerSocketCheck W (mock opts) (dockerSocket opts)).
Proof.
  unfold checksOf. rewrite !countErrors_app, docker_in_logLevel, docker_in_port,
    docker_in_workspace, docker_in_config. lia.
Qed.

Lemma countErrors_port W opts :
  countErrors isPortError (checksOf W opts) = countErrors isPortError (portCheck (port opts)).
Proof.
  unfold checksOf. rewrite !countErrors_app, port_in_logLevel, port_in_workspace,
    port_in_docker, port_in_config. lia.
Qed.

Lemma prefix_append (p s : string) : String.prefix p (p +:+ s) = true.
Proof.
  induction p as [|a p IH].
  - destruct s; reflexivity.
  - change (String a p +:+ s) with (String a (p +:+ s)).
    cbn [String.prefix]. destruct (ascii_dec a a); [exact IH | congruence].
Qed.

Lemma countErrors_one kind (p s : string) :
  kind = String.prefix p -> countErrors kind [p +:+ s] = 1.
Proof.
  intros ->. unfold countErrors. cbn [List.filter]. rewrite prefix_append. reflexivity.
Qed.

(** C5. With [mock] set, [validateOptions] stats the workspace and the
    configuration file only, never the Docker socket path, and no
    Docker-socket error is reported; without [mock], when [dockerSocket] is
    set (a non-empty string, which is what the source tests) and [statSync]
    throws on it, exactly one Docker-socket error is reported. *)
Theorem docker_socket_check_respects_mock :
  forall (W : World) (opts : Options) (st st1 : State) r out,
    validateOptions W opts st = (Normal r, st1, out) ->
    (mock opts = true ->
       out = map StatSync (pathChecked (workspace opts) ++ pathChecked (config opts))
       /\ countErrors isDockerSocketError (errors r) = 0)
    /\ (mock opts = false ->
        forall path e,
          guarded (dockerSocket opts) = Some path ->
          fs_stat W path = Throws e ->
          countErrors isDockerSocketError (errors r) = 1).
Proof.
  intros W opts st st1 r out Hrun.
  apply validateOptions_inv in Hrun as (Herr & _ & Hout & _).
  rewrite Herr, Hout, countErrors_docker. unfold statCalls, dockerSocketCheck.
  split.
  - intros ->. split; reflexivity.
  - intros -> path e -> ->. apply countErrors_one. reflexivity.
Qed.

Lemma docker_socket_check_witness :
  countErrors isDockerSocketError
    ["Docker socket not found: /var/run/docker.sock. Try --mock for testing without Docker."]
  = 1.
Proof.
  refine (proj2 (docker_socket_check_respects_mock
                   (Sample.world (Sample.server Sample.noListing (Returns tt)))
                   (Sample.withMock false Sample.options)
                   (fresh ∅) (fresh ∅)
                   {| valid := false;
                      errors := ["Docker socket not found: /var/run/docker.sock. Try --mock for testing without Docker."] |}
                   [StatSync "/work"; StatSync "/var/run/docker.sock"] _)
            _ "/var/run/docker.sock"
            (ErrorObject "ENOENT: no such file or directory" None) _ _);
    reflexivity.
Defined.

(** C4, at the input that breaks it. An explicit [--port 0] lies outside
    [1, 65535], yet [validateOptions] reports no port error and accepts the
    options: the guard [opts.port && ...] takes [0] for an absent port. *)
Theorem port_zero_is_not_rejected :
  forall (s : Server.t) (st : State),
    validateOptions (Sample.world s) (Sample.withPort (Some (Int 0)) Sample.options) st
    = (Normal {| valid := true; errors := [] |}, st, [StatSync "/work"]).
Proof. intros s st. rewrite validateOptions_run. reflexivity. Qed.

(** The same holds in every world: a port of [0], or the [NaN] that
    [parseInt] gives for a port that is no number, is never reported. *)
Lemma falsy_port_is_not_checked W opts :
  port opts = Some (Int 0) \/ port opts = Some NaN ->
  countErrors isPortError (checksOf W opts) = 0.
Proof.
  intros H. rewrite countErrors_port. destruct H as [-> | ->]; reflexivity.
Qed.

(** Any other port outside the range is reported once. *)
Lemma port_out_of_range_reported W opts n :
  port opts = Some n -> truthy n = true -> lt n 1 || gt n 65535 = true ->
  countErrors isPortError (checksOf W opts) = 1.
Proof.
  intros Hp Ht Hr. rewrite countErrors_port, Hp. unfold portCheck, guarded.
  rewrite Ht, Hr. apply countErrors_one. reflexivity.
Qed.

(** The scenario [--workspace /nonexistent --mock] of the specification:
    one error, about the workspace; the Docker socket is not looked at. *)
Example missing_workspace_with_mock :
  forall (s : Server.t) (st : State),
    validateOptions (Sample.world s)
      {| config := None; logLevel := Some "info"; workspace := Some "/nonexistent";
         port := None; host := Some "localhost"; dev := false; mock := true;
         validate := false; listTools := false; healthCheck := false;
         dockerSocket := Some "/var/run/docker.sock";
         k8sNamespace := Some "default" |} st
    = (Normal {| valid := false;
                 errors := ["Workspace directory does not exist: /nonexistent"] |},
       st, [StatSync "/nonexistent"]).
Proof. intros s st. rewrite validateOptions_run. reflexivity. Qed.

(** ** Start-up *)

Lemma reportInvalid_valid r st :
  valid r = true -> reportInvalid r st = (Normal tt, st, []).
Proof. intros H. unfold reportInvalid. rewrite H. reflexivity. Qed.

Lemma reportInvalid_invalid r st :
  valid r = false ->
  reportInvalid r st
  = (Exit 1, st,
     [ConsoleError "❌ Configuration errors:"]
     ++ map (fun msg => ConsoleError ("  • " +:+ msg)) (errors r)
     ++ [ConsoleError (nl +:+ "Use --help for usage information")]).
Proof.
  intros H. unfold reportInvalid. rewrite H. cbn [negb when].
  unfold bind at 1. cbn [console_error emit].
  rewrite (bind_run _ _ _ _ _ _ (forEach_console_error _ _ _)).
  cbn. reflexivity.
Qed.

Lemma main_invalid W v opts st :
  failsValidation W opts st ->
  main W v opts st
  = (Exit 1, st,
     statCalls opts
     ++ [ConsoleError "❌ Configuration errors:"]
     ++ map (fun msg => ConsoleError ("  • " +:+ msg)) (checksOf W opts)
     ++ [ConsoleError (nl +:+ "Use --help for usage information")]).
Proof.
  intros (r & st1 & out1 & Hrun & Hinvalid).
  destruct (validateOptions_inv _ _ _ _ _ _ Hrun) as (Herr & -> & -> & _).
  unfold main, mainBody, tryCatch.
  rewrite (bind_run _ _ _ _ _ _ Hrun).
  rewrite (bind_exit _ _ _ _ _ _ (reportInvalid_invalid _ _ Hinvalid)).
  rewrite Herr. reflexivity.
Qed.

Lemma report_events W opts :
  Forall isStatOrConsoleError
    (statCalls opts
     ++ [ConsoleError "❌ Configuration errors:"]
     ++ map (fun msg => ConsoleError ("  • " +:+ msg)) (checksOf W opts)
     ++ [ConsoleError (nl +:+ "Use --help for usage information")]).
Proof.
  rewrite !Forall_app. repeat split.
  - unfold statCalls. apply Forall_map. apply Forall_forall. intros; exact I.
  - repeat constructor.
  - apply Forall_map. apply Forall_forall. intros; exact I.
  - repeat constructor.
Qed.

(** C9. When validation fails, [main] exits with code 1 and the process
    state, its environment variables in particular, is as it was: all the
    run did was stat the paths [validateOptions] looks at and print the
    error report with [console.error]. No configuration was constructed and
    no operation of the server was called. *)
Theorem invalid_options_exit_before_normalization :
  forall (W : World) (v : string) (opts : Options) (st : State),
    failsValidation W opts st ->
    exists st' out,
      main W v opts st = (Exit 1, st', out)
      /\ st' = st
      /\ env st' = env st
      /\ out = statCalls opts
               ++ [ConsoleError "❌ Configuration errors:"]
               ++ map (fun msg => ConsoleError ("  • " +:+ msg)) (checksOf W opts)
               ++ [ConsoleError (nl +:+ "Use --help for usage information")]
      /\ Forall isStatOrConsoleError out.
Proof.
  intros W v opts st Hfails.
  exists st. eexists. split; [apply main_invalid, Hfails|].
  split; [reflexivity|split; [reflexivity|split; [reflexivity|apply report_events]]].
Qed.

Lemma invalid_options_exit_witness :
  exists st' out,
    main (Sample.world (Sample.server Sample.noListing (Returns tt))) "1.0.0"
      (Sample.withPort (Some (Int 70000)) Sample.options) (fresh ∅)
    = (Exit 1, st', out)
    /\ st' = fresh ∅
    /\ env st' = env (fresh ∅)
    /\ out = [StatSync "/work";
              ConsoleError "❌ Configuration errors:";
              ConsoleError "  • Invalid port: 70000. Must be between 1 and 65535";
              ConsoleError (nl +:+ "Use --help for usage information")]
    /\ Forall isStatOrConsoleError out.
Proof.
  apply (invalid_options_exit_before_normalization
           (Sample.world (Sample.server Sample.noListing (Returns tt))) "1.0.0"
           (Sample.withPort (Some (Int 70000)) Sample.options) (fresh ∅)).
  exists {| valid := false;
            errors := ["Invalid port: 70000. Must be between 1 and 65535"] |},
    (fresh ∅), [StatSync "/work"].
  split; reflexivity.
Defined.

Lemma setEnvironment_run opts st :
  setEnvironment opts st = (Normal tt, normalized opts st, []).
Proof.
  unfold setEnvironment, assignIfSet, normalized, normalizedEnv, assigned.
  destruct st as [e hs n]. cbn [env signalHandlers shutdownCalls].
  destruct (guarded (logLevel opts)), (guarded (workspace opts)),
    (guarded (dockerSocket opts)), (guarded (k8sNamespace opts)),
    (dev opts), (mock opts); reflexivity.
Qed.

Lemma mainBody_run W v opts st cfg :
  reachesDispatch W opts st cfg ->
  mainBody W v opts st
  = (let '(c, st2, out2) := dispatch W v opts cfg (normalized opts st) in
     (c, st2, startupEvents opts ++ out2)).
Proof.
  intros ((r & st1 & out1 & Hrun & Hvalid) & Hcfg & Hsum).
  destruct (validateOptions_inv _ _ _ _ _ _ Hrun) as (_ & -> & -> & _).
  unfold mainBody.
  rewrite (bind_run _ _ _ _ _ _ Hrun).
  rewrite (bind_run _ _ _ _ _ _ (reportInvalid_valid _ _ Hvalid)).
  rewrite (bind_run _ _ _ _ _ _ (setEnvironment_run _ _)).
  unfold bind at 1. unfold createConfig, perform. cbn [env normalized]. rewrite Hcfg.
  unfold bind at 1. unfold logConfigSummaryIfDev, perform. rewrite Hsum.
  destruct (dispatch W v opts cfg (normalized opts st)) as [[c st2] out2].
  unfold startupEvents. cbn. rewrite <- app_assoc. reflexivity.
Qed.

Lemma main_run W v opts st cfg :
  reachesDispatch W opts st cfg ->
  main W v opts st
  = (let '(c, st2, out2) :=
       tryCatch (dispatch W v opts cfg) (startupFailed opts) (normalized opts st) in
     (c, st2, startupEvents opts ++ out2)).
Proof.
  intros H. unfold main, tryCatch. rewrite (mainBody_run _ _ _ _ _ H).
  destruct (dispatch W v opts cfg (normalized opts st)) as [[[a|e|code] st2] out2];
    try reflexivity.
  destruct (startupFailed opts e st2) as [[c st3] out3].
  rewrite app_assoc. reflexivity.
Qed.

(** ** The start-up failure handler *)

Lemma startupFailed_error opts msg stack st :
  startupFailed opts (ErrorObject msg stack) st
  = (Exit 1, st,
     errorHead msg
     ++ flat_map (fun c => printed (guidanceOf c)) (classify msg)
     ++ errorTail opts stack).
Proof.
  unfold startupFailed, classify, errorTail, allCategories, keywords.
  cbn [List.filter existsb]. rewrite !orb_false_r.
  destruct (String_includes msg "Docker" || String_includes msg "ENOENT"),
    (String_includes msg "EADDRINUSE"),
    (String_includes msg "permission" || String_includes msg "EACCES"),
    (String_includes msg "config" || String_includes msg "Config"),
    (truthy stack), (dev opts); reflexivity.
Qed.

Lemma startupFailed_other opts text st :
  startupFailed opts (OtherValue text) st
  = (Exit 1, st,
     [Logger "error" "Server startup failed"; ConsoleError "❌ Server startup failed"]).
Proof. reflexivity. Qed.

Lemma consoleLines_app out1 out2 :
  consoleLines (out1 ++ out2) = consoleLines out1 ++ consoleLines out2.
Proof. unfold consoleLines. apply flat_map_app. Qed.

Lemma teardowns_app out1 out2 :
  teardowns (out1 ++ out2) = teardowns out1 + teardowns out2.
Proof. unfold teardowns. rewrite List.filter_app, length_app. reflexivity. Qed.

Lemma startupFailed_run opts e st :
  exists out, startupFailed opts e st = (Exit 1, st, out) /\ silent out.
Proof.
  destruct e as [msg stack|text].
  - eexists. split; [apply startupFailed_error|].
    unfold silent, classify, errorTail, allCategories.
    cbn [List.filter].
    destruct (existsb (String_includes msg) (keywords DockerIssue)),
      (existsb (String_includes msg) (keywords PortConflict)),
      (existsb (String_includes msg) (keywords PermissionIssue)),
      (existsb (String_includes msg) (keywords ConfigIssue)),
      (truthy stack), (dev opts);
      (split; [reflexivity|split; [reflexivity|repeat constructor]]).
  - eexists. split; [apply startupFailed_other|].
    split; [reflexivity|split; [reflexivity|repeat constructor]].
Qed.

(** ** Validate mode *)

Lemma validateMode_run W opts cfg st :
  exists out,
    validateMode W opts cfg st = (Exit 0, st, out)
    /\ In (ConsoleLog "📋 Configuration Summary:") out
    /\ teardowns out = 0
    /\ Forall (fun ev => isServerEvent ev = false) out.
Proof.
  unfold validateMode, when, tryCatch, execSync, perform, bind, getenv, console_log,
    logger, emit, exit, ret.
  destruct (mock opts); cbn [negb];
    destruct (child_process W "kubectl version --client=true");
    try destruct (child_process W "docker version");
    (eexists; split; [reflexivity|];
     split; [cbn; tauto|split; [reflexivity|repeat constructor]]).
Qed.

(** ** The mode blocks *)

Lemma forEach_printGroup entries st :
  forEach entries printGroup st
  = (Normal tt, st, map ConsoleLog (flat_map groupLines entries)).
Proof.
  induction entries as [|g entries IH]; [reflexivity|].
  cbn [forEach flat_map]. unfold bind at 1, printGroup at 1.
  unfold bind at 1. cbn [console_log emit].
  rewrite forEach_console_log, IH. unfold groupLines at 2.
  cbn. rewrite map_app, map_map. reflexivity.
Qed.

Lemma teardowns_console_log lines : teardowns (map ConsoleLog lines) = 0.
Proof. induction lines; [reflexivity | exact IHlines]. Qed.

Lemma consoleLines_console_log lines : consoleLines (map ConsoleLog lines) = lines.
Proof. induction lines as [|l lines IH]; [reflexivity|]. cbn. f_equal. exact IH. Qed.

Lemma listToolsMode_listing server st items acc :
  Server.initialize server = Returns tt ->
  Server.listTools server = Returns {| tools := Some (ArrayOf items) |} ->
  reduce items [] = Returns acc ->
  listToolsMode server st
  = (afterShutdown 0 (Server.shutdown server (shutdownCalls st)), called 1 st,
     listed (listingHead ++ flat_map groupLines (Object_entries acc) ++ [totalLine items])).
Proof.
  intros Hi Hl Hr.
  unfold listToolsMode, server_initialize, server_listTools, server_shutdown, perform,
    listed, afterShutdown, called.
  unfold bind at 1. cbn [logger emit].
  unfold bind at 1. rewrite Hi.
  unfold bind at 1. rewrite Hl.
  unfold bind at 1. cbn [console_log emit].
  unfold bind at 1. cbn [console_log emit].
  unfold bind at 1. cbn [tools]. rewrite Hr.
  unfold bind at 1. cbn [ret].
  unfold bind at 1. rewrite forEach_printGroup.
  cbn [console_log emit].
  unfold bind at 1.
  destruct (Server.shutdown server (shutdownCalls st));
    cbn; rewrite !map_app; cbn; rewrite <- !app_assoc; reflexivity.
Qed.

Lemma listToolsMode_no_listing server st listing :
  Server.initialize server = Returns tt ->
  Server.listTools server = Returns listing ->
  tools listing = None \/ tools listing = Some NotAnArray ->
  listToolsMode server st
  = (afterShutdown 0 (Server.shutdown server (shutdownCalls st)), called 1 st,
     listed listingHead).
Proof.
  intros Hi Hl Ht.
  unfold listToolsMode, server_initialize, server_listTools, server_shutdown, perform,
    listed, afterShutdown, called.
  unfold bind at 1. cbn [logger emit].
  unfold bind at 1. rewrite Hi.
  unfold bind at 1. rewrite Hl.
  unfold bind at 1. cbn [console_log emit].
  unfold bind at 1. cbn [console_log emit].
  unfold bind at 1.
  destruct Ht as [-> | ->]; cbn [ret];
    unfold bind at 1;
    destruct (Server.shutdown server (shutdownCalls st)); reflexivity.
Qed.

Lemma listToolsMode_outcome server st : endsOrThrows st (listToolsMode server st).
Proof.
  destruct (Server.initialize server) as [[]|e] eqn:Hi.
  - destruct (Server.listTools server) as [[[[items|]|]]|e] eqn:Hl.
    + destruct (reduce items []) as [acc|e] eqn:Hr.
      * rewrite (listToolsMode_listing _ _ _ _ Hi Hl Hr).
        unfold endsOrThrows, listed.
        rewrite !teardowns_app, teardowns_console_log.
        destruct (Server.shutdown server (shutdownCalls st)); cbn;
          (split; [congruence|split; [reflexivity|split; [reflexivity|lia]]]).
      * unfold listToolsMode, server_initialize, server_listTools, perform, bind.
        rewrite Hi, Hl. cbn. rewrite Hr. cbn.
        split; [congruence|split; [reflexivity|split; [reflexivity|lia]]].
    + rewrite (listToolsMode_no_listing _ _ _ Hi Hl (or_intror eq_refl)).
      destruct (Server.shutdown server (shutdownCalls st)); cbn;
        (split; [congruence|split; [reflexivity|split; [reflexivity|lia]]]).
    + rewrite (listToolsMode_no_listing _ _ _ Hi Hl (or_introl eq_refl)).
      destruct (Server.shutdown server (shutdownCalls st)); cbn;
        (split; [congruence|split; [reflexivity|split; [reflexivity|lia]]]).
    + unfold listToolsMode, server_initialize, server_listTools, perform, bind.
      rewrite Hi, Hl. cbn.
      split; [congruence|split; [reflexivity|split; [reflexivity|lia]]].
  - unfold listToolsMode, server_initialize, perform, bind.
    rewrite Hi. cbn.
    split; [congruence|split; [reflexivity|split; [reflexivity|lia]]].
Qed.

Lemma healthCheckMode_report server st h :
  Server.initialize server = Returns tt ->
  Server.getHealth server = Returns h ->
  healthCheckMode server st
  = (afterShutdown (exitCodeOf h) (Server.shutdown server (shutdownCalls st)),
     called 1 st, healthChecked (healthLines h)).
Proof.
  intros Hi Hh.
  unfold healthCheckMode, server_initialize, server_getHealth, server_shutdown, perform,
    healthChecked, healthLines, afterShutdown, called, exitCodeOf.
  unfold bind at 1. cbn [logger emit].
  unfold bind at 1. rewrite Hi.
  unfold bind at 1. rewrite Hh.
  do 5 (unfold bind at 1; cbn [console_log emit]).
  unfold bind at 1. rewrite forEach_console_log.
  unfold bind at 1.
  destruct (metrics h) as [values|].
  - unfold bind at 1. cbn [console_log emit]. rewrite forEach_console_log.
    unfold bind at 1.
    destruct (Server.shutdown server (shutdownCalls st));
      cbn [app map]; rewrite !map_app; cbn [app map]; rewrite !map_map, <- ?app_assoc;
      reflexivity.
  - cbn [ret]. unfold bind at 1.
    destruct (Server.shutdown server (shutdownCalls st));
      cbn [app map]; rewrite !map_app; cbn [app map];
      rewrite !map_map, <- ?app_assoc, ?app_nil_r; reflexivity.
Qed.

Lemma healthCheckMode_no_initialize server st e :
  Server.initialize server = Throws e ->
  healthCheckMode server st
  = (Throw e, st, [Logger "info" "Performing health check"; ServerInitialize]).
Proof.
  intros Hi. unfold healthCheckMode, server_initialize, perform, bind.
  rewrite Hi. reflexivity.
Qed.

Lemma healthCheckMode_no_report server st e :
  Server.initialize server = Returns tt ->
  Server.getHealth server = Throws e ->
  healthCheckMode server st
  = (Throw e, st,
     [Logger "info" "Performing health check"; ServerInitialize; ServerGetHealth]).
Proof.
  intros Hi Hh. unfold healthCheckMode, server_initialize, server_getHealth, perform, bind.
  rewrite Hi, Hh. reflexivity.
Qed.

Lemma healthCheckMode_outcome server st : endsOrThrows st (healthCheckMode server st).
Proof.
  destruct (Server.initialize server) as [[]|e] eqn:Hi.
  - destruct (Server.getHealth server) as [h|e] eqn:Hh.
    + rewrite (healthCheckMode_report _ _ _ Hi Hh).
      unfold endsOrThrows, healthChecked.
      rewrite !teardowns_app, teardowns_console_log.
      destruct (Server.shutdown server (shutdownCalls st)); cbn;
        (split; [congruence|split; [reflexivity|split; [reflexivity|lia]]]).
    + rewrite (healthCheckMode_no_report _ _ _ Hi Hh). cbn.
      split; [congruence|split; [reflexivity|split; [reflexivity|lia]]].
  - rewrite (healthCheckMode_no_initialize _ _ _ Hi). cbn.
    split; [congruence|split; [reflexivity|split; [reflexivity|lia]]].
Qed.

(** Run mode either installs the two signal handlers and returns, or
    throws from [server.start]; it never tears the server down. *)
Lemma runMode_run v opts cfg server st :
  runMode v opts cfg server st
  = match Server.start server with
    | Returns _ => (Normal tt, listening server st, starting v opts cfg ++ started)
    | Throws e => (Throw e, st, starting v opts cfg)
    end.
Proof.
  unfold runMode, server_start, perform, process_on, when, bind, console_log, logger,
    emit, ret, starting, started, listening.
  destruct (mock opts), (dev opts), (Server.start server) as [[]|e];
    cbn [env signalHandlers shutdownCalls]; rewrite <- ?app_assoc; reflexivity.
Qed.

Lemma teardowns_starting v opts cfg : teardowns (starting v opts cfg) = 0.
Proof. unfold starting. destruct (mock opts), (dev opts); reflexivity. Qed.

Lemma endsOrThrows_bind st (m : M unit) (k : unit -> M unit) :
  endsOrThrows st (m st) -> bind m k st = m st.
Proof.
  unfold endsOrThrows, bind. destruct (m st) as [[[a|e|code] st1] out1]; try reflexivity.
  intros [H _]. exfalso. exact (H a eq_refl).
Qed.

(** The chain of tests in [main] runs the block of one mode: the first in
    the order validate, list-tools, health-check, run whose flag is set. *)
Lemma dispatch_selects W v opts cfg st :
  dispatch W v opts cfg st = execMode W v opts cfg (selectMode opts) st.
Proof.
  unfold dispatch, selectMode, execMode.
  destruct (validate opts); cbn [when].
  - destruct (validateMode_run W opts cfg st) as (out & Hrun & _).
    rewrite (bind_exit _ _ _ _ _ _ Hrun). exact (eq_sym Hrun).
  - rewrite bind_ret.
    destruct (listTools opts); cbn [when].
    + apply bind_ext. intros server st1.
      apply endsOrThrows_bind, listToolsMode_outcome.
    + destruct (healthCheck opts); cbn [when]; apply bind_ext; intros server st1.
      * rewrite bind_ret. apply endsOrThrows_bind, healthCheckMode_outcome.
      * rewrite !bind_ret. reflexivity.
Qed.

(** ** Start-up, in full *)

Lemma silent_app out1 out2 : silent out1 -> silent out2 -> silent (out1 ++ out2).
Proof.
  intros (H1 & H2 & H3) (K1 & K2 & K3). unfold silent.
  rewrite consoleLines_app, teardowns_app, H1, H2, K1, K2, Forall_app. auto.
Qed.

Lemma silent_report out : Forall isStatOrConsoleError out -> silent out.
Proof.
  induction 1 as [|ev out Hev _ IH]; [repeat split; constructor|].
  destruct ev; try contradiction;
    (destruct IH as (H1 & H2 & H3); repeat split; [exact H1 | exact H2 | constructor; auto]).
Qed.

Lemma silent_statCalls opts : silent (statCalls opts).
Proof.
  apply silent_report. unfold statCalls. apply Forall_map, Forall_forall. intros; exact I.
Qed.

Lemma tryCatch_startupFailed (m : M unit) opts st c st1 out1 :
  m st = (c, st1, out1) ->
  match c with
  | Throw _ =>
      exists out2, tryCatch m (startupFailed opts) st = (Exit 1, st1, out1 ++ out2)
                   /\ silent out2
  | _ => tryCatch m (startupFailed opts) st = (c, st1, out1)
  end.
Proof.
  intros H. unfold tryCatch. rewrite H. destruct c as [a|e|code]; try reflexivity.
  destruct (startupFailed_run opts e st1) as (out2 & -> & Hs). eauto.
Qed.

(** Either start-up reaches the mode blocks, or the process exits with
    code 1 without having touched the server. *)
Lemma main_startup_cases W v opts st :
  (exists cfg, reachesDispatch W opts st cfg)
  \/ ((forall cfg, ~ reachesDispatch W opts st cfg)
      /\ exists st' out,
           main W v opts st = (Exit 1, st', out) /\ silent out
           /\ signalHandlers st' = signalHandlers st
           /\ shutdownCalls st' = shutdownCalls st).
Proof.
  pose proof (validateOptions_run W opts st) as Hrun.
  destruct (Nat.eqb (length (checksOf W opts)) 0) eqn:Hvalid.
  - destruct (config_of_env W (normalizedEnv opts (env st))) as [cfg|e] eqn:Hcfg.
    + destruct (config_summary W cfg) as [[]|e] eqn:Hsum.
      * left. exists cfg. split; [|split; assumption].
        eexists _, _, _. split; [exact Hrun | reflexivity].
      * right. split.
        { intros cfg' (_ & Hcfg' & Hsum'). congruence. }
        assert (Hbody : mainBody W v opts st
                        = (Throw e, normalized opts st,
                           statCalls opts ++ [CreateConfig; LogConfigSummaryIfDev])).
        { unfold mainBody. rewrite (bind_run _ _ _ _ _ _ Hrun).
          rewrite (bind_run _ _ _ _ _ _ (reportInvalid_valid {| valid := true; errors := checksOf W opts |} st eq_refl)).
          rewrite (bind_run _ _ _ _ _ _ (setEnvironment_run _ _)).
          unfold bind at 1. unfold createConfig, perform. cbn [env normalized].
          rewrite Hcfg. unfold bind at 1. unfold logConfigSummaryIfDev, perform.
          rewrite Hsum. reflexivity. }
        destruct (tryCatch_startupFailed _ opts _ _ _ _ Hbody) as (out2 & Hmain & Hs).
        eexists _, _. split; [exact Hmain|].
        split; [|split; reflexivity].
        apply silent_app; [|exact Hs].
        apply silent_app; [apply silent_statCalls|].
        repeat split; repeat constructor.
    + right. split.
      { intros cfg' (_ & Hcfg' & _). congruence. }
      assert (Hbody : mainBody W v opts st
                      = (Throw e, normalized opts st, statCalls opts ++ [CreateConfig])).
      { unfold mainBody. rewrite (bind_run _ _ _ _ _ _ Hrun).
        rewrite (bind_run _ _ _ _ _ _ (reportInvalid_valid {| valid := true; errors := checksOf W opts |} st eq_refl)).
        rewrite (bind_run _ _ _ _ _ _ (setEnvironment_run _ _)).
        unfold bind at 1. unfold createConfig, perform. cbn [env normalized].
        rewrite Hcfg. reflexivity. }
      destruct (tryCatch_startupFailed _ opts _ _ _ _ Hbody) as (out2 & Hmain & Hs).
      eexists _, _. split; [exact Hmain|].
      split; [|split; reflexivity].
      apply silent_app; [|exact Hs].
      apply silent_app; [apply silent_statCalls|].
      repeat split; repeat constructor.
  - right. split.
    { intros cfg' ((r & st1 & out1 & Hrun' & Hv') & _).
      rewrite Hrun in Hrun'. inversion Hrun'; subst. discriminate Hv'. }
    assert (Hfails : failsValidation W opts st).
    { eexists _, _, _. split; [exact Hrun | reflexivity]. }
    eexists _, _. split; [exact (main_invalid W v opts st Hfails)|].
    split; [apply silent_report, report_events | split; reflexivity].
Qed.

(** ** Mode selection *)

Lemma statCalls_no_server opts :
  Forall (fun ev => isServerEvent ev = false) (statCalls opts).
Proof. apply silent_statCalls. Qed.

Lemma main_validate W v opts st cfg :
  validate opts = true ->
  reachesDispatch W opts st cfg ->
  exists out,
    main W v opts st = (Exit 0, normalized opts st, out)
    /\ In (ConsoleLog "📋 Configuration Summary:") out
    /\ Forall (fun ev => isServerEvent ev = false) out.
Proof.
  intros Hv Hreach. rewrite (main_run _ _ _ _ _ Hreach).
  destruct (validateMode_run W opts cfg (normalized opts st)) as (out & Hrun & Hin & _ & Hno).
  assert (Hd : dispatch W v opts cfg (normalized opts st)
               = (Exit 0, normalized opts st, out)).
  { rewrite dispatch_selects. unfold selectMode. rewrite Hv. exact Hrun. }
  pose proof (tryCatch_startupFailed _ opts _ _ _ _ Hd) as Ht. cbn in Ht. rewrite Ht.
  eexists. split; [reflexivity|]. split.
  - apply in_or_app. right. exact Hin.
  - unfold startupEvents. rewrite !Forall_app. split; [split|].
    + apply statCalls_no_server.
    + repeat constructor.
    + exact Hno.
Qed.

(** C1. Past start-up (validation passes, the configuration is built),
    [main] runs the block of exactly one mode, [selectMode options]: the
    first of validate, list-tools, health-check, run whose flag is set. A run
    with [validate] set never touches the server, whatever else happens; and
    with [validate] and [listTools] both set it prints the configuration
    summary and exits with code 0. *)
Theorem mode_priority :
  (forall W v opts st cfg,
     reachesDispatch W opts st cfg ->
     main W v opts st
     = (let '(c, st2, out2) :=
          tryCatch (execMode W v opts cfg (selectMode opts)) (startupFailed opts)
            (normalized opts st) in
        (c, st2, startupEvents opts ++ out2)))
  /\ (forall W v opts st,
        validate opts = true ->
        Forall (fun ev => isServerEvent ev = false) (snd (main W v opts st)))
  /\ (forall W v opts st cfg,
        validate opts = true -> listTools opts = true ->
        reachesDispatch W opts st cfg ->
        selectMode opts = ValidateMode
        /\ exists out,
             main W v opts st = (Exit 0, normalized opts st, out)
             /\ In (ConsoleLog "📋 Configuration Summary:") out
             /\ Forall (fun ev => isServerEvent ev = false) out).
Proof.
  split; [|split].
  - intros W v opts st cfg Hreach. rewrite (main_run _ _ _ _ _ Hreach).
    unfold tryCatch. rewrite dispatch_selects. reflexivity.
  - intros W v opts st Hv.
    destruct (main_startup_cases W v opts st)
      as [(cfg & Hreach) | (_ & st' & out & -> & Hs & _)].
    + destruct (main_validate W v opts st cfg Hv Hreach) as (out & -> & _ & Hno).
      exact Hno.
    + apply Hs.
  - intros W v opts st cfg Hv _ Hreach. split.
    + unfold selectMode. rewrite Hv. reflexivity.
    + exact (main_validate W v opts st cfg Hv Hreach).
Qed.

Lemma mode_priority_witness :
  selectMode (Sample.withModes true true false Sample.options) = ValidateMode
  /\ exists out,
       main (Sample.world (Sample.server Sample.noListing (Returns tt))) "1.0.0"
         (Sample.withModes true true false Sample.options) (fresh ∅)
       = (Exit 0, normalized (Sample.withModes true true false Sample.options) (fresh ∅), out)
       /\ In (ConsoleLog "📋 Configuration Summary:") out
       /\ Forall (fun ev => isServerEvent ev = false) out.
Proof.
  apply (proj2 (proj2 mode_priority)
           (Sample.world (Sample.server Sample.noListing (Returns tt))) "1.0.0"
           (Sample.withModes true true false Sample.options) (fresh ∅)
           Sample.configuration); [reflexivity | reflexivity |].
  split; [|split; reflexivity].
  exists {| valid := true; errors := [] |}, (fresh ∅), [StatSync "/work"].
  split; reflexivity.
Defined.

(** ** Health-check mode *)

Lemma reachesDispatch_functional W opts st cfg1 cfg2 :
  reachesDispatch W opts st cfg1 -> reachesDispatch W opts st cfg2 -> cfg1 = cfg2.
Proof. intros (_ & H1 & _) (_ & H2 & _). congruence. Qed.

Lemma main_health W v opts st cfg :
  checksHealth opts ->
  reachesDispatch W opts st cfg ->
  main W v opts st
  = (let '(c, st2, out2) :=
       tryCatch (server <- new_ContainerKitMCPServer W cfg ;; healthCheckMode server)
         (startupFailed opts) (normalized opts st) in
     (c, st2, startupEvents opts ++ out2)).
Proof.
  intros (Hv & Hl & Hh) Hreach. rewrite (main_run _ _ _ _ _ Hreach).
  unfold tryCatch. rewrite dispatch_selects. unfold selectMode.
  rewrite Hv, Hl, Hh. reflexivity.
Qed.

Lemma exited_of_main W v opts st code st' out :
  main W v opts st = (Exit code, st', out) ->
  condition (launch W v opts st) = Exited code.
Proof. intros H. unfold launch. rewrite H. reflexivity. Qed.

Lemma health_check_cases W v opts st :
  checksHealth opts ->
  (healthyRun W opts st /\ condition (launch W v opts st) = Exited 0)
  \/ (~ healthyRun W opts st /\ condition (launch W v opts st) = Exited 1).
Proof.
  intros Hflags.
  destruct (main_startup_cases W v opts st)
    as [(cfg & Hreach) | (Hnot & st' & out & Hmain & _)].
  2:{ right. split; [|exact (exited_of_main _ _ _ _ _ _ _ Hmain)].
      intros (cfg & _ & _ & Hreach & _). exact (Hnot cfg Hreach). }
  pose proof (main_health W v opts st cfg Hflags Hreach) as Hmain.
  assert (Hfail : forall e out1,
             (server <- new_ContainerKitMCPServer W cfg ;; healthCheckMode server)
               (normalized opts st) = (Throw e, normalized opts st, out1) ->
             condition (launch W v opts st) = Exited 1).
  { intros e out1 Hbody.
    destruct (tryCatch_startupFailed _ opts _ _ _ _ Hbody) as (out2 & Ht & _).
    rewrite Ht in Hmain. exact (exited_of_main _ _ _ _ _ _ _ Hmain). }
  destruct (server_of_config W cfg) as [server|e] eqn:Hsrv.
  - destruct (Server.initialize server) as [[]|e] eqn:Hi.
    + destruct (Server.getHealth server) as [report|e] eqn:Hh.
      * assert (Hbody : (server <- new_ContainerKitMCPServer W cfg ;; healthCheckMode server)
                          (normalized opts st)
                        = (afterShutdown (exitCodeOf report)
                             (Server.shutdown server (shutdownCalls st)),
                           called 1 (normalized opts st),
                           NewServer :: healthChecked (healthLines report))).
        { unfold bind, new_ContainerKitMCPServer, perform. rewrite Hsrv.
          rewrite (healthCheckMode_report _ _ _ Hi Hh). reflexivity. }
        destruct (Server.shutdown server (shutdownCalls st)) as [[]|e] eqn:Hs.
        -- pose proof (tryCatch_startupFailed _ opts _ _ _ _ Hbody) as Ht.
           cbn [afterShutdown] in Ht. rewrite Ht in Hmain.
           apply exited_of_main in Hmain. unfold exitCodeOf in Hmain.
           destruct (String.eqb (status report) "healthy") eqn:Hst.
           ++ left. split; [|exact Hmain].
              exists cfg, server, report. apply String.eqb_eq in Hst. auto 10.
           ++ right. split; [|exact Hmain].
              intros (cfg' & server' & report' & Hreach' & Hsrv' & _ & Hh' & Hst' & _).
              rewrite (reachesDispatch_functional _ _ _ _ _ Hreach' Hreach) in Hsrv'.
              assert (server' = server) by congruence. subst server'.
              assert (report' = report) by congruence. subst report'.
              apply String.eqb_neq in Hst. contradiction.
        -- right. split.
           ++ intros (cfg' & server' & report' & Hreach' & Hsrv' & _ & _ & _ & Hs').
              rewrite (reachesDispatch_functional _ _ _ _ _ Hreach' Hreach) in Hsrv'.
              assert (server' = server) by congruence. subst server'. congruence.
           ++ destruct (tryCatch_startupFailed _ opts _ _ _ _ Hbody) as (out2 & Ht & _).
              rewrite Ht in Hmain. exact (exited_of_main _ _ _ _ _ _ _ Hmain).
      * right. split.
        -- intros (cfg' & server' & report' & Hreach' & Hsrv' & _ & Hh' & _).
           rewrite (reachesDispatch_functional _ _ _ _ _ Hreach' Hreach) in Hsrv'.
           assert (server' = server) by congruence. subst server'. congruence.
        -- eapply Hfail. unfold bind, new_ContainerKitMCPServer, perform. rewrite Hsrv.
           rewrite (healthCheckMode_no_report _ _ _ Hi Hh). reflexivity.
    + right. split.
      * intros (cfg' & server' & report' & Hreach' & Hsrv' & Hi' & _).
        rewrite (reachesDispatch_functional _ _ _ _ _ Hreach' Hreach) in Hsrv'.
        assert (server' = server) by congruence. subst server'. congruence.
      * eapply Hfail. unfold bind, new_ContainerKitMCPServer, perform. rewrite Hsrv.
        rewrite (healthCheckMode_no_initialize _ _ _ Hi). reflexivity.
  - right. split.
    + intros (cfg' & server' & report' & Hreach' & Hsrv' & _).
      rewrite (reachesDispatch_functional _ _ _ _ _ Hreach' Hreach) in Hsrv'. congruence.
    + eapply Hfail. unfold bind, new_ContainerKitMCPServer, perform. rewrite Hsrv.
      reflexivity.
Qed.

(** C2, as the code has it. In health-check mode the process exits with
    code 0 or 1; the code is 0 exactly when nothing failed on the way and
    the report is healthy: start-up reached the mode blocks, the server was
    constructed and initialized, [getHealth] returned a report whose status
    is ["healthy"], and [server.shutdown] returned. In every other case,
    a throwing [initialize], [getHealth] or [shutdown] among them, it is 1. *)
Theorem health_check_exit_code :
  forall (W : World) (v : string) (opts : Options) (st : State),
    checksHealth opts ->
    exists code,
      condition (launch W v opts st) = Exited code
      /\ (code = 0 \/ code = 1)%Z
      /\ (code = 0%Z <-> healthyRun W opts st).
Proof.
  intros W v opts st Hflags.
  destruct (health_check_cases W v opts st Hflags) as [[Hrun Hexit] | [Hrun Hexit]].
  - exists 0%Z. split; [exact Hexit|]. split; [left; reflexivity|]. tauto.
  - exists 1%Z. split; [exact Hexit|]. split; [right; reflexivity|].
    split; [discriminate | contradiction].
Qed.

Lemma health_check_exit_code_witness :
  exists code,
    condition (launch (Sample.world (Sample.server Sample.noListing (Returns tt))) "1.0.0"
                 (Sample.withModes false false true Sample.options) (fresh ∅))
    = Exited code
    /\ (code = 0 \/ code = 1)%Z
    /\ (code = 0%Z
        <-> healthyRun (Sample.world (Sample.server Sample.noListing (Returns tt)))
              (Sample.withModes false false true Sample.options) (fresh ∅)).
Proof.
  apply (health_check_exit_code
           (Sample.world (Sample.server Sample.noListing (Returns tt))) "1.0.0"
           (Sample.withModes false false true Sample.options) (fresh ∅)).
  repeat split; reflexivity.
Defined.

(** C2, as stated, fails: a healthy report does not give exit code 0 when
    [server.shutdown] throws after it; the error reaches the outer [catch]
    and the process exits with code 1. *)
Lemma exit_code_follows_status_fails : ~ exit_code_follows_status.
Proof.
  intros H.
  specialize (H (Sample.world (Sample.server Sample.noListing (Throws Sample.failure)))
                "1.0.0" (Sample.withModes false false true Sample.options) ∅
                Sample.configuration
                (Sample.server Sample.noListing (Throws Sample.failure))
                Sample.healthy).
  destruct H as [_ H]; try reflexivity.
  - repeat split; reflexivity.
  - split; [|split; reflexivity].
    exists {| valid := true; errors := [] |}, (fresh ∅), [StatSync "/work"].
    split; reflexivity.
  - specialize (H eq_refl). vm_compute in H. discriminate H.
Qed.

(** ** Grouping the tools *)

Lemma existsb_eqb_In (x : string) l : existsb (String.eqb x) l = true <-> In x l.
Proof.
  rewrite existsb_exists. split.
  - intros (y & Hy & Heq). apply String.eqb_eq in Heq. subst. exact Hy.
  - intros H. exists x. split; [exact H | apply String.eqb_refl].
Qed.

Lemma existsb_eqb_not_In (x : string) l : existsb (String.eqb x) l = false <-> ~ In x l.
Proof.
  rewrite <- existsb_eqb_In. destruct (existsb (String.eqb x) l); split; congruence.
Qed.

Lemma In_firstSeen x l : In x (firstSeen l) <-> In x l.
Proof.
  induction l as [|a l IH]; [reflexivity|].
  cbn [firstSeen]. cbn [In]. rewrite List.filter_In, IH.
  destruct (String.eqb a x) eqn:E.
  - apply String.eqb_eq in E. subst. tauto.
  - cbn. apply String.eqb_neq in E. tauto.
Qed.

Lemma NoDup_firstSeen l : List.NoDup (firstSeen l).
Proof.
  induction l as [|a l IH]; [constructor|].
  cbn [firstSeen]. constructor.
  - rewrite List.filter_In, String.eqb_refl. cbn. intros [_ H]. discriminate H.
  - apply List.NoDup_filter, IH.
Qed.

Lemma firstSeen_snoc l x :
  firstSeen (l ++ [x])
  = if existsb (String.eqb x) l then firstSeen l else firstSeen l ++ [x].
Proof.
  induction l as [|a l IH]; [reflexivity|].
  cbn [app firstSeen existsb]. rewrite IH.
  destruct (String.eqb x a) eqn:E.
  - apply String.eqb_eq in E. subst a. cbn [orb].
    destruct (existsb (String.eqb x) l); [reflexivity|].
    rewrite List.filter_app. cbn [List.filter]. rewrite String.eqb_refl. cbn [negb].
    rewrite app_nil_r. reflexivity.
  - cbn [orb]. destruct (existsb (String.eqb x) l); [reflexivity|].
    rewrite List.filter_app. cbn [List.filter].
    rewrite String.eqb_sym, E. reflexivity.
Qed.

Lemma own_groups items keys c :
  own (map (groupOf items) keys) c
  = if existsb (String.eqb c) keys
    then Some (List.filter (inCategory c) items) else None.
Proof.
  induction keys as [|k keys IH]; [reflexivity|].
  cbn [map own groupOf existsb]. rewrite (String.eqb_sym c k).
  destruct (String.eqb k c) eqn:E; [|exact IH].
  apply String.eqb_eq in E. subst. reflexivity.
Qed.

Lemma groupOf_snoc_other items tool k :
  k <> categoryOf tool -> groupOf (items ++ [tool]) k = groupOf items k.
Proof.
  intros Hk. unfold groupOf. rewrite List.filter_app. cbn [List.filter].
  unfold inCategory at 2. rewrite (proj2 (String.eqb_neq _ _)) by congruence.
  rewrite app_nil_r. reflexivity.
Qed.

Lemma groups_snoc_other items tool keys :
  ~ In (categoryOf tool) keys ->
  map (groupOf (items ++ [tool])) keys = map (groupOf items) keys.
Proof.
  intros Hnot. apply map_ext_in. intros k Hk. apply groupOf_snoc_other.
  intros ->. exact (Hnot Hk).
Qed.

Lemma update_groups items tool keys :
  List.NoDup keys ->
  update (map (groupOf items) keys) (categoryOf tool) (fun arr => push arr tool)
  = map (groupOf (items ++ [tool])) keys.
Proof.
  induction 1 as [|k keys Hk Hnd IH]; [reflexivity|].
  cbn [map update groupOf]. destruct (String.eqb k (categoryOf tool)) eqn:E.
  - apply String.eqb_eq in E. subst k. rewrite (groups_snoc_other _ _ _ Hk).
    f_equal. unfold push, groupOf. rewrite List.filter_app. cbn [List.filter].
    unfold inCategory at 3. rewrite String.eqb_refl. reflexivity.
  - rewrite IH. f_equal. apply String.eqb_neq in E.
    symmetry. apply (groupOf_snoc_other items tool k E).
Qed.

Lemma filter_none {A} (f : A -> bool) l :
  (forall x, In x l -> f x = false) -> List.filter f l = [].
Proof.
  induction l as [|a l IH]; [reflexivity|]. intros H. cbn.
  rewrite (H a (or_introl eq_refl)). apply IH. intros x Hx. apply H. right. exact Hx.
Qed.

Lemma groupTool_grouped items tool :
  ownCategory tool ->
  groupTool (grouped items) tool = Returns (grouped (items ++ [tool])).
Proof.
  intros Hown. unfold groupTool, get, grouped.
  rewrite own_groups, map_app. cbn [map]. rewrite firstSeen_snoc.
  destruct (existsb (String.eqb (categoryOf tool)) (firstSeen (map categoryOf items))) eqn:E.
  - assert (E' : existsb (String.eqb (categoryOf tool)) (map categoryOf items) = true).
    { apply existsb_eqb_In. apply In_firstSeen. apply existsb_eqb_In. exact E. }
    rewrite E'. rewrite update_groups by apply NoDup_firstSeen. reflexivity.
  - assert (Hnot : ~ In (categoryOf tool) (map categoryOf items)).
    { rewrite <- In_firstSeen. apply existsb_eqb_not_In. exact E. }
    rewrite (proj2 (existsb_eqb_not_In _ _) Hnot). unfold ownCategory in Hown.
    rewrite Hown. unfold define.
    replace (map (groupOf items) (firstSeen (map categoryOf items)) ++ [(categoryOf tool, [])])
      with (map (groupOf items) (firstSeen (map categoryOf items) ++ [categoryOf tool])).
    2:{ rewrite map_app. cbn [map]. unfold groupOf at 2.
        rewrite filter_none; [reflexivity|].
        intros x Hx. unfold inCategory. apply String.eqb_neq. intros Heq.
        apply Hnot. rewrite <- Heq. apply in_map. exact Hx. }
    rewrite update_groups. 1: reflexivity.
    apply List.NoDup_app; [apply NoDup_firstSeen | repeat constructor; auto |].
    intros x Hx [<-|[]]. apply Hnot. apply In_firstSeen. exact Hx.
Qed.

Lemma reduce_snoc items tool acc :
  reduce (items ++ [tool]) acc
  = match reduce items acc with
    | Returns acc' => groupTool acc' tool
    | Throws e => Throws e
    end.
Proof.
  revert acc. induction items as [|t items IH]; intros acc; cbn [app reduce].
  - destruct (groupTool acc tool); reflexivity.
  - destruct (groupTool acc t); [apply IH | reflexivity].
Qed.

(** When no category names an inherited property, [reduce] returns one
    group per category, in first-seen order, each with its tools in the
    order of the listing. *)
Lemma reduce_grouped items :
  Forall ownCategory items -> reduce items [] = Returns (grouped items).
Proof.
  induction items as [|tool items IH] using rev_ind; [reflexivity|].
  intros H. apply Forall_app in H as [Hitems Htool]. inversion Htool; subst.
  rewrite reduce_snoc, (IH Hitems). apply groupTool_grouped. assumption.
Qed.

(** ** The order of [Object.entries] *)

Lemma insertByIndex_map {V} (g : string -> string * V) k l :
  (forall k', fst (g k') = k') ->
  insertByIndex (g k) (map g l) = map g (insertKey k l).
Proof.
  intros Hg. induction l as [|k' l IH]; [reflexivity|].
  cbn [map insertByIndex insertKey]. rewrite !Hg.
  destruct (indexOf k <=? indexOf k')%N; [reflexivity|].
  rewrite IH. reflexivity.
Qed.

Lemma sortByIndex_map {V} (g : string -> string * V) l :
  (forall k, fst (g k) = k) ->
  sortByIndex (map g l) = map g (sortKeys l).
Proof.
  intros Hg. induction l as [|k l IH]; [reflexivity|].
  cbn [map]. unfold sortByIndex, sortKeys in *. cbn [fold_right].
  rewrite IH. apply insertByIndex_map, Hg.
Qed.

Lemma filter_map_key {V} (g : string -> string * V) (p : string -> bool) l :
  (forall k, fst (g k) = k) ->
  List.filter (fun e => p (fst e)) (map g l) = map g (List.filter p l).
Proof.
  intros Hg. induction l as [|k l IH]; [reflexivity|].
  cbn [map List.filter]. rewrite Hg, IH. destruct (p k); reflexivity.
Qed.

Lemma Object_entries_groups items keys :
  Object_entries (map (groupOf items) keys) = map (groupOf items) (entryOrder keys).
Proof.
  unfold Object_entries, entryOrder.
  rewrite (filter_map_key (groupOf items) isArrayIndex) by reflexivity.
  rewrite (filter_map_key (groupOf items) (fun k => negb (isArrayIndex k))) by reflexivity.
  rewrite sortByIndex_map by reflexivity.
  rewrite map_app. reflexivity.
Qed.

Lemma insertKey_perm k l : Permutation (insertKey k l) (k :: l).
Proof.
  induction l as [|k' l IH]; [apply Permutation_refl|].
  cbn [insertKey]. destruct (indexOf k <=? indexOf k')%N; [apply Permutation_refl|].
  eapply Permutation_trans; [apply perm_skip, IH | apply perm_swap].
Qed.

Lemma sortKeys_perm l : Permutation (sortKeys l) l.
Proof.
  induction l as [|k l IH]; [apply Permutation_refl|].
  unfold sortKeys in *. cbn [fold_right].
  eapply Permutation_trans; [apply insertKey_perm | apply perm_skip, IH].
Qed.

Lemma filter_split_perm {A} (p : A -> bool) l :
  Permutation (List.filter p l ++ List.filter (fun x => negb (p x)) l) l.
Proof.
  induction l as [|a l IH]; [apply Permutation_refl|].
  cbn [List.filter]. destruct (p a); cbn [negb app].
  - apply perm_skip, IH.
  - apply Permutation_sym. apply Permutation_cons_app. apply Permutation_sym, IH.
Qed.

Lemma entryOrder_perm keys : Permutation (entryOrder keys) keys.
Proof.
  unfold entryOrder. eapply Permutation_trans; [|apply (filter_split_perm isArrayIndex)].
  apply Permutation_app_tail, sortKeys_perm.
Qed.

Lemma insertKey_sorted k l : Sorted ascending l -> Sorted ascending (insertKey k l).
Proof.
  induction l as [|k' l IH]; intros Hs.
  - repeat constructor.
  - cbn [insertKey]. destruct (indexOf k <=? indexOf k')%N eqn:E.
    + constructor; [exact Hs|]. constructor. apply N.leb_le. exact E.
    + inversion Hs as [|? ? Hs' Hhd]; subst. constructor; [apply IH, Hs'|].
      apply N.leb_gt in E.
      destruct l as [|k'' l]; cbn [insertKey].
      * constructor. unfold ascending. lia.
      * destruct (indexOf k <=? indexOf k'')%N.
        -- constructor. unfold ascending. lia.
        -- inversion Hhd; subst. constructor. assumption.
Qed.

Lemma sortKeys_sorted l : Sorted ascending (sortKeys l).
Proof.
  induction l as [|k l IH]; [constructor|].
  unfold sortKeys in *. cbn [fold_right]. apply insertKey_sorted, IH.
Qed.

Lemma filter_all {A} (f : A -> bool) l :
  Forall (fun x => f x = true) l -> List.filter f l = l.
Proof.
  induction 1 as [|a l Ha _ IH]; [reflexivity|]. cbn. rewrite Ha, IH. reflexivity.
Qed.

Lemma filter_nothing {A} (f : A -> bool) l :
  Forall (fun x => f x = false) l -> List.filter f l = [].
Proof.
  induction 1 as [|a l Ha _ IH]; [reflexivity|]. cbn. rewrite Ha. exact IH.
Qed.

Lemma entryOrder_no_index keys :
  Forall (fun k => isArrayIndex k = false) keys -> entryOrder keys = keys.
Proof.
  intros H. unfold entryOrder. rewrite (filter_nothing _ _ H).
  cbn [sortKeys fold_right app]. apply filter_all.
  eapply List.Forall_impl; [|exact H]. intros k Hk. cbn beta. rewrite Hk. reflexivity.
Qed.

Lemma sortKeys_indices keys :
  Forall (fun k => isArrayIndex k = true) (sortKeys (List.filter isArrayIndex keys)).
Proof.
  eapply Permutation_Forall; [apply Permutation_sym, sortKeys_perm|].
  induction keys as [|k keys IH]; [constructor|].
  cbn [List.filter]. destruct (isArrayIndex k) eqn:E; [constructor; assumption | exact IH].
Qed.

(** ** Every tool is in one group *)

Lemma flat_map_split {A B} (f g : A -> list B) l :
  Permutation (flat_map (fun x => f x ++ g x) l) (flat_map f l ++ flat_map g l).
Proof.
  induction l as [|a l IH]; [apply Permutation_refl|].
  cbn [flat_map]. rewrite <- !app_assoc. apply Permutation_app_head.
  eapply Permutation_trans; [apply Permutation_app_head, IH|].
  rewrite !app_assoc. apply Permutation_app_tail, Permutation_app_comm.
Qed.

Lemma flat_map_nothing {A B} (l : list A) : flat_map (fun _ => @nil B) l = [].
Proof. induction l; [reflexivity | exact IHl]. Qed.

Lemma only_own_group tool keys :
  List.NoDup keys -> In (categoryOf tool) keys ->
  flat_map (fun c => if inCategory c tool then [tool] else []) keys = [tool].
Proof.
  induction 1 as [|k keys Hk Hnd IH]; intros Hin; [destruct Hin|].
  cbn [flat_map]. unfold inCategory at 1.
  destruct (String.eqb (categoryOf tool) k) eqn:E.
  - apply String.eqb_eq in E. subst k. cbn [app]. f_equal.
    clear IH Hin Hnd. induction keys as [|k' keys IHk]; [reflexivity|].
    cbn [flat_map]. unfold inCategory at 1.
    destruct (String.eqb (categoryOf tool) k') eqn:E'.
    + apply String.eqb_eq in E'. subst k'. exfalso. apply Hk. left. reflexivity.
    + apply IHk. intros H. apply Hk. right. exact H.
  - apply IH. destruct Hin as [Heq|Hin]; [|exact Hin].
    subst k. rewrite String.eqb_refl in E. discriminate E.
Qed.

Lemma groups_cover items keys :
  List.NoDup keys ->
  (forall tool, In tool items -> In (categoryOf tool) keys) ->
  Permutation (flat_map snd (map (groupOf items) keys)) items.
Proof.
  intros Hnd. rewrite flat_map_concat_map, map_map, <- flat_map_concat_map.
  cbn [groupOf snd].
  induction items as [|tool items IH]; intros Hcats.
  - cbn [List.filter]. rewrite flat_map_nothing. apply Permutation_refl.
  - assert (Hsplit : forall c,
               List.filter (inCategory c) (tool :: items)
               = (if inCategory c tool then [tool] else [])
                 ++ List.filter (inCategory c) items).
    { intros c. cbn [List.filter]. destruct (inCategory c tool); reflexivity. }
    rewrite (flat_map_ext _ _ Hsplit).
    eapply Permutation_trans; [apply flat_map_split|].
    rewrite only_own_group; [|exact Hnd|apply Hcats; left; reflexivity].
    apply perm_skip, IH. intros t Ht. apply Hcats. right. exact Ht.
Qed.

Lemma every_tool_grouped_once items :
  Permutation
    (flat_map snd (map (groupOf items) (entryOrder (firstSeen (map categoryOf items)))))
    items.
Proof.
  apply groups_cover.
  - eapply Permutation_NoDup; [apply Permutation_sym, entryOrder_perm|].
    apply NoDup_firstSeen.
  - intros tool Hin.
    eapply Permutation_in; [apply Permutation_sym, entryOrder_perm|].
    apply In_firstSeen, in_map, Hin.
Qed.

(** ** List-tools mode *)

Lemma silent_startupEvents opts : silent (startupEvents opts).
Proof.
  unfold startupEvents. apply silent_app; [apply silent_statCalls|].
  repeat split; repeat constructor.
Qed.

Lemma consoleLines_listed lines : consoleLines (NewServer :: listed lines) = lines.
Proof.
  unfold listed.
  change (consoleLines (map ConsoleLog lines ++ [ServerShutdown]) = lines).
  rewrite consoleLines_app, consoleLines_console_log. apply app_nil_r.
Qed.

Lemma main_listTools W v opts st server listing c st1 out1 :
  listsTools W opts st server listing ->
  listToolsMode server (normalized opts st) = (c, st1, out1) ->
  match c with
  | Throw _ =>
      exists out2,
        main W v opts st = (Exit 1, st1, startupEvents opts ++ (NewServer :: out1) ++ out2)
        /\ silent out2
  | _ => main W v opts st = (c, st1, startupEvents opts ++ NewServer :: out1)
  end.
Proof.
  intros (Hv & Hl & (cfg & Hreach & Hsrv) & _ & _) Hmode.
  rewrite (main_run _ _ _ _ _ Hreach).
  assert (Hd : dispatch W v opts cfg (normalized opts st) = (c, st1, NewServer :: out1)).
  { rewrite dispatch_selects. unfold selectMode. rewrite Hv, Hl.
    unfold execMode, bind, new_ContainerKitMCPServer, perform. rewrite Hsrv, Hmode.
    destruct c; reflexivity. }
  pose proof (tryCatch_startupFailed _ opts _ _ _ _ Hd) as Ht.
  destruct c as [a|e|code].
  - rewrite Ht. reflexivity.
  - destruct Ht as (out2 & -> & Hs). exists out2. split; [reflexivity | exact Hs].
  - rewrite Ht. reflexivity.
Qed.



Lemma listing_lines W v opts st server items :
  listsTools W opts st server {| tools := Some (ArrayOf items) |} ->
  Forall ownCategory items ->
  consoleLines (output (launch W v opts st))
  = listingHead
    ++ flat_map groupLines
         (map (groupOf items) (entryOrder (firstSeen (map categoryOf items))))
    ++ [totalLine items].
Proof.
  intros Hlists Hown.
  pose proof Hlists as (_ & _ & _ & Hi & Hl).
  pose proof (listToolsMode_listing server (normalized opts st) items _ Hi Hl
                (reduce_grouped items Hown)) as Hmode.
  unfold grouped in Hmode. rewrite Object_entries_groups in Hmode.
  pose proof (main_listTools W v opts st server _ _ _ _ Hlists Hmode) as Hmain.
  assert (Hlines : forall out2, silent out2 ->
            consoleLines
              (startupEvents opts
               ++ (NewServer
                   :: listed (listingHead
                              ++ flat_map groupLines
                                   (map (groupOf items)
                                      (entryOrder (firstSeen (map categoryOf items))))
                              ++ [totalLine items])) ++ out2)
            = listingHead
              ++ flat_map groupLines
                   (map (groupOf items) (entryOrder (firstSeen (map categoryOf items))))
              ++ [totalLine items]).
  { intros out2 (Hs & _).
    rewrite consoleLines_app, (proj1 (silent_startupEvents opts)).
    rewrite consoleLines_app, Hs, app_nil_r. apply consoleLines_listed. }
  unfold launch.
  destruct (Server.shutdown server (shutdownCalls (normalized opts st))) as [[]|e];
    cbn [afterShutdown] in Hmain.
  - rewrite Hmain. cbn [settle output app].
    rewrite <- (app_nil_r (NewServer :: _)). apply Hlines.
    repeat split; constructor.
  - destruct Hmain as (out2 & -> & Hs). cbn [settle output app]. apply Hlines, Hs.
Qed.


Lemma listsTools_sample listing :
  listsTools (listingWorld listing) listingOptions (fresh ∅)
    (Sample.server listing (Returns tt)) listing.
Proof.
  split; [reflexivity|]. split; [reflexivity|]. split; [|split; reflexivity].
  exists Sample.configuration. split; [|reflexivity].
  split; [|split; reflexivity].
  exists {| valid := true; errors := [] |}, (fresh ∅), [StatSync "/work"].
  split; reflexivity.
Defined.



Example indexed_listing_order :
  consoleLines (output (launch (listingWorld indexedListing) "1.0.0" listingOptions (fresh ∅)))
  = ["Available tools:";
     String_repeat "═" 60;
     nl +:+ "📁 1";
     "  • tag                       Tag";
     nl +:+ "📁 B";
     "  • scan                      Scan";
     nl +:+ "Total: 2 tools available"].
Proof. vm_compute. reflexivity. Qed.

(** A category that names an inherited property makes the grouping throw;
    the run ends in the start-up failure handler with exit code 1. *)
Example inherited_category_throws :
  condition
    (launch
       (listingWorld
          {| tools := Some (ArrayOf [{| name := "x"; description := "y";
                                         category := Some "constructor" |}]) |})
       "1.0.0" listingOptions (fresh ∅))
  = Exited 1.
Proof. vm_compute. reflexivity. Qed.

(** ** Signals *)

Lemma shutdown_run server signal st :
  exists code out,
    shutdown server signal st = (Exit code, called 1 st, out)
    /\ teardowns out = 1
    /\ (code = 0 \/ code = 1)%Z.
Proof.
  unfold shutdown, tryCatch, bind, server_shutdown, perform, logger, console_log, emit,
    exit, called.
  destruct (Server.shutdown server (shutdownCalls st)) as [[]|e];
    eexists _, _; (split; [reflexivity|split; [reflexivity|auto]]).
Qed.

Lemma launch_of_dispatch W v opts st cfg c st1 out1 :
  reachesDispatch W opts st cfg ->
  dispatch W v opts cfg (normalized opts st) = (c, st1, out1) ->
  exists out2,
    silent out2
    /\ launch W v opts st
       = {| condition := ended c; memory := st1;
            output := startupEvents opts ++ out1 ++ out2 |}.
Proof.
  intros Hreach Hd. unfold launch. rewrite (main_run _ _ _ _ _ Hreach).
  pose proof (tryCatch_startupFailed _ opts _ _ _ _ Hd) as Ht.
  destruct c as [[]|e|code].
  - rewrite Ht. exists []. split; [repeat split; constructor|].
    cbn. rewrite app_nil_r. reflexivity.
  - destruct Ht as (out2 & -> & Hs). exists out2. split; [exact Hs|]. reflexivity.
  - rewrite Ht. exists []. split; [repeat split; constructor|].
    cbn. rewrite app_nil_r. reflexivity.
Qed.

Lemma dispatch_outcome W v opts cfg st :
  signalHandlers st = [] -> shutdownCalls st = 0 ->
  let '(c, st1, out1) := dispatch W v opts cfg st in
  teardowns out1 <= 1
  /\ shutdownCalls st1 = teardowns out1
  /\ match c with
     | Normal _ =>
         teardowns out1 = 0
         /\ exists server, signalHandlers st1 = [(SIGTERM, server); (SIGINT, server)]
     | _ => True
     end.
Proof.
  intros Hh Hn. rewrite dispatch_selects.
  assert (Hends : forall server (m : Server.t -> M unit),
             (forall st0, endsOrThrows st0 (m server st0)) ->
             let '(c, st1, out1) := m server st in
             teardowns (NewServer :: out1) <= 1
             /\ shutdownCalls st1 = teardowns (NewServer :: out1)
             /\ match c with Normal _ => False | _ => True end).
  { intros server m Hm. specialize (Hm st).
    destruct (m server st) as [[c st1] out1]. destruct Hm as (Hc & _ & Hcalls & Hle).
    change (teardowns (NewServer :: out1)) with (teardowns out1).
    split; [exact Hle|]. split; [lia|].
    destruct c as [a| |]; [exact (Hc a eq_refl) | exact I | exact I]. }
  unfold execMode.
  destruct (selectMode opts).
  - destruct (validateMode_run W opts cfg st) as (out & -> & _ & Ht & _).
    rewrite Ht. split; [lia|]. split; [exact Hn | exact I].
  - unfold bind, new_ContainerKitMCPServer, perform.
    destruct (server_of_config W cfg) as [server|e].
    + specialize (Hends server listToolsMode (listToolsMode_outcome server)).
      destruct (listToolsMode server st) as [[c st1] out1].
      destruct Hends as (H1 & H2 & H3).
      destruct c; [destruct H3 | |]; (split; [exact H1|split; [exact H2|exact I]]).
    + cbn. split; [lia|]. split; [exact Hn|exact I].
  - unfold bind, new_ContainerKitMCPServer, perform.
    destruct (server_of_config W cfg) as [server|e].
    + specialize (Hends server healthCheckMode (healthCheckMode_outcome server)).
      destruct (healthCheckMode server st) as [[c st1] out1].
      destruct Hends as (H1 & H2 & H3).
      destruct c; [destruct H3 | |]; (split; [exact H1|split; [exact H2|exact I]]).
    + cbn. split; [lia|]. split; [exact Hn|exact I].
  - unfold bind, new_ContainerKitMCPServer, perform.
    destruct (server_of_config W cfg) as [server|e].
    + rewrite runMode_run.
      destruct (Server.start server) as [[]|e]; cbv beta iota zeta; cbn [app].
      * change (teardowns (NewServer :: ?l)) with (teardowns l).
        rewrite teardowns_app, teardowns_starting. cbn [listening shutdownCalls signalHandlers].
        rewrite Hh, Hn. cbn. split; [lia|]. split; [reflexivity|].
        split; [reflexivity|]. exists server. reflexivity.
      * change (teardowns (NewServer :: ?l)) with (teardowns l).
        rewrite teardowns_starting. split; [lia|]. split; [exact Hn|exact I].
    + cbn. split; [lia|]. split; [exact Hn|exact I].
Qed.

Lemma launch_settled W v opts e : settled (launch W v opts (fresh e)).
Proof.
  destruct (main_startup_cases W v opts (fresh e))
    as [(cfg & Hreach) | (_ & st' & out & Hmain & (_ & Ht & _) & _ & Hn)].
  - pose proof (dispatch_outcome W v opts cfg (normalized opts (fresh e)) eq_refl eq_refl)
      as Hout.
    destruct (dispatch W v opts cfg (normalized opts (fresh e))) as [[c st1] out1] eqn:Hd.
    destruct (launch_of_dispatch _ _ _ _ _ _ _ _ Hreach Hd) as (out2 & (_ & Ht2 & _) & ->).
    destruct Hout as (H1 & H2 & H3).
    unfold settled. cbn [output memory condition].
    rewrite !teardowns_app, (proj1 (proj2 (silent_startupEvents opts))), Ht2.
    rewrite Nat.add_0_r. cbn [plus].
    split; [exact H1|]. split; [exact H2|].
    destruct c; cbn [ended]; [exact H3 | exact I | exact I].
  - unfold launch. rewrite Hmain. unfold settled. cbn [settle output memory condition app].
    rewrite Ht, Hn. cbn. split; [lia|]. split; [reflexivity | exact I].
Qed.

Lemma deliver_ended s p : condition p <> Alive -> deliver s p = p.
Proof.
  intros H. unfold deliver. destruct (condition p); [contradiction | reflexivity..].
Qed.

Lemma deliver_settled s p :
  settled p -> settled (deliver s p) /\ condition (deliver s p) <> Alive.
Proof.
  intros (Hle & Hcalls & Halive). unfold deliver.
  destruct (condition p) eqn:Hc.
  - destruct Halive as (Hzero & server & Hhandlers). rewrite Hhandlers.
    destruct (shutdown_run server (Signal_name s) (memory p))
      as (code & out & Hrun & Ht & _).
    destruct s; cbn [existsb Signal_eqb fst orb runListeners]; rewrite Hc, Hrun;
      cbn [settle runListeners Signal_eqb condition];
      (split; [|discriminate]);
      unfold settled; cbn [output memory condition called shutdownCalls];
      rewrite teardowns_app, Ht, Hzero, Hcalls, Hzero;
      (split; [lia|split; [reflexivity|exact I]]).
  - split; [|rewrite Hc; discriminate].
    split; [exact Hle|]. split; [exact Hcalls|]. rewrite Hc. exact I.
  - split; [|rewrite Hc; discriminate].
    split; [exact Hle|]. split; [exact Hcalls|]. rewrite Hc. exact I.
Qed.

(** C3. Whatever the options and the world, after two termination signals
    delivered in sequence to a process that has run [main], the server's
    [shutdown] was entered at most once in the whole run. The second signal
    changes nothing: the handler of the first has ended the process with
    [process.exit] on either branch, so no handler runs again, and no second
    call reaches the closed server. (Before [main] has installed its
    handlers, at the end of run mode, a signal ends the process without any
    teardown.) *)
Theorem shutdown_at_most_once :
  forall (W : World) (v : string) (opts : Options) (e : gmap string string)
         (s1 s2 : Signal),
    let p1 := deliver s1 (launch W v opts (fresh e)) in
    let p2 := deliver s2 p1 in
    p2 = p1
    /\ condition p1 <> Alive
    /\ teardowns (output p2) <= 1
    /\ shutdownCalls (memory p2) <= 1.
Proof.
  intros W v opts e s1 s2 p1 p2.
  destruct (deliver_settled s1 _ (launch_settled W v opts e)) as [Hs Hdead].
  fold p1 in Hs, Hdead.
  assert (Heq : p2 = p1) by (apply deliver_ended, Hdead).
  rewrite Heq. destruct Hs as (Hle & Hcalls & _).
  split; [reflexivity|]. split; [exact Hdead|]. split; [exact Hle | lia].
Qed.

(** The same bound holds after any number of signals. *)
Lemma teardown_bound_any_signals W v opts e signals :
  teardowns (output (deliverAll signals (launch W v opts (fresh e)))) <= 1.
Proof.
  assert (H : forall p, settled p -> settled (deliverAll signals p)).
  { induction signals as [|s signals IH]; intros p Hp; [exact Hp|].
    cbn [deliverAll fold_left]. apply IH, deliver_settled, Hp. }
  apply (H _ (launch_settled W v opts e)).
Qed.

(** In run mode the first signal tears the server down once and the second
    finds the process gone, even when a second [shutdown] would throw. *)
Example two_signals_in_run_mode :
  let server :=
    {| Server.initialize := Returns tt;
       Server.listTools := Returns Sample.noListing;
       Server.getHealth := Returns Sample.healthy;
       Server.start := Returns tt;
       Server.shutdown := fun n =>
         match n with
         | O => Returns tt
         | S _ => Throws (ErrorObject "server already closed" None)
         end |} in
  let p := launch (Sample.world server) "1.0.0" Sample.options (fresh ∅) in
  condition p = Alive
  /\ condition (deliver SIGINT p) = Exited 0
  /\ deliver SIGTERM (deliver SIGINT p) = deliver SIGINT p
  /\ teardowns (output (deliver SIGTERM (deliver SIGINT p))) = 1.
Proof. vm_compute. repeat split; reflexivity. Qed.

(** ** Error classification *)

Lemma append_cons c (s t : string) : String c s +:+ t = String c (s +:+ t).
Proof. reflexivity. Qed.

Lemma prefix_spec (p s : string) :
  String.prefix p s = true <-> exists rest, s = p +:+ rest.
Proof.
  split.
  - revert s. induction p as [|a p IH]; intros s H.
    + exists s. reflexivity.
    + destruct s as [|b s]; [discriminate H|].
      cbn [String.prefix] in H. destruct (ascii_dec a b) as [->|]; [|discriminate H].
      destruct (IH s H) as (rest & ->). exists rest. reflexivity.
  - intros (rest & ->). apply prefix_append.
Qed.

Lemma String_includes_unfold (s sub : string) :
  String_includes s sub
  = String.prefix sub s
    || match s with
       | EmptyString => false
       | String _ rest => String_includes rest sub
       end.
Proof. destruct s; reflexivity. Qed.

(** [s.includes(sub)] holds exactly when [sub] occurs somewhere in [s]. *)
Lemma String_includes_spec (s sub : string) :
  String_includes s sub = true <-> Substring sub s.
Proof.
  unfold Substring. split.
  - induction s as [|c s IH]; rewrite String_includes_unfold; intros H;
      apply orb_true_iff in H as [H|H].
    + apply prefix_spec in H as (rest & ->). exists EmptyString, rest. reflexivity.
    + discriminate H.
    + apply prefix_spec in H as (rest & ->). exists EmptyString, rest. reflexivity.
    + destruct (IH H) as (before & rest & ->). exists (String c before), rest. reflexivity.
  - intros (before & rest & ->). induction before as [|c before IH].
    + rewrite String_includes_unfold. change (EmptyString +:+ sub +:+ rest) with (sub +:+ rest).
      rewrite prefix_append. reflexivity.
    + rewrite append_cons, String_includes_unfold, IH. apply orb_true_r.
Qed.

Lemma classify_spec c msg : In c (classify msg) <-> Matches c msg.
Proof.
  unfold classify, Matches. rewrite List.filter_In, existsb_exists.
  split.
  - intros (_ & k & Hk & Hinc). exists k. split; [exact Hk|].
    apply String_includes_spec, Hinc.
  - intros (k & Hk & Hsub). split; [destruct c; cbn; auto|].
    exists k. split; [exact Hk|]. apply String_includes_spec, Hsub.
Qed.

Lemma classify_messageFor d p a f :
  classify (messageFor d p a f)
  = (if d then [DockerIssue] else []) ++ (if p then [PortConflict] else [])
    ++ (if a then [PermissionIssue] else []) ++ (if f then [ConfigIssue] else []).
Proof. destruct d, p, a, f; vm_compute; reflexivity. Qed.

Lemma wants_spec wanted c : wants wanted c = true <-> In c wanted.
Proof.
  unfold wants. rewrite existsb_exists. split.
  - intros (c' & Hin & Heq). destruct c, c'; try discriminate Heq; exact Hin.
  - intros H. exists c. split; [exact H | destruct c; reflexivity].
Qed.

Lemma classify_any wanted :
  exists msg, forall c, In c (classify msg) <-> In c wanted.
Proof.
  exists (messageFor (wants wanted DockerIssue) (wants wanted PortConflict)
            (wants wanted PermissionIssue) (wants wanted ConfigIssue)).
  intros c. rewrite classify_messageFor, <- (wants_spec wanted c).
  destruct c;
    destruct (wants wanted DockerIssue), (wants wanted PortConflict),
      (wants wanted PermissionIssue), (wants wanted ConfigIssue);
    cbn; intuition (try discriminate; try congruence).
Qed.


Example port_conflict_output :
  snd (startupFailed Sample.options (ErrorObject "EADDRINUSE: port 3000" None) (fresh ∅))
  = [Logger "error" "Server startup failed";
     ConsoleError "❌ Server startup failed";
     ConsoleError (nl +:+ "🔍 Error: EADDRINUSE: port 3000");
     ConsoleError (nl +:+ "💡 Port already in use:");
     ConsoleError "  • Try a different port: --port <number>";
     ConsoleError "  • Check running processes: lsof -i :<port>";
     ConsoleError "  • Use stdio transport (default) instead of HTTP";
     ConsoleError (nl +:+ "🛠️ Troubleshooting steps:");
     ConsoleError "  1. Run health check: container-kit-mcp --health-check";
     ConsoleError "  2. Validate config: container-kit-mcp --validate";
     ConsoleError "  3. Try mock mode: container-kit-mcp --mock";
     ConsoleError "  4. Enable debug logging: --log-level debug";
     ConsoleError "  5. Check the documentation: docs/TROUBLESHOOTING.md";
     ConsoleError (nl +:+ "💡 For detailed error information, use --dev flag")].
Proof. vm_compute. reflexivity. Qed.

(** * Further properties *)

(** ** The checks of [validateOptions], one by one *)

Lemma logLevel_in_port p : countErrors isLogLevelError (portCheck p) = 0.
Proof. count_check. Qed.
Lemma logLevel_in_workspace W ws : countErrors isLogLevelError (workspaceCheck W ws) = 0.
Proof. count_check. Qed.
Lemma logLevel_in_docker W m ds : countErrors isLogLevelError (dockerSocketCheck W m ds) = 0.
Proof. count_check. Qed.
Lemma logLevel_in_config W cf : countErrors isLogLevelError (configCheck W cf) = 0.
Proof. count_check. Qed.

Lemma workspace_in_logLevel l : countErrors isWorkspaceError (logLevelCheck l) = 0.
Proof. count_check. Qed.
Lemma workspace_in_port p : countErrors isWorkspaceError (portCheck p) = 0.
Proof. count_check. Qed.
Lemma workspace_in_docker W m ds : countErrors isWorkspaceError (dockerSocketCheck W m ds) = 0.
Proof. count_check. Qed.
Lemma workspace_in_config W cf : countErrors isWorkspaceError (configCheck W cf) = 0.
Proof. count_check. Qed.

Lemma config_in_logLevel l : countErrors isConfigError (logLevelCheck l) = 0.
Proof. count_check. Qed.
Lemma config_in_port p : countErrors isConfigError (portCheck p) = 0.
Proof. count_check. Qed.
Lemma config_in_workspace W ws : countErrors isConfigError (workspaceCheck W ws) = 0.
Proof. count_check. Qed.
Lemma config_in_docker W m ds : countErrors isConfigError (dockerSocketCheck W m ds) = 0.
Proof. count_check. Qed.

Lemma countErrors_logLevel W opts :
  countErrors isLogLevelError (checksOf W opts)
  = countErrors isLogLevelError (logLevelCheck (logLevel opts)).
Proof.
  unfold checksOf. rewrite !countErrors_app, logLevel_in_port, logLevel_in_workspace,
    logLevel_in_docker, logLevel_in_config. lia.
Qed.

Lemma countErrors_workspace W opts :
  countErrors isWorkspaceError (checksOf W opts)
  = countErrors isWorkspaceError (workspaceCheck W (workspace opts)).
Proof.
  unfold checksOf. rewrite !countErrors_app, workspace_in_logLevel, workspace_in_port,
    workspace_in_docker, workspace_in_config. lia.
Qed.

Lemma countErrors_config W opts :
  countErrors isConfigError (checksOf W opts)
  = countErrors isConfigError (configCheck W (config opts)).
Proof.
  unfold checksOf. rewrite !countErrors_app, config_in_logLevel, config_in_port,
    config_in_workspace, config_in_docker. lia.
Qed.

Lemma In_checksOf W opts msg :
  In msg (checksOf W opts)
  <-> In msg (logLevelCheck (logLevel opts)) \/ In msg (portCheck (port opts))
      \/ In msg (workspaceCheck W (workspace opts))
      \/ In msg (dockerSocketCheck W (mock opts) (dockerSocket opts))
      \/ In msg (configCheck W (config opts)).
Proof. unfold checksOf. rewrite !in_app_iff. tauto. Qed.

Lemma invalid_of_error W opts msg :
  In msg (checksOf W opts) -> Nat.eqb (length (checksOf W opts)) 0 = false.
Proof. destruct (checksOf W opts); [intros [] | reflexivity]. Qed.

(** X1. A log level that is a non-empty string other than [debug], [info],
    [warn], [error] fails validation with exactly one log-level error, which
    names the level given; one of the four levels, an empty level or none
    gives no log-level error. *)
Theorem log_level_check :
  forall (W : World) (opts : Options) (st st1 : State) r out,
    validateOptions W opts st = (Normal r, st1, out) ->
    (forall level,
       logLevel opts = Some level -> level <> EmptyString ->
       ~ In level ["debug"; "info"; "warn"; "error"] ->
       valid r = false
       /\ countErrors isLogLevelError (errors r) = 1
       /\ In ("Invalid log level: " +:+ level
              +:+ ". Valid options: debug, info, warn, error") (errors r))
    /\ (logLevel opts = None \/ logLevel opts = Some EmptyString
        \/ (exists level, logLevel opts = Some level
                          /\ In level ["debug"; "info"; "warn"; "error"]) ->
        countErrors isLogLevelError (errors r) = 0).
Proof.
  intros W opts st st1 r out Hrun.
  apply validateOptions_inv in Hrun as (Herr & _ & _ & Hvalid).
  rewrite Herr, Hvalid, countErrors_logLevel. split.
  - intros level Hl Hne Hnot.
    assert (Hcheck : logLevelCheck (logLevel opts)
                     = ["Invalid log level: " +:+ level
                        +:+ ". Valid options: debug, info, warn, error"]).
    { rewrite Hl. unfold logLevelCheck, Array_includes, validLogLevels.
      rewrite (proj2 (existsb_eqb_not_In level _) Hnot).
      destruct level; [congruence | reflexivity]. }
    assert (Hin : In ("Invalid log level: " +:+ level
                      +:+ ". Valid options: debug, info, warn, error") (checksOf W opts)).
    { apply In_checksOf. left. rewrite Hcheck. left. reflexivity. }
    split; [exact (invalid_of_error _ _ _ Hin)|]. split; [|exact Hin].
    rewrite Hcheck. apply countErrors_one. reflexivity.
  - intros [-> | [-> | (level & -> & Hin)]]; try reflexivity.
    unfold logLevelCheck, Array_includes, validLogLevels.
    rewrite (proj2 (existsb_eqb_In level _) Hin). rewrite andb_false_r. reflexivity.
Qed.

Lemma log_level_check_witness :
  valid {| valid := false;
           errors := ["Invalid log level: loud. Valid options: debug, info, warn, error"] |}
  = false
  /\ countErrors isLogLevelError
       ["Invalid log level: loud. Valid options: debug, info, warn, error"] = 1
  /\ In "Invalid log level: loud. Valid options: debug, info, warn, error"
       ["Invalid log level: loud. Valid options: debug, info, warn, error"].
Proof.
  refine (proj1 (log_level_check
                   (Sample.world (Sample.server Sample.noListing (Returns tt)))
                   {| config := None; logLevel := Some "loud"; workspace := Some "/work";
                      port := None; host := Some "localhost"; dev := false; mock := true;
                      validate := false; listTools := false; healthCheck := false;
                      dockerSocket := Some "/var/run/docker.sock";
                      k8sNamespace := Some "default" |}
                   (fresh ∅) (fresh ∅) _ [StatSync "/work"] _) "loud" _ _ _).
  - reflexivity.
  - reflexivity.
  - discriminate.
  - cbn. intuition discriminate.
Defined.



(** X3. The workspace check distinguishes its two failures: a path that
    stats as something other than a directory is reported as not being a
    directory, a path whose stat throws as not existing; either way
    validation fails with exactly one workspace error. A directory gives
    none, and an empty or absent workspace is not looked at. *)
Theorem workspace_check :
  forall (W : World) (opts : Options) (st st1 : State) r out,
    validateOptions W opts st = (Normal r, st1, out) ->
    (forall path, guarded (workspace opts) = Some path ->
       match fs_stat W path with
       | Returns stat =>
           if isDirectory stat
           then countErrors isWorkspaceError (errors r) = 0
           else valid r = false
                /\ countErrors isWorkspaceError (errors r) = 1
                /\ In ("Workspace path is not a directory: " +:+ path) (errors r)
       | Throws _ =>
           valid r = false
           /\ countErrors isWorkspaceError (errors r) = 1
           /\ In ("Workspace directory does not exist: " +:+ path) (errors r)
       end)
    /\ (guarded (workspace opts) = None ->
        countErrors isWorkspaceError (errors r) = 0).
Proof.
  intros W opts st st1 r out Hrun.
  apply validateOptions_inv in Hrun as (Herr & _ & _ & Hvalid).
  rewrite Herr, Hvalid, countErrors_workspace.
  assert (Hfails : forall msg rest,
             workspaceCheck W (workspace opts) = ["Workspace " +:+ rest] ->
             msg = "Workspace " +:+ rest ->
             Nat.eqb (length (checksOf W opts)) 0 = false
             /\ countErrors isWorkspaceError (workspaceCheck W (workspace opts)) = 1
             /\ In msg (checksOf W opts)).
  { intros msg rest Hcheck ->.
    assert (Hin : In ("Workspace " +:+ rest) (checksOf W opts)).
    { apply In_checksOf. right. right. left. rewrite Hcheck. left. reflexivity. }
    split; [exact (invalid_of_error _ _ _ Hin)|]. split; [|exact Hin].
    rewrite Hcheck. apply countErrors_one. reflexivity. }
  split.
  - intros path Hpath. unfold workspaceCheck in *. rewrite Hpath in *.
    destruct (fs_stat W path) as [[[|]]|e].
    + reflexivity.
    + apply (Hfails _ ("path is not a directory: " +:+ path)); reflexivity.
    + apply (Hfails _ ("directory does not exist: " +:+ path)); reflexivity.
  - intros Hnone. unfold workspaceCheck. rewrite Hnone. reflexivity.
Qed.

Lemma workspace_check_witness :
  valid {| valid := false;
           errors := ["Workspace directory does not exist: /nonexistent"] |} = false
  /\ countErrors isWorkspaceError ["Workspace directory does not exist: /nonexistent"] = 1
  /\ In "Workspace directory does not exist: /nonexistent"
       ["Workspace directory does not exist: /nonexistent"].
Proof.
  refine (proj1 (workspace_check
                   (Sample.world (Sample.server Sample.noListing (Returns tt)))
                   {| config := None; logLevel := Some "info";
                      workspace := Some "/nonexistent";
                      port := None; host := Some "localhost"; dev := false; mock := true;
                      validate := false; listTools := false; healthCheck := false;
                      dockerSocket := Some "/var/run/docker.sock";
                      k8sNamespace := Some "default" |}
                   (fresh ∅) (fresh ∅) _ [StatSync "/nonexistent"] _) "/nonexistent" _).
  - reflexivity.
  - reflexivity.
Defined.

(** X4. A configuration file that is given and whose stat throws fails
    validation with exactly one configuration error naming the path; a file
    that stats, of whatever kind, and an absent or empty [config] give
    none. *)
Theorem config_check :
  forall (W : World) (opts : Options) (st st1 : State) r out,
    validateOptions W opts st = (Normal r, st1, out) ->
    (forall path, guarded (config opts) = Some path ->
       match fs_stat W path with
       | Returns _ => countErrors isConfigError (errors r) = 0
       | Throws _ =>
           valid r = false
           /\ countErrors isConfigError (errors r) = 1
           /\ In ("Configuration file not found: " +:+ path) (errors r)
       end)
    /\ (guarded (config opts) = None ->
        countErrors isConfigError (errors r) = 0).
Proof.
  intros W opts st st1 r out Hrun.
  apply validateOptions_inv in Hrun as (Herr & _ & _ & Hvalid).
  rewrite Herr, Hvalid, countErrors_config. split.
  - intros path Hpath. unfold configCheck in *. rewrite Hpath in *.
    destruct (fs_stat W path) as [stat|e] eqn:Hstat; [reflexivity|].
    assert (Hin : In ("Configuration file not found: " +:+ path) (checksOf W opts)).
    { apply In_checksOf. do 4 right. unfold configCheck. rewrite Hpath, Hstat.
      left. reflexivity. }
    split; [exact (invalid_of_error _ _ _ Hin)|]. split; [|exact Hin].
    apply countErrors_one. reflexivity.
  - intros Hnone. unfold configCheck. rewrite Hnone. reflexivity.
Qed.

Lemma config_check_witness :
  valid {| valid := false;
           errors := ["Configuration file not found: /etc/missing.env"] |} = false
  /\ countErrors isConfigError ["Configuration file not found: /etc/missing.env"] = 1
  /\ In "Configuration file not found: /etc/missing.env"
       ["Configuration file not found: /etc/missing.env"].
Proof.
  refine (proj1 (config_check
                   (Sample.world (Sample.server Sample.noListing (Returns tt)))
                   {| config := Some "/etc/missing.env"; logLevel := Some "info";
                      workspace := Some "/work";
                      port := None; host := Some "localhost"; dev := false; mock := true;
                      validate := false; listTools := false; healthCheck := false;
                      dockerSocket := Some "/var/run/docker.sock";
                      k8sNamespace := Some "default" |}
                   (fresh ∅) (fresh ∅) _ [StatSync "/work"; StatSync "/etc/missing.env"] _)
            "/etc/missing.env" _).
  - reflexivity.
  - reflexivity.
Defined.

(** *** The report as a whole *)

Lemma kindsOf_checks W opts : Forall (fun msg => kindsOf msg = 1) (checksOf W opts).
Proof.
  unfold checksOf. rewrite !Forall_app.
  repeat split.
  - unfold logLevelCheck.
    destruct (truthy (logLevel opts) && negb (Array_includes validLogLevels (logLevel opts)));
      repeat constructor.
    unfold kindsOf, isLogLevelError. rewrite prefix_append. reflexivity.
  - unfold portCheck. destruct (guarded (port opts)) as [n|]; [|constructor].
    destruct (lt n 1 || gt n 65535); repeat constructor.
    unfold kindsOf, isPortError. rewrite prefix_append. reflexivity.
  - unfold workspaceCheck. destruct (guarded (workspace opts)) as [path|]; [|constructor].
    destruct (fs_stat W path) as [[[|]]|e]; repeat constructor.
  - unfold dockerSocketCheck. destruct (mock opts); [constructor|].
    destruct (guarded (dockerSocket opts)) as [path|]; [|constructor].
    destruct (fs_stat W path); repeat constructor.
    unfold kindsOf, isDockerSocketError. rewrite prefix_append. reflexivity.
  - unfold configCheck. destruct (guarded (config opts)) as [path|]; [|constructor].
    destruct (fs_stat W path); repeat constructor.
    unfold kindsOf, isConfigError. rewrite prefix_append. reflexivity.
Qed.

Lemma length_checks W opts : length (checksOf W opts) <= 5.
Proof.
  unfold checksOf. rewrite !length_app.
  assert (length (logLevelCheck (logLevel opts)) <= 1).
  { unfold logLevelCheck. destruct (_ && _); cbn; lia. }
  assert (length (portCheck (port opts)) <= 1).
  { unfold portCheck. destruct (guarded _) as [n|]; [destruct (_ || _)|]; cbn; lia. }
  assert (length (workspaceCheck W (workspace opts)) <= 1).
  { unfold workspaceCheck. destruct (guarded _) as [p|];
      [destruct (fs_stat W p) as [[[|]]|]|]; cbn; lia. }
  assert (length (dockerSocketCheck W (mock opts) (dockerSocket opts)) <= 1).
  { unfold dockerSocketCheck. destruct (mock opts); [cbn; lia|].
    destruct (guarded _) as [p|]; [destruct (fs_stat W p)|]; cbn; lia. }
  assert (length (configCheck W (config opts)) <= 1).
  { unfold configCheck. destruct (guarded _) as [p|]; [destruct (fs_stat W p)|]; cbn; lia. }
  lia.
Qed.

(** X5. Whatever the options and the file system, the report of
    [validateOptions] has at most five messages, each of exactly one of the
    five kinds (log level, port, workspace, Docker socket, configuration
    file), told apart by how the message starts; and it calls [statSync] at
    most three times. *)
Theorem validation_report_shape :
  forall (W : World) (opts : Options) (st : State),
    exists r,
      validateOptions W opts st = (Normal r, st, statCalls opts)
      /\ length (errors r) <= 5
      /\ Forall (fun msg => kindsOf msg = 1) (errors r)
      /\ length (statCalls opts) <= 3.
Proof.
  intros W opts st. eexists. split; [apply validateOptions_run|].
  cbn [errors]. split; [apply length_checks|]. split; [apply kindsOf_checks|].
  unfold statCalls, pathChecked. rewrite length_map, !length_app.
  destruct (guarded (workspace opts)), (mock opts), (guarded (dockerSocket opts)),
    (guarded (config opts)); cbn; lia.
Qed.

(** ** The environment variables *)

Lemma keepsEnv_ret {A} (a : A) : keepsEnv (ret a).
Proof. intros st. reflexivity. Qed.

Lemma keepsEnv_emit ev : keepsEnv (emit ev).
Proof. intros st. reflexivity. Qed.

Lemma keepsEnv_exit code : keepsEnv (exit code).
Proof. intros st. reflexivity. Qed.

Lemma keepsEnv_perform {A} ev (r : Try A) : keepsEnv (perform ev r).
Proof. intros st. unfold perform. destruct r; reflexivity. Qed.

Lemma keepsEnv_getenv key : keepsEnv (getenv key).
Proof. intros st. reflexivity. Qed.

Lemma keepsEnv_bind {A B} (m : M A) (k : A -> M B) :
  keepsEnv m -> (forall a, keepsEnv (k a)) -> keepsEnv (bind m k).
Proof.
  intros Hm Hk st. unfold bind. specialize (Hm st).
  destruct (m st) as [[[a|e|code] st1] out1]; cbn [fst snd] in *; try exact Hm.
  specialize (Hk a st1). destruct (k a st1) as [[c st2] out2]. cbn [fst snd] in *.
  congruence.
Qed.

Lemma keepsEnv_tryCatch {A} (m : M A) (h : Thrown -> M A) :
  keepsEnv m -> (forall e, keepsEnv (h e)) -> keepsEnv (tryCatch m h).
Proof.
  intros Hm Hh st. unfold tryCatch. specialize (Hm st).
  destruct (m st) as [[[a|e|code] st1] out1]; cbn [fst snd] in *; try exact Hm.
  specialize (Hh e st1). destruct (h e st1) as [[c st2] out2]. cbn [fst snd] in *.
  congruence.
Qed.

Lemma keepsEnv_when b (m : M unit) : keepsEnv m -> keepsEnv (when b m).
Proof. intros H. destruct b; [exact H | apply keepsEnv_ret]. Qed.

Lemma keepsEnv_forEach {A} (l : list A) (f : A -> M unit) :
  (forall x, keepsEnv (f x)) -> keepsEnv (forEach l f).
Proof.
  intros H. induction l as [|x l IH]; [apply keepsEnv_ret|].
  cbn [forEach]. apply keepsEnv_bind; [apply H | intros _; exact IH].
Qed.

Lemma keepsEnv_server_shutdown server : keepsEnv (server_shutdown server).
Proof.
  intros st. unfold server_shutdown, perform.
  destruct (Server.shutdown server (shutdownCalls st)); reflexivity.
Qed.

Lemma keepsEnv_process_on s server : keepsEnv (process_on s server).
Proof. intros st. reflexivity. Qed.

Lemma keepsEnv_createConfig W : keepsEnv (createConfig W).
Proof.
  intros st. unfold createConfig, perform. destruct (config_of_env W (env st)); reflexivity.
Qed.

Create HintDb js_env.
#[local] Hint Resolve keepsEnv_ret keepsEnv_emit keepsEnv_exit keepsEnv_perform keepsEnv_getenv
  keepsEnv_when keepsEnv_server_shutdown keepsEnv_process_on keepsEnv_createConfig : js_env.

Ltac keeps_env :=
  repeat first
    [ solve [auto with js_env]
    | apply keepsEnv_bind; [|intros ?]
    | apply keepsEnv_tryCatch; [|intros ?]
    | apply keepsEnv_forEach; intros ?
    | apply keepsEnv_when
    | progress auto with js_env
    | match goal with
      | |- keepsEnv (match ?x with _ => _ end) => destruct x
      | |- keepsEnv (if ?x then _ else _) => destruct x
      end ].

Lemma keepsEnv_validateMode W opts cfg : keepsEnv (validateMode W opts cfg).
Proof. unfold validateMode, console_log, logger, execSync. keeps_env. Qed.

Lemma keepsEnv_listToolsMode server : keepsEnv (listToolsMode server).
Proof.
  unfold listToolsMode, printGroup, console_log, logger, server_initialize,
    server_listTools.
  keeps_env. intros st. reflexivity.
Qed.

Lemma keepsEnv_healthCheckMode server : keepsEnv (healthCheckMode server).
Proof.
  unfold healthCheckMode, console_log, logger, server_initialize, server_getHealth.
  keeps_env.
Qed.

Lemma keepsEnv_runMode v opts cfg server : keepsEnv (runMode v opts cfg server).
Proof. unfold runMode, console_log, logger, server_start. keeps_env. Qed.

#[local] Hint Resolve keepsEnv_validateMode keepsEnv_listToolsMode keepsEnv_healthCheckMode
  keepsEnv_runMode : js_env.

Lemma keepsEnv_dispatch W v opts cfg : keepsEnv (dispatch W v opts cfg).
Proof. unfold dispatch, new_ContainerKitMCPServer. keeps_env. Qed.

Lemma keepsEnv_startupFailed opts e : keepsEnv (startupFailed opts e).
Proof.
  unfold startupFailed, dockerGuidance, portGuidance, permissionGuidance, configGuidance,
    troubleshootingSteps, console_error, logger.
  keeps_env.
Qed.

Lemma keepsEnv_shutdown server signal : keepsEnv (shutdown server signal).
Proof. unfold shutdown, console_log, logger. keeps_env. Qed.

#[local] Hint Resolve keepsEnv_dispatch : js_env.

Lemma main_env W v opts st :
  passesValidation W opts st ->
  env (snd (fst (main W v opts st))) = normalizedEnv opts (env st).
Proof.
  intros (r & st1 & out1 & Hrun & Hvalid).
  destruct (validateOptions_inv _ _ _ _ _ _ Hrun) as (_ & -> & -> & _).
  unfold main, tryCatch, mainBody.
  rewrite (bind_run _ _ _ _ _ _ Hrun).
  rewrite (bind_run _ _ _ _ _ _ (reportInvalid_valid _ _ Hvalid)).
  rewrite (bind_run _ _ _ _ _ _ (setEnvironment_run _ _)).
  match goal with
  | |- context [bind (createConfig W) ?k (normalized opts st)] =>
      assert (Hrest : keepsEnv (bind (createConfig W) k))
        by (unfold logConfigSummaryIfDev; keeps_env);
      specialize (Hrest (normalized opts st));
      destruct (bind (createConfig W) k (normalized opts st)) as [[[a|e|code] st2] out2]
  end; cbn [fst snd env normalized] in *; try exact Hrest.
  pose proof (keepsEnv_startupFailed opts e st2) as Hh.
  destruct (startupFailed opts e st2) as [[c st3] out3]. cbn [fst snd] in *. congruence.
Qed.

Lemma settle_memory what label before r :
  memory (settle what label before r) = snd (fst r).
Proof. destruct r as [[[a|e|code] st] out]; reflexivity. Qed.

Lemma runListeners_env listeners s p :
  env (memory (runListeners listeners s p)) = env (memory p).
Proof.
  revert p. induction listeners as [|[s' server] listeners IH]; intros p; [reflexivity|].
  cbn [runListeners]. destruct (Signal_eqb s' s); [|apply IH].
  destruct (condition p); try reflexivity.
  rewrite IH, settle_memory. apply keepsEnv_shutdown.
Qed.

Lemma deliver_env s p : env (memory (deliver s p)) = env (memory p).
Proof.
  unfold deliver. destruct (condition p); try reflexivity.
  destruct (existsb _ _); [apply runListeners_env | reflexivity].
Qed.

Lemma deliverAll_env signals p : env (memory (deliverAll signals p)) = env (memory p).
Proof.
  revert p. induction signals as [|s signals IH]; intros p; [reflexivity|].
  cbn [deliverAll fold_left]. rewrite IH. apply deliver_env.
Qed.

Lemma lookup_assigned key value (e : gmap string string) k :
  assigned key value e !! k
  = if String.eqb key k then overridden value (e !! k) else e !! k.
Proof.
  unfold assigned, overridden. destruct (String.eqb_spec key k) as [->|Hne].
  - destruct (guarded value); [apply lookup_insert_eq | reflexivity].
  - destruct (guarded value); [apply lookup_insert_ne, Hne | reflexivity].
Qed.

Lemma lookup_flag key value (b : bool) (e : gmap string string) k :
  (if b then <[key := value]> e else e) !! k
  = if String.eqb key k then (if b then Some value else e !! k) else e !! k.
Proof.
  destruct (String.eqb_spec key k) as [->|Hne]; destruct b; try reflexivity.
  - apply lookup_insert_eq.
  - apply lookup_insert_ne, Hne.
Qed.

Lemma lookup_normalizedEnv opts (e : gmap string string) k :
  normalizedEnv opts e !! k
  = if String.eqb "MOCK_MODE" k then (if mock opts then Some "true" else e !! k)
    else if String.eqb "NODE_ENV" k then (if dev opts then Some "development" else e !! k)
    else if String.eqb "K8S_NAMESPACE" k then overridden (k8sNamespace opts) (e !! k)
    else if String.eqb "DOCKER_SOCKET" k then overridden (dockerSocket opts) (e !! k)
    else if String.eqb "WORKSPACE_DIR" k then overridden (workspace opts) (e !! k)
    else if String.eqb "LOG_LEVEL" k then overridden (logLevel opts) (e !! k)
    else e !! k.
Proof.
  unfold normalizedEnv. rewrite !lookup_flag, !lookup_assigned.
  destruct (String.eqb_spec "MOCK_MODE" k) as [<-|]; [reflexivity|].
  destruct (String.eqb_spec "NODE_ENV" k) as [<-|]; [reflexivity|].
  destruct (String.eqb_spec "K8S_NAMESPACE" k) as [<-|]; [reflexivity|].
  destruct (String.eqb_spec "DOCKER_SOCKET" k) as [<-|]; [reflexivity|].
  destruct (String.eqb_spec "WORKSPACE_DIR" k) as [<-|]; reflexivity.
Qed.

(** X6. On every run that passes validation, whatever happens afterwards
    (a throwing collaborator, any mode, any signals), the environment of the
    process is the one it started with except for the six variables of
    lines 138-143: [LOG_LEVEL], [WORKSPACE_DIR], [DOCKER_SOCKET] and
    [K8S_NAMESPACE] hold the option when it is a non-empty string and keep
    their value otherwise, [NODE_ENV] is ["development"] with [--dev] and
    [MOCK_MODE] is ["true"] with [--mock], each kept as it was without the
    flag. Every other variable keeps its value, and no mode block and no
    signal handler changes any of them afterwards. *)
Theorem environment_after_startup :
  forall (W : World) (v : string) (opts : Options) (st : State) (signals : list Signal),
    passesValidation W opts st ->
    let before := env st in
    let after := env (memory (deliverAll signals (launch W v opts st))) in
    after !! "LOG_LEVEL" = overridden (logLevel opts) (before !! "LOG_LEVEL")
    /\ after !! "WORKSPACE_DIR" = overridden (workspace opts) (before !! "WORKSPACE_DIR")
    /\ after !! "DOCKER_SOCKET" = overridden (dockerSocket opts) (before !! "DOCKER_SOCKET")
    /\ after !! "K8S_NAMESPACE" = overridden (k8sNamespace opts) (before !! "K8S_NAMESPACE")
    /\ after !! "NODE_ENV"
       = (if dev opts then Some "development" else before !! "NODE_ENV")
    /\ after !! "MOCK_MODE" = (if mock opts then Some "true" else before !! "MOCK_MODE")
    /\ (forall key, ~ In key normalizedKeys -> after !! key = before !! key).
Proof.
  intros W v opts st signals Hpass before after.
  assert (Hafter : after = normalizedEnv opts before).
  { unfold after, launch. rewrite deliverAll_env, settle_memory. apply main_env, Hpass. }
  rewrite Hafter. repeat split; try (rewrite lookup_normalizedEnv; reflexivity).
  intros key Hkey. rewrite lookup_normalizedEnv.
  repeat match goal with
         | |- context [String.eqb ?a key] =>
             destruct (String.eqb_spec a key) as [<-|];
             [exfalso; apply Hkey; cbn; tauto|]
         end.
  reflexivity.
Qed.

Lemma environment_after_startup_witness :
  let after :=
    env (memory (deliverAll [SIGINT; SIGTERM]
                   (launch (Sample.world (Sample.server Sample.noListing (Returns tt)))
                      "1.0.0" Sample.options (fresh {["LOG_LEVEL" := "debug"]})))) in
  after !! "LOG_LEVEL" = Some "info"
  /\ after !! "WORKSPACE_DIR" = Some "/work"
  /\ after !! "DOCKER_SOCKET" = Some "/var/run/docker.sock"
  /\ after !! "K8S_NAMESPACE" = Some "default"
  /\ after !! "NODE_ENV" = None
  /\ after !! "MOCK_MODE" = Some "true"
  /\ (forall key, ~ In key normalizedKeys ->
      after !! key = ({["LOG_LEVEL" := "debug"]} : gmap string string) !! key).
Proof.
  assert (Hpass : passesValidation
                    (Sample.world (Sample.server Sample.noListing (Returns tt)))
                    Sample.options (fresh {["LOG_LEVEL" := "debug"]})).
  { exists {| valid := true; errors := [] |}, (fresh {["LOG_LEVEL" := "debug"]}),
      [StatSync "/work"].
    split; reflexivity. }
  exact (environment_after_startup
           (Sample.world (Sample.server Sample.noListing (Returns tt))) "1.0.0"
           Sample.options (fresh {["LOG_LEVEL" := "debug"]}) [SIGINT; SIGTERM] Hpass).
Defined.

(** ** Validate mode *)

Lemma validateMode_events W opts cfg st :
  validateMode W opts cfg st
  = (Exit 0, st,
     map ConsoleLog (summaryLines cfg (env st))
     ++ (if mock opts then [] else dockerProbe W)
     ++ kubernetesProbe W ++ validateClosing).
Proof.
  unfold validateMode, when, tryCatch, execSync, perform, bind, getenv, console_log,
    logger, emit, exit, ret, dockerProbe, kubernetesProbe, probe, validateClosing,
    summaryLines.
  destruct (mock opts); cbn [negb];
    destruct (child_process W "kubectl version --client=true");
    try destruct (child_process W "docker version"); reflexivity.
Qed.

Lemma launch_validate W v opts st cfg :
  validate opts = true ->
  reachesDispatch W opts st cfg ->
  launch W v opts st
  = {| condition := Exited 0;
       memory := normalized opts st;
       output := startupEvents opts
                 ++ map ConsoleLog (summaryLines cfg (normalizedEnv opts (env st)))
                 ++ (if mock opts then [] else dockerProbe W)
                 ++ kubernetesProbe W ++ validateClosing |}.
Proof.
  intros Hv Hreach.
  assert (Hd : dispatch W v opts cfg (normalized opts st)
               = (Exit 0, normalized opts st,
                  map ConsoleLog (summaryLines cfg (normalizedEnv opts (env st)))
                  ++ (if mock opts then [] else dockerProbe W)
                  ++ kubernetesProbe W ++ validateClosing)).
  { rewrite dispatch_selects. unfold selectMode. rewrite Hv. apply validateMode_events. }
  destruct (launch_of_dispatch _ _ _ _ _ _ _ _ Hreach Hd) as (out2 & _ & Hl).
  unfold launch in *. rewrite (main_run _ _ _ _ _ Hreach).
  pose proof (tryCatch_startupFailed _ opts _ _ _ _ Hd) as Ht. cbn in Ht. rewrite Ht.
  reflexivity.
Qed.

Lemma validate_lines W v opts st cfg :
  validate opts = true ->
  reachesDispatch W opts st cfg ->
  exists rest,
    consoleLines (output (launch W v opts st))
    = summaryLines cfg (normalizedEnv opts (env st)) ++ rest.
Proof.
  intros Hv Hreach. rewrite (launch_validate _ _ _ _ _ Hv Hreach). cbn [output].
  rewrite !consoleLines_app, (proj1 (silent_startupEvents opts)), consoleLines_console_log.
  eexists. reflexivity.
Qed.

(** X7. The summary of validate mode shows what the flags wrote to the
    environment: a non-empty [--docker-socket] or [--k8s-namespace] is
    printed back as given, whatever the variable held before; [--mock]
    prints the mock mode as enabled and [--dev] the environment as
    development. Without [--mock] the mock mode shown is the one inherited
    from [MOCK_MODE]; the log level and the workspace shown are those of
    the configuration object. *)
Theorem validate_summary_reflects_flags :
  forall (W : World) (v : string) (opts : Options) (st : State) (cfg : Config.t),
    validate opts = true ->
    reachesDispatch W opts st cfg ->
    let lines := consoleLines (output (launch W v opts st)) in
    firstn 8 lines = summaryLines cfg (normalizedEnv opts (env st))
    /\ In ("  • Log Level: " +:+ Config.logLevel (Config.server cfg)) lines
    /\ In ("  • Workspace: " +:+ Config.workspaceDir (Config.workspace cfg)) lines
    /\ (forall path, guarded (dockerSocket opts) = Some path ->
                     In ("  • Docker Socket: " +:+ path) lines)
    /\ (forall namespace, guarded (k8sNamespace opts) = Some namespace ->
                          In ("  • K8s Namespace: " +:+ namespace) lines)
    /\ (mock opts = true -> In "  • Mock Mode: enabled" lines)
    /\ (mock opts = false -> env st !! "MOCK_MODE" = Some "true" ->
        In "  • Mock Mode: enabled" lines)
    /\ (mock opts = false -> env st !! "MOCK_MODE" <> Some "true" ->
        In "  • Mock Mode: disabled" lines)
    /\ (dev opts = true -> In "  • Environment: development" lines).
Proof.
  intros W v opts st cfg Hv Hreach lines.
  destruct (validate_lines W v opts st cfg Hv Hreach) as (rest & Hlines).
  fold lines in Hlines. rewrite Hlines.
  assert (Hguard : forall (value : option string) s,
             guarded value = Some s ->
             forall old fallback, or_else (overridden value old) fallback = s).
  { intros value s Hs old fallback.
    assert (Hts : truthy s = true).
    { unfold guarded in Hs. destruct value as [s'|]; [|discriminate Hs].
      destruct (truthy s') eqn:E; inversion Hs; subst; exact E. }
    unfold overridden. rewrite Hs. unfold or_else, guarded. rewrite Hts. reflexivity. }
  assert (Hin : forall line, In line (summaryLines cfg (normalizedEnv opts (env st))) ->
                             In line (summaryLines cfg (normalizedEnv opts (env st)) ++ rest)).
  { intros line H. apply in_or_app. left. exact H. }
  split; [reflexivity|].
  unfold summaryLines in *. rewrite !lookup_normalizedEnv in *.
  cbn [String.eqb Ascii.eqb Bool.eqb] in *.
  split; [apply Hin; cbn; tauto|]. split; [apply Hin; cbn; tauto|].
  split.
  { intros path Hp. apply Hin. rewrite (Hguard _ _ Hp). cbn; tauto. }
  split.
  { intros ns Hn. apply Hin. rewrite (Hguard _ _ Hn). cbn; tauto. }
  split.
  { intros Hm. apply Hin. rewrite Hm. cbn; tauto. }
  split.
  { intros Hm He. apply Hin. rewrite Hm, He. cbn; tauto. }
  split.
  { intros Hm He. apply Hin. rewrite Hm.
    destruct (env st !! "MOCK_MODE") as [value|] eqn:E; [|cbn; tauto].
    destruct (String.eqb_spec value "true") as [->|]; [congruence | cbn; tauto]. }
  intros Hd. apply Hin. rewrite Hd. cbn; tauto.
Qed.

Lemma reachesDispatch_sample opts :
  workspace opts = Some "/work" -> config opts = None -> mock opts = true ->
  logLevel opts = Some "info" -> port opts = None ->
  forall s e, reachesDispatch (Sample.world s) opts (fresh e) Sample.configuration.
Proof.
  intros Hw Hc Hm Hl Hp s e. split; [|split; reflexivity].
  exists {| valid := true; errors := [] |}, (fresh e), [StatSync "/work"].
  rewrite validateOptions_run. unfold checksOf, statCalls.
  rewrite Hw, Hc, Hm, Hl, Hp. split; reflexivity.
Defined.

Lemma validate_summary_reflects_flags_witness :
  let lines :=
    consoleLines
      (output (launch (Sample.world (Sample.server Sample.noListing (Returns tt))) "1.0.0"
                 (Sample.withModes true false false Sample.options)
                 (fresh {["DOCKER_SOCKET" := "/old.sock"]}))) in
  In "  • Docker Socket: /var/run/docker.sock" lines
  /\ In "  • Mock Mode: enabled" lines.
Proof.
  intros lines.
  pose proof (validate_summary_reflects_flags
                (Sample.world (Sample.server Sample.noListing (Returns tt))) "1.0.0"
                (Sample.withModes true false false Sample.options)
                (fresh {["DOCKER_SOCKET" := "/old.sock"]}) Sample.configuration eq_refl
                (reachesDispatch_sample (Sample.withModes true false false Sample.options)
                   eq_refl eq_refl eq_refl eq_refl eq_refl _ _))
    as (_ & _ & _ & Hsocket & _ & Hmock & _).
  split; [exact (Hsocket "/var/run/docker.sock" eq_refl) | exact (Hmock eq_refl)].
Defined.

Lemma commandsRun_app out1 out2 :
  commandsRun (out1 ++ out2) = commandsRun out1 ++ commandsRun out2.
Proof. unfold commandsRun. apply flat_map_app. Qed.

Lemma commandsRun_console_log lines : commandsRun (map ConsoleLog lines) = [].
Proof. induction lines; [reflexivity | exact IHlines]. Qed.

Lemma commandsRun_startupEvents opts : commandsRun (startupEvents opts) = [].
Proof.
  unfold startupEvents, statCalls. rewrite commandsRun_app.
  induction (pathChecked (workspace opts)
             ++ (if mock opts then [] else pathChecked (dockerSocket opts))
             ++ pathChecked (config opts)); [reflexivity | assumption].
Qed.

(** X8. Validate mode exits with code 0 whatever its two connectivity
    probes find. The Docker probe is run exactly when [--mock] is off, the
    [kubectl] probe always and after it, a failed Docker probe included;
    each probe prints the line of its own outcome. Nothing else is run with
    [execSync] and the server is not torn down. *)
Theorem validate_probes_are_informational :
  forall (W : World) (v : string) (opts : Options) (st : State) (cfg : Config.t),
    validate opts = true ->
    reachesDispatch W opts st cfg ->
    let p := launch W v opts st in
    condition p = Exited 0
    /\ commandsRun (output p)
       = (if mock opts then [] else ["docker version"])
         ++ ["kubectl version --client=true"]
    /\ (mock opts = false ->
        In (ConsoleLog
              (match child_process W "docker version" with
               | Returns _ => "  ✅ Docker connection successful"
               | Throws _ =>
                   "  ⚠️  Docker connection failed - consider using --mock for testing"
               end)) (output p))
    /\ In (ConsoleLog
             (match child_process W "kubectl version --client=true" with
              | Returns _ => "  ✅ Kubernetes client available"
              | Throws _ => "  ⚠️  Kubernetes client not found - kubectl not in PATH"
              end)) (output p)
    /\ teardowns (output p) = 0.
Proof.
  intros W v opts st cfg Hv Hreach p. unfold p.
  rewrite (launch_validate _ _ _ _ _ Hv Hreach). cbn [condition output].
  split; [reflexivity|]. split.
  { rewrite !commandsRun_app, commandsRun_startupEvents, commandsRun_console_log.
    destruct (mock opts); reflexivity. }
  split.
  { intros ->. apply in_or_app. right. apply in_or_app. right.
    apply in_or_app. left. cbn. tauto. }
  split.
  { apply in_or_app. right. apply in_or_app. right. apply in_or_app. right.
    apply in_or_app. left. cbn. tauto. }
  rewrite !teardowns_app, (proj1 (proj2 (silent_startupEvents opts))), teardowns_console_log.
  destruct (mock opts); reflexivity.
Qed.

Lemma validate_probes_witness :
  let p := launch (Sample.world (Sample.server Sample.noListing (Returns tt))) "1.0.0"
             (Sample.withModes true false false Sample.options) (fresh ∅) in
  condition p = Exited 0
  /\ commandsRun (output p) = ["kubectl version --client=true"].
Proof.
  intros p.
  pose proof (validate_probes_are_informational
                (Sample.world (Sample.server Sample.noListing (Returns tt))) "1.0.0"
                (Sample.withModes true false false Sample.options) (fresh ∅)
                Sample.configuration eq_refl
                (reachesDispatch_sample (Sample.withModes true false false Sample.options)
                   eq_refl eq_refl eq_refl eq_refl eq_refl _ _))
    as (Hexit & Hrun & _).
  split; [exact Hexit | exact Hrun].
Defined.

(** ** The server, call by call *)

Lemma listToolsMode_no_initialize server st e :
  Server.initialize server = Throws e ->
  listToolsMode server st
  = (Throw e, st, [Logger "info" "Listing available tools"; ServerInitialize]).
Proof.
  intros Hi. unfold listToolsMode, server_initialize, perform, bind.
  rewrite Hi. reflexivity.
Qed.

Lemma listToolsMode_no_answer server st e :
  Server.initialize server = Returns tt ->
  Server.listTools server = Throws e ->
  listToolsMode server st
  = (Throw e, st,
     [Logger "info" "Listing available tools"; ServerInitialize; ServerListTools]).
Proof.
  intros Hi Hl. unfold listToolsMode, server_initialize, server_listTools, perform, bind.
  rewrite Hi, Hl. reflexivity.
Qed.

Lemma listToolsMode_no_groups server st items e :
  Server.initialize server = Returns tt ->
  Server.listTools server = Returns {| tools := Some (ArrayOf items) |} ->
  reduce items [] = Throws e ->
  listToolsMode server st
  = (Throw e, st,
     [Logger "info" "Listing available tools"; ServerInitialize; ServerListTools;
      ConsoleLog "Available tools:"; ConsoleLog (String_repeat "═" 60)]).
Proof.
  intros Hi Hl Hr. unfold listToolsMode, server_initialize, server_listTools, perform, bind.
  rewrite Hi, Hl. cbn [tools console_log emit]. rewrite Hr. reflexivity.
Qed.

Lemma shutdown_events server signal st :
  shutdown server signal st
  = (Exit (match Server.shutdown server (shutdownCalls st) with
           | Returns _ => 0
           | Throws _ => 1
           end),
     called 1 st,
     shutdownEvents signal (Server.shutdown server (shutdownCalls st))).
Proof.
  unfold shutdown, tryCatch, bind, server_shutdown, perform, logger, console_log, emit,
    exit, called, shutdownEvents.
  destruct (Server.shutdown server (shutdownCalls st)) as [[]|e]; reflexivity.
Qed.

Lemma serverCalls_app out1 out2 :
  serverCalls (out1 ++ out2) = serverCalls out1 ++ serverCalls out2.
Proof. apply List.filter_app. Qed.

Lemma serverCalls_silent out : silent out -> serverCalls out = [].
Proof. intros (_ & _ & H). apply filter_nothing, H. Qed.

Lemma serverCalls_console_log lines : serverCalls (map ConsoleLog lines) = [].
Proof. induction lines; [reflexivity | exact IHlines]. Qed.

Lemma serverCalls_listed lines :
  serverCalls (listed lines) = [ServerInitialize; ServerListTools; ServerShutdown].
Proof.
  unfold listed. rewrite !serverCalls_app, serverCalls_console_log. reflexivity.
Qed.

Lemma serverCalls_healthChecked lines :
  serverCalls (healthChecked lines) = [ServerInitialize; ServerGetHealth; ServerShutdown].
Proof.
  unfold healthChecked. rewrite !serverCalls_app, serverCalls_console_log. reflexivity.
Qed.

Lemma serverCalls_starting v opts cfg : serverCalls (starting v opts cfg) = [ServerStart].
Proof. unfold starting. destruct (mock opts), (dev opts); reflexivity. Qed.

(** What a mode block leaves behind: the calls it made on the server, and
    whether it reached [server.shutdown]. *)
Lemma listToolsMode_calls server st :
  let '(c, st1, out) := listToolsMode server st in
  (exists rest, [ServerInitialize; ServerListTools; ServerShutdown] = serverCalls out ++ rest)
  /\ match c with
     | Normal _ => False
     | Exit code => code = 0%Z
     | Throw _ => True
     end.
Proof.
  destruct (Server.initialize server) as [[]|e] eqn:Hi.
  - destruct (Server.listTools server) as [[[[items|]|]]|e] eqn:Hl.
    + destruct (reduce items []) as [acc|e] eqn:Hr.
      * rewrite (listToolsMode_listing _ _ _ _ Hi Hl Hr), serverCalls_listed.
        split; [exists []; reflexivity|].
        destruct (Server.shutdown server (shutdownCalls st)); [reflexivity | exact I].
      * rewrite (listToolsMode_no_groups _ _ _ _ Hi Hl Hr).
        split; [eexists; reflexivity | exact I].
    + rewrite (listToolsMode_no_listing _ _ _ Hi Hl (or_intror eq_refl)), serverCalls_listed.
      split; [exists []; reflexivity|].
      destruct (Server.shutdown server (shutdownCalls st)); [reflexivity | exact I].
    + rewrite (listToolsMode_no_listing _ _ _ Hi Hl (or_introl eq_refl)), serverCalls_listed.
      split; [exists []; reflexivity|].
      destruct (Server.shutdown server (shutdownCalls st)); [reflexivity | exact I].
    + rewrite (listToolsMode_no_answer _ _ _ Hi Hl). split; [eexists; reflexivity | exact I].
  - rewrite (listToolsMode_no_initialize _ _ _ Hi). split; [eexists; reflexivity | exact I].
Qed.

Lemma healthCheckMode_calls server st :
  let '(c, st1, out) := healthCheckMode server st in
  (exists rest,
     [ServerInitialize; ServerGetHealth; ServerShutdown] = serverCalls out ++ rest)
  /\ match c with
     | Normal _ => False
     | Exit code => (code = 0 \/ code = 1)%Z
     | Throw _ => True
     end.
Proof.
  destruct (Server.initialize server) as [[]|e] eqn:Hi.
  - destruct (Server.getHealth server) as [h|e] eqn:Hh.
    + rewrite (healthCheckMode_report _ _ _ Hi Hh), serverCalls_healthChecked.
      split; [exists []; reflexivity|].
      destruct (Server.shutdown server (shutdownCalls st)); [|exact I].
      cbn. unfold exitCodeOf. destruct (String.eqb (status h) "healthy"); auto.
    + rewrite (healthCheckMode_no_report _ _ _ Hi Hh).
      split; [eexists; reflexivity | exact I].
  - rewrite (healthCheckMode_no_initialize _ _ _ Hi).
    split; [eexists; reflexivity | exact I].
Qed.

(** The same for the whole of [dispatch]; a normal completion is that of
    run mode, started. *)
Lemma dispatch_calls W v opts cfg st :
  let '(c, st1, out) := dispatch W v opts cfg st in
  match c with
  | Normal _ =>
      selectMode opts = RunMode
      /\ serverCalls out = [NewServer; ServerStart]
      /\ exists server,
           server_of_config W cfg = Returns server
           /\ Server.start server = Returns tt
           /\ st1 = listening server st
  | Exit code =>
      (code = 0 \/ code = 1)%Z
      /\ (exists rest, protocolOf (selectMode opts) = serverCalls out ++ rest)
  | Throw _ =>
      (exists rest, protocolOf (selectMode opts) = serverCalls out ++ rest)
      /\ ~ (selectMode opts = RunMode
            /\ exists server, server_of_config W cfg = Returns server
                              /\ Server.start server = Returns tt)
  end.
Proof.
  rewrite dispatch_selects. unfold execMode.
  destruct (selectMode opts) eqn:Hmode.
  - rewrite validateMode_events. split; [auto|]. exists [].
    rewrite !serverCalls_app, serverCalls_console_log.
    unfold dockerProbe, kubernetesProbe, probe. destruct (mock opts); reflexivity.
  - unfold bind, new_ContainerKitMCPServer, perform.
    destruct (server_of_config W cfg) as [server|e].
    + pose proof (listToolsMode_calls server st) as H.
      destruct (listToolsMode server st) as [[c st1] out].
      destruct H as ((rest & Hrest) & Hc).
      assert (Hp : exists rest', protocolOf ListToolsMode
                                 = serverCalls ([NewServer] ++ out) ++ rest').
      { exists rest. rewrite serverCalls_app. cbn [protocolOf]. rewrite Hrest. reflexivity. }
      destruct c as [a|e|code]; [destruct Hc | |].
      * split; [exact Hp|]. intros [Hrun _]. discriminate Hrun.
      * split; [left; exact Hc | exact Hp].
    + split; [eexists; reflexivity|]. intros [Hrun _]. discriminate Hrun.
  - unfold bind, new_ContainerKitMCPServer, perform.
    destruct (server_of_config W cfg) as [server|e].
    + pose proof (healthCheckMode_calls server st) as H.
      destruct (healthCheckMode server st) as [[c st1] out].
      destruct H as ((rest & Hrest) & Hc).
      assert (Hp : exists rest', protocolOf HealthCheckMode
                                 = serverCalls ([NewServer] ++ out) ++ rest').
      { exists rest. rewrite serverCalls_app. cbn [protocolOf]. rewrite Hrest. reflexivity. }
      destruct c as [a|e|code]; [destruct Hc | |].
      * split; [exact Hp|]. intros [Hrun _]. discriminate Hrun.
      * split; [exact Hc | exact Hp].
    + split; [eexists; reflexivity|]. intros [Hrun _]. discriminate Hrun.
  - unfold bind, new_ContainerKitMCPServer, perform.
    destruct (server_of_config W cfg) as [server|e] eqn:Hsrv.
    + rewrite runMode_run. destruct (Server.start server) as [[]|e] eqn:Hstart.
      * split; [reflexivity|]. split.
        -- rewrite !serverCalls_app, serverCalls_starting. reflexivity.
        -- exists server. auto.
      * split.
        -- exists [ServerShutdown]. rewrite serverCalls_app, serverCalls_starting. reflexivity.
        -- intros (_ & server' & Hs' & Hst'). congruence.
    + split; [eexists; reflexivity|]. intros (_ & server' & Hs' & _). congruence.
Qed.

Lemma serverCalls_shutdownEvents signal r :
  serverCalls (shutdownEvents signal r) = [ServerShutdown].
Proof. destruct r; reflexivity. Qed.

Lemma launch_cases W v opts st :
  (exists cfg c st1 out1 out2,
     reachesDispatch W opts st cfg
     /\ dispatch W v opts cfg (normalized opts st) = (c, st1, out1)
     /\ silent out2
     /\ main W v opts st
        = (match c with Throw _ => Exit 1 | _ => c end, st1,
           startupEvents opts ++ out1 ++ out2)
     /\ launch W v opts st
        = {| condition := ended c; memory := st1;
             output := startupEvents opts ++ out1 ++ out2 |})
  \/ ((forall cfg, ~ reachesDispatch W opts st cfg)
      /\ exists st1 out,
           silent out
           /\ main W v opts st = (Exit 1, st1, out)
           /\ launch W v opts st
              = {| condition := Exited 1; memory := st1; output := out |}).
Proof.
  destruct (main_startup_cases W v opts st)
    as [(cfg & Hreach) | (Hnot & st1 & out & Hmain & Hs & _)].
  - left.
    destruct (dispatch W v opts cfg (normalized opts st)) as [[c st1] out1] eqn:Hd.
    pose proof (main_run _ v _ _ _ Hreach) as Hmain.
    pose proof (tryCatch_startupFailed _ opts _ _ _ _ Hd) as Ht.
    destruct c as [[]|e|code].
    + rewrite Ht in Hmain. exists cfg, (Normal tt), st1, out1, [].
      split; [exact Hreach|]. split; [exact Hd|].
      split; [repeat split; constructor|]. rewrite app_nil_r.
      split; [exact Hmain|]. unfold launch. rewrite Hmain. reflexivity.
    + destruct Ht as (out2 & Ht & Hs). rewrite Ht in Hmain.
      exists cfg, (Throw e), st1, out1, out2.
      split; [exact Hreach|]. split; [exact Hd|]. split; [exact Hs|].
      split; [exact Hmain|]. unfold launch. rewrite Hmain. reflexivity.
    + rewrite Ht in Hmain. exists cfg, (Exit code), st1, out1, [].
      split; [exact Hreach|]. split; [exact Hd|].
      split; [repeat split; constructor|]. rewrite app_nil_r.
      split; [exact Hmain|]. unfold launch. rewrite Hmain. reflexivity.
  - right. split; [exact Hnot|]. exists st1, out. split; [exact Hs|].
    split; [exact Hmain|]. unfold launch. rewrite Hmain. reflexivity.
Qed.

(** X9. No error leaves [main]: it returns to the event loop or ends the
    process with code 0 or 1, and the handler for unhandled rejections is
    never needed. It returns, leaving the process alive with the two signal
    handlers installed, exactly when run mode was selected, start-up reached
    it, and the server was constructed and started. *)
Theorem process_completion :
  forall (W : World) (v : string) (opts : Options) (st : State),
    let p := launch W v opts st in
    (forall e, fst (fst (main W v opts st)) <> Throw e)
    /\ (condition p = Alive \/ condition p = Exited 0 \/ condition p = Exited 1)
    /\ (condition p = Alive <-> exists server, runStarted W opts st server)
    /\ (forall server, runStarted W opts st server ->
                       memory p = listening server (normalized opts st)).
Proof.
  intros W v opts st p. unfold p.
  destruct (launch_cases W v opts st)
    as [(cfg & c & st1 & out1 & out2 & Hreach & Hd & _ & Hmain & Hl)
       | (Hnot & st1 & out & _ & Hmain & Hl)].
  - pose proof (dispatch_calls W v opts cfg (normalized opts st)) as Hcalls.
    rewrite Hd in Hcalls. rewrite Hmain, Hl. cbn [fst condition memory].
    assert (Hsame : forall server, runStarted W opts st server ->
                      selectMode opts = RunMode
                      /\ server_of_config W cfg = Returns server
                      /\ Server.start server = Returns tt).
    { intros server (Hmode & (cfg' & Hreach' & Hsrv) & Hstart).
      rewrite (reachesDispatch_functional _ _ _ _ _ Hreach' Hreach) in Hsrv. auto. }
    destruct c as [[]|e|code]; cbn [ended].
    + destruct Hcalls as (Hmode & _ & server & Hsrv & Hstart & ->).
      split; [discriminate|]. split; [auto|]. split.
      * split; [intros _|reflexivity]. exists server. split; [exact Hmode|].
        split; [exists cfg; auto | exact Hstart].
      * intros server' Hrun. destruct (Hsame _ Hrun) as (_ & Hsrv' & _). congruence.
    + destruct Hcalls as (_ & Hnot).
      split; [discriminate|]. split; [auto|]. split.
      * split; [discriminate|]. intros (server & Hrun).
        destruct (Hsame _ Hrun) as (Hmode & Hsrv & Hstart). exfalso. apply Hnot. eauto.
      * intros server Hrun. destruct (Hsame _ Hrun) as (Hmode & Hsrv & Hstart).
        exfalso. apply Hnot. eauto.
    + destruct Hcalls as (Hcode & _).
      assert (Hnot : forall server, ~ runStarted W opts st server).
      { intros server Hrun. destruct (Hsame _ Hrun) as (Hmode & Hsrv & Hstart).
        pose proof (dispatch_selects W v opts cfg (normalized opts st)) as Hsel.
        rewrite Hmode, Hd in Hsel. unfold execMode, bind, new_ContainerKitMCPServer,
          perform in Hsel. rewrite Hsrv, runMode_run, Hstart in Hsel. discriminate Hsel. }
      split; [discriminate|].
      split; [destruct Hcode as [-> | ->]; auto|]. split.
      * split; [discriminate|]. intros (server & Hrun). destruct (Hnot _ Hrun).
      * intros server Hrun. destruct (Hnot _ Hrun).
  - rewrite Hmain, Hl. cbn [fst condition memory].
    assert (Hno : forall server, ~ runStarted W opts st server).
    { intros server (_ & (cfg & Hreach & _) & _). exact (Hnot cfg Hreach). }
    split; [discriminate|]. split; [auto|]. split.
    + split; [discriminate|]. intros (server & Hrun). destruct (Hno _ Hrun).
    + intros server Hrun. destruct (Hno _ Hrun).
Qed.

Lemma launch_onProtocol W v opts e : onProtocol (selectMode opts) (launch W v opts (fresh e)).
Proof.
  destruct (launch_cases W v opts (fresh e))
    as [(cfg & c & st1 & out1 & out2 & Hreach & Hd & Hs & _ & ->)
       | (_ & st1 & out & Hs & _ & ->)].
  - pose proof (dispatch_calls W v opts cfg (normalized opts (fresh e))) as Hcalls.
    rewrite Hd in Hcalls. unfold onProtocol. cbn [output condition memory].
    rewrite !serverCalls_app, (serverCalls_silent _ (silent_startupEvents opts)),
      (serverCalls_silent _ Hs), app_nil_r. cbn [app].
    destruct c as [[]|err|code]; cbn [ended].
    + destruct Hcalls as (Hmode & Hsc & server & _ & _ & ->).
      rewrite Hmode, Hsc. split; [exists [ServerShutdown]; reflexivity|].
      intros _. split; [reflexivity|]. split; [reflexivity|]. exists server. reflexivity.
    + destruct Hcalls as (Hp & _). split; [exact Hp | discriminate].
    + destruct Hcalls as (_ & Hp). split; [exact Hp | discriminate].
  - unfold onProtocol. cbn [output condition memory].
    rewrite (serverCalls_silent _ Hs). split; [eexists; reflexivity | discriminate].
Qed.

Lemma deliver_onProtocol mode s p : onProtocol mode p -> onProtocol mode (deliver s p).
Proof.
  intros (Hrest & Halive). unfold deliver.
  destruct (condition p) eqn:Hc.
  - destruct (Halive eq_refl) as (-> & Hcalls & server & Hhandlers). rewrite Hhandlers.
    destruct s; cbn [existsb Signal_eqb fst orb runListeners]; rewrite Hc, shutdown_events;
      cbn [settle runListeners Signal_eqb condition];
      (split; [|discriminate]); cbn [output];
      rewrite serverCalls_app, Hcalls, serverCalls_shutdownEvents;
      exists []; reflexivity.
  - split; [exact Hrest | rewrite Hc; discriminate].
  - split; [exact Hrest | rewrite Hc; discriminate].
Qed.

(** X10. In every run, signals included, the calls made on the server are
    a beginning of the sequence of the selected mode: none in validate
    mode; construction, [initialize], [listTools], [shutdown] in list-tools
    mode; construction, [initialize], [getHealth], [shutdown] in
    health-check mode; construction, [start] and, from the signal handler,
    [shutdown] in run mode. In particular run mode never calls
    [initialize], and nothing is called after [shutdown]. *)
Theorem server_protocol :
  forall (W : World) (v : string) (opts : Options) (e : gmap string string)
         (signals : list Signal),
  exists rest,
    protocolOf (selectMode opts)
    = serverCalls (output (deliverAll signals (launch W v opts (fresh e)))) ++ rest.
Proof.
  intros W v opts e signals.
  assert (H : forall p, onProtocol (selectMode opts) p ->
                        onProtocol (selectMode opts) (deliverAll signals p)).
  { induction signals as [|s signals IH]; intros p Hp; [exact Hp|].
    cbn [deliverAll fold_left]. apply IH, deliver_onProtocol, Hp. }
  exact (proj1 (H _ (launch_onProtocol W v opts e))).
Qed.

Lemma launch_with_server W v opts st cfg server (block : Server.t -> M unit) c st1 out1 :
  reachesDispatch W opts st cfg ->
  server_of_config W cfg = Returns server ->
  (selectMode opts = ListToolsMode /\ block = listToolsMode)
  \/ (selectMode opts = HealthCheckMode /\ block = healthCheckMode) ->
  block server (normalized opts st) = (c, st1, out1) ->
  exists out2,
    silent out2
    /\ launch W v opts st
       = {| condition := ended c; memory := st1;
            output := startupEvents opts ++ (NewServer :: out1) ++ out2 |}.
Proof.
  intros Hreach Hsrv Hmode Hblock.
  apply (launch_of_dispatch _ _ _ _ _ _ _ _ Hreach).
  rewrite dispatch_selects.
  destruct Hmode as [[-> ->] | [-> ->]];
    unfold execMode, bind, new_ContainerKitMCPServer, perform;
    rewrite Hsrv, Hblock; destruct c; reflexivity.
Qed.

Lemma teardowns_with_server opts out1 out2 :
  silent out2 ->
  teardowns (startupEvents opts ++ (NewServer :: out1) ++ out2) = teardowns out1.
Proof.
  intros (_ & Ht & _).
  rewrite !teardowns_app, (proj1 (proj2 (silent_startupEvents opts))), Ht.
  change (teardowns (NewServer :: out1)) with (teardowns out1). lia.
Qed.

Lemma teardowns_listed lines : teardowns (listed lines) = 1.
Proof. unfold listed. rewrite !teardowns_app, teardowns_console_log. reflexivity. Qed.

Lemma teardowns_healthChecked lines : teardowns (healthChecked lines) = 1.
Proof. unfold healthChecked. rewrite !teardowns_app, teardowns_console_log. reflexivity. Qed.

(** X11. In list-tools and health-check mode the server is shut down
    exactly when its answer was obtained: when [initialize] or the query
    ([listTools], [getHealth]) throws, or the grouping of the tools throws,
    the process exits with code 1 and [server.shutdown] is never called;
    when both return (and the tools, if any, are grouped), it is called
    once. *)
Theorem shutdown_only_after_answer :
  forall (W : World) (v : string) (opts : Options) (st : State)
         (cfg : Config.t) (server : Server.t),
    reachesDispatch W opts st cfg ->
    server_of_config W cfg = Returns server ->
    let p := launch W v opts st in
    (selectMode opts = HealthCheckMode ->
       (forall e, Server.initialize server = Throws e
                  \/ Server.getHealth server = Throws e ->
                  condition p = Exited 1 /\ teardowns (output p) = 0)
       /\ (forall h, Server.initialize server = Returns tt ->
                     Server.getHealth server = Returns h ->
                     teardowns (output p) = 1))
    /\ (selectMode opts = ListToolsMode ->
        (forall e, Server.initialize server = Throws e
                   \/ Server.listTools server = Throws e ->
                   condition p = Exited 1 /\ teardowns (output p) = 0)
        /\ (forall items e,
              Server.initialize server = Returns tt ->
              Server.listTools server = Returns {| tools := Some (ArrayOf items) |} ->
              reduce items [] = Throws e ->
              condition p = Exited 1 /\ teardowns (output p) = 0)
        /\ (forall listing,
              Server.initialize server = Returns tt ->
              Server.listTools server = Returns listing ->
              (forall items, tools listing = Some (ArrayOf items) ->
                             exists acc, reduce items [] = Returns acc) ->
              teardowns (output p) = 1)).
Proof.
  intros W v opts st cfg server Hreach Hsrv p. unfold p. split.
  - intros Hmode.
    assert (Hl := fun c st1 out1 =>
              launch_with_server W v opts st cfg server healthCheckMode c st1 out1
                Hreach Hsrv (or_intror (conj Hmode eq_refl))).
    split.
    + intros e Hthrows.
      destruct (Server.initialize server) as [[]|e'] eqn:Hi.
      * destruct Hthrows as [Habs | Hh]; [discriminate Habs|].
        destruct (Hl _ _ _ (healthCheckMode_no_report _ _ _ Hi Hh)) as (out2 & Hs & ->).
        cbn [condition output ended]. rewrite (teardowns_with_server _ _ _ Hs).
        split; reflexivity.
      * destruct (Hl _ _ _ (healthCheckMode_no_initialize _ _ _ Hi)) as (out2 & Hs & ->).
        cbn [condition output ended]. rewrite (teardowns_with_server _ _ _ Hs).
        split; reflexivity.
    + intros h Hi Hh.
      destruct (Hl _ _ _ (healthCheckMode_report _ _ _ Hi Hh)) as (out2 & Hs & ->).
      cbn [output]. rewrite (teardowns_with_server _ _ _ Hs). apply teardowns_healthChecked.
  - intros Hmode.
    assert (Hl := fun c st1 out1 =>
              launch_with_server W v opts st cfg server listToolsMode c st1 out1
                Hreach Hsrv (or_introl (conj Hmode eq_refl))).
    split; [|split].
    + intros e Hthrows.
      destruct (Server.initialize server) as [[]|e'] eqn:Hi.
      * destruct Hthrows as [Habs | Hh]; [discriminate Habs|].
        destruct (Hl _ _ _ (listToolsMode_no_answer _ _ _ Hi Hh)) as (out2 & Hs & ->).
        cbn [condition output ended]. rewrite (teardowns_with_server _ _ _ Hs).
        split; reflexivity.
      * destruct (Hl _ _ _ (listToolsMode_no_initialize _ _ _ Hi)) as (out2 & Hs & ->).
        cbn [condition output ended]. rewrite (teardowns_with_server _ _ _ Hs).
        split; reflexivity.
    + intros items e Hi Hlist Hr.
      destruct (Hl _ _ _ (listToolsMode_no_groups _ _ _ _ Hi Hlist Hr)) as (out2 & Hs & ->).
      cbn [condition output ended]. rewrite (teardowns_with_server _ _ _ Hs).
      split; reflexivity.
    + intros listing Hi Hlist Hgroups.
      destruct listing as [[[items|]|]].
      * destruct (Hgroups items eq_refl) as (acc & Hr).
        destruct (Hl _ _ _ (listToolsMode_listing _ _ _ _ Hi Hlist Hr)) as (out2 & Hs & ->).
        cbn [output]. rewrite (teardowns_with_server _ _ _ Hs). apply teardowns_listed.
      * destruct (Hl _ _ _ (listToolsMode_no_listing _ _ _ Hi Hlist (or_intror eq_refl)))
          as (out2 & Hs & ->).
        cbn [output]. rewrite (teardowns_with_server _ _ _ Hs). apply teardowns_listed.
      * destruct (Hl _ _ _ (listToolsMode_no_listing _ _ _ Hi Hlist (or_introl eq_refl)))
          as (out2 & Hs & ->).
        cbn [output]. rewrite (teardowns_with_server _ _ _ Hs). apply teardowns_listed.
Qed.

Lemma reaches_sample s v l h e :
  reachesDispatch (Sample.world s) (Sample.withModes v l h Sample.options) (fresh e)
    Sample.configuration.
Proof.
  split; [|split; reflexivity].
  exists {| valid := true; errors := [] |}, (fresh e), [StatSync "/work"].
  split; reflexivity.
Defined.

Lemma shutdown_only_after_answer_witness :
  let p := launch (Sample.world brokenServer) "1.0.0" healthOptions (fresh ∅) in
  condition p = Exited 1 /\ teardowns (output p) = 0.
Proof.
  exact (proj1 (proj1 (shutdown_only_after_answer (Sample.world brokenServer) "1.0.0"
                         healthOptions (fresh ∅) Sample.configuration brokenServer
                         (reaches_sample brokenServer false false true ∅) eq_refl)
                  eq_refl)
           (ErrorObject "connect ECONNREFUSED" None) (or_introl eq_refl)).
Defined.

(** ** Run mode *)

Lemma launch_run W v opts st server :
  runStarted W opts st server ->
  exists cfg,
    launch W v opts st
    = {| condition := Alive;
         memory := listening server (normalized opts st);
         output := startupEvents opts ++ NewServer :: starting v opts cfg ++ started |}.
Proof.
  intros (Hmode & (cfg & Hreach & Hsrv) & Hstart). exists cfg.
  assert (Hd : dispatch W v opts cfg (normalized opts st)
               = (Normal tt, listening server (normalized opts st),
                  NewServer :: starting v opts cfg ++ started)).
  { rewrite dispatch_selects, Hmode.
    unfold execMode, bind, new_ContainerKitMCPServer, perform.
    rewrite Hsrv, runMode_run, Hstart. reflexivity. }
  unfold launch. rewrite (main_run _ _ _ _ _ Hreach).
  pose proof (tryCatch_startupFailed _ opts _ _ _ _ Hd) as Ht. cbn in Ht. rewrite Ht.
  reflexivity.
Qed.

Lemma teardowns_started_run opts v cfg :
  teardowns (startupEvents opts ++ NewServer :: starting v opts cfg ++ started) = 0.
Proof.
  rewrite teardowns_app, (proj1 (proj2 (silent_startupEvents opts))).
  change (teardowns (NewServer :: ?l)) with (teardowns l).
  rewrite teardowns_app, teardowns_starting. reflexivity.
Qed.

(** X12. Once run mode has started the server, the first termination
    signal, either of the two, runs the handler once: it logs, prints which
    signal was received, calls [server.shutdown] once, and ends the process
    with code 0 when that call returns (after printing that shutdown is
    complete) and with code 1 when it throws (after logging and printing
    the error). *)
Theorem signal_ends_run_mode :
  forall (W : World) (v : string) (opts : Options) (e : gmap string string)
         (server : Server.t) (s : Signal),
    runStarted W opts (fresh e) server ->
    let p := launch W v opts (fresh e) in
    let q := deliver s p in
    output q = output p ++ shutdownEvents (Signal_name s) (Server.shutdown server 0)
    /\ condition q
       = Exited (match Server.shutdown server 0 with Returns _ => 0 | Throws _ => 1 end)
    /\ teardowns (output p) = 0
    /\ teardowns (output q) = 1.
Proof.
  intros W v opts e server s Hrun p q. unfold q, p.
  destruct (launch_run W v opts (fresh e) server Hrun) as (cfg & ->).
  unfold deliver. cbn [condition memory listening signalHandlers normalized fresh app].
  destruct s; cbn [existsb Signal_eqb fst orb runListeners condition memory];
    rewrite shutdown_events; cbn [settle runListeners Signal_eqb condition output
                                   shutdownCalls listening normalized fresh];
    (split; [reflexivity|]); (split; [reflexivity|]);
    (split; [apply teardowns_started_run|]);
    rewrite teardowns_app, teardowns_started_run;
    destruct (Server.shutdown server 0); reflexivity.
Qed.

Lemma runStarted_sample s e :
  Server.start s = Returns tt ->
  runStarted (Sample.world s) Sample.options (fresh e) s.
Proof.
  intros Hstart. split; [reflexivity|]. split; [|exact Hstart].
  exists Sample.configuration. split; [|reflexivity].
  exact (reaches_sample s false false false e).
Defined.

Lemma signal_ends_run_mode_witness :
  let p := launch (Sample.world stubbornServer) "1.0.0" Sample.options (fresh ∅) in
  let q := deliver SIGTERM p in
  output q = output p ++ shutdownEvents "SIGTERM" (Throws Sample.failure)
  /\ condition q = Exited 1
  /\ teardowns (output p) = 0
  /\ teardowns (output q) = 1.
Proof.
  exact (signal_ends_run_mode (Sample.world stubbornServer) "1.0.0" Sample.options ∅
           stubbornServer SIGTERM (runStarted_sample stubbornServer ∅ eq_refl)).
Defined.

(** X13. When [server.start] throws in run mode, the process exits with
    code 1 through the start-up failure handler: the banner was printed but
    not the lines that announce a started server, no signal handler is
    installed and the server is not shut down. *)
Theorem failed_start_installs_nothing :
  forall (W : World) (v : string) (opts : Options) (st : State)
         (cfg : Config.t) (server : Server.t) (e : Thrown),
    selectMode opts = RunMode ->
    reachesDispatch W opts st cfg ->
    server_of_config W cfg = Returns server ->
    Server.start server = Throws e ->
    let p := launch W v opts st in
    condition p = Exited 1
    /\ signalHandlers (memory p) = signalHandlers st
    /\ teardowns (output p) = 0
    /\ consoleLines (output p)
       = ["🚀 Starting Container Kit MCP Server...";
          "📦 Version: " +:+ v;
          "🏠 Workspace: " +:+ Config.workspaceDir (Config.workspace cfg);
          "📊 Log Level: " +:+ Config.logLevel (Config.server cfg)]
         ++ (if mock opts then ["🤖 Running with mock AI sampler"] else [])
         ++ (if dev opts then ["🔧 Development mode enabled"] else [])
    /\ In (ConsoleError "❌ Server startup failed") (output p).
Proof.
  intros W v opts st cfg server e Hmode Hreach Hsrv Hstart p. unfold p.
  assert (Hd : dispatch W v opts cfg (normalized opts st)
               = (Throw e, normalized opts st, NewServer :: starting v opts cfg)).
  { rewrite dispatch_selects, Hmode.
    unfold execMode, bind, new_ContainerKitMCPServer, perform.
    rewrite Hsrv, runMode_run, Hstart. reflexivity. }
  unfold launch. rewrite (main_run _ _ _ _ _ Hreach).
  unfold tryCatch. rewrite Hd.
  destruct (startupFailed_run opts e (normalized opts st)) as (out2 & Hh & Hs).
  pose proof Hs as (Hlines & Ht & _).
  assert (Hin : In (ConsoleError "❌ Server startup failed") out2).
  { destruct e as [msg stack|text].
    - rewrite startupFailed_error in Hh. inversion Hh; subst. cbn. tauto.
    - rewrite startupFailed_other in Hh. inversion Hh; subst. cbn. tauto. }
  rewrite Hh. cbn [settle condition memory output normalized signalHandlers].
  split; [reflexivity|]. split; [reflexivity|]. split; [|split].
  - rewrite !teardowns_app, (proj1 (proj2 (silent_startupEvents opts))), Ht.
    change (teardowns (NewServer :: ?l)) with (teardowns l).
    rewrite teardowns_starting. reflexivity.
  - rewrite !consoleLines_app, (proj1 (silent_startupEvents opts)), Hlines, app_nil_r.
    unfold starting. destruct (mock opts), (dev opts); reflexivity.
  - rewrite !in_app_iff. tauto.
Qed.

Lemma failed_start_witness :
  let p := launch (Sample.world brokenServer) "1.0.0" Sample.options (fresh ∅) in
  condition p = Exited 1
  /\ signalHandlers (memory p) = []
  /\ teardowns (output p) = 0
  /\ consoleLines (output p)
     = ["🚀 Starting Container Kit MCP Server..."; "📦 Version: 1.0.0";
        "🏠 Workspace: /work"; "📊 Log Level: info";
        "🤖 Running with mock AI sampler"]
  /\ In (ConsoleError "❌ Server startup failed") (output p).
Proof.
  exact (failed_start_installs_nothing (Sample.world brokenServer) "1.0.0" Sample.options
           (fresh ∅) Sample.configuration brokenServer
           (ErrorObject "listen EADDRINUSE" None) eq_refl
           (reaches_sample brokenServer false false false ∅) eq_refl eq_refl).
Defined.

(** ** What health-check mode prints *)

Lemma consoleLines_healthChecked lines :
  consoleLines (NewServer :: healthChecked lines) = lines.
Proof.
  unfold healthChecked.
  change (consoleLines (map ConsoleLog lines ++ [ServerShutdown]) = lines).
  rewrite consoleLines_app, consoleLines_console_log. apply app_nil_r.
Qed.



(** ** The lines of the tool listing *)

Lemma length_append (s t : string) :
  String.length (s +:+ t) = String.length s + String.length t.
Proof.
  induction s as [|c s IH]; [reflexivity|].
  change (String c s +:+ t) with (String c (s +:+ t)). cbn [String.length].
  rewrite IH. reflexivity.
Qed.

Lemma length_repeat_space n : String.length (String_repeat " " n) = n.
Proof.
  induction n as [|n IH]; [reflexivity|].
  cbn [String_repeat]. rewrite length_append, IH. reflexivity.
Qed.

Lemma length_padEnd s n : String.length (String_padEnd s n) = Nat.max n (String.length s).
Proof. unfold String_padEnd. rewrite length_append, length_repeat_space. lia. Qed.


(** ** Options that are not looked at *)

(** X16. [validateOptions] reads six options only: the log level, the
    port, the workspace, the mock flag, the Docker socket and the
    configuration file. The host, the Kubernetes namespace, [--dev] and the
    three mode flags are never validated: two option sets that agree on the
    six give the same result and the same [statSync] calls. *)
Theorem validation_reads_six_options :
  forall (W : World) (a b : Options) (st : State),
    sameForValidation a b ->
    validateOptions W a st = validateOptions W b st.
Proof.
  intros W a b st (Hl & Hp & Hw & Hm & Hd & Hc).
  rewrite !validateOptions_run. unfold checksOf, statCalls.
  rewrite Hl, Hp, Hw, Hm, Hd, Hc. reflexivity.
Qed.

Lemma validation_reads_six_options_witness :
  validateOptions (Sample.world (Sample.server Sample.noListing (Returns tt)))
    Sample.options (fresh ∅)
  = validateOptions (Sample.world (Sample.server Sample.noListing (Returns tt)))
      {| config := None; logLevel := Some "info"; workspace := Some "/work";
         port := None; host := Some "not a host name"; dev := true; mock := true;
         validate := true; listTools := true; healthCheck := true;
         dockerSocket := Some "/var/run/docker.sock";
         k8sNamespace := Some EmptyString |} (fresh ∅).
Proof.
  apply validation_reads_six_options. repeat split; reflexivity.
Defined.

(** X17. The host is never used, and the port is used by validation
    alone: two option sets that differ only in [host] and in a [port] that
    passes (or fails) the port check alike make [main] do exactly the same,
    so a valid [--port] does not change how the server is started. *)
Theorem host_and_port_do_not_change_the_run :
  forall (W : World) (v : string) (a b : Options) (st : State),
    sameButHostAndPort a b ->
    portCheck (port a) = portCheck (port b) ->
    main W v a st = main W v b st.
Proof.
  intros W v a b st (Hc & Hl & Hw & Hd & Hm & Hv & Hli & Hh & Hs & Hk) Hp.
  assert (Hchecks : checksOf W a = checksOf W b).
  { unfold checksOf. rewrite Hl, Hp, Hw, Hm, Hs, Hc. reflexivity. }
  assert (Hstat : statCalls a = statCalls b).
  { unfold statCalls. rewrite Hw, Hm, Hs, Hc. reflexivity. }
  unfold main, tryCatch, mainBody.
  rewrite !(bind_run _ _ _ _ _ _ (validateOptions_run _ _ _)), Hchecks, Hstat.
  destruct a, b. cbn in Hc, Hl, Hw, Hd, Hm, Hv, Hli, Hh, Hs, Hk. subst.
  reflexivity.
Qed.

Lemma host_and_port_witness :
  main (Sample.world (Sample.server Sample.noListing (Returns tt))) "1.0.0"
    Sample.options (fresh ∅)
  = main (Sample.world (Sample.server Sample.noListing (Returns tt))) "1.0.0"
      {| config := None; logLevel := Some "info"; workspace := Some "/work";
         port := Some (Int 3000); host := Some "0.0.0.0"; dev := false; mock := true;
         validate := false; listTools := false; healthCheck := false;
         dockerSocket := Some "/var/run/docker.sock";
         k8sNamespace := Some "default" |} (fresh ∅).
Proof.
  apply host_and_port_do_not_change_the_run; [repeat split; reflexivity | reflexivity].
Defined.

(** ** The stack trace in the failure report *)

Lemma isStackHeading_spec ev : isStackHeading ev = true <-> ev = stackHeading.
Proof.
  unfold stackHeading. destruct ev; cbn [isStackHeading];
    try (split; intros H; discriminate H).
  rewrite String.eqb_eq. split; [intros ->; reflexivity | intros H; inversion H; reflexivity].
Qed.

Lemma In_stackHeading out : In stackHeading out <-> existsb isStackHeading out = true.
Proof.
  rewrite existsb_exists. split.
  - intros H. exists stackHeading. split; [exact H | reflexivity].
  - intros (ev & Hin & Hev). apply isStackHeading_spec in Hev. subst. exact Hin.
Qed.

Lemma heading_in_report opts msg stack :
  existsb isStackHeading
    (errorHead msg ++ flat_map (fun c => printed (guidanceOf c)) (classify msg)
     ++ errorTail opts stack)
  = truthy stack && dev opts.
Proof.
  rewrite !existsb_app.
  assert (Hhead : existsb isStackHeading (errorHead msg) = false) by reflexivity.
  assert (Hguide : existsb isStackHeading
                     (flat_map (fun c => printed (guidanceOf c)) (classify msg)) = false).
  { unfold classify, allCategories. cbn [List.filter].
    destruct (existsb (String_includes msg) (keywords DockerIssue)),
      (existsb (String_includes msg) (keywords PortConflict)),
      (existsb (String_includes msg) (keywords PermissionIssue)),
      (existsb (String_includes msg) (keywords ConfigIssue)); reflexivity. }
  rewrite Hhead, Hguide. unfold errorTail. rewrite existsb_app.
  destruct (truthy stack), (dev opts); reflexivity.
Qed.

(** X18. The report of a start-up failure shows the stack trace only in
    development mode: its heading is printed exactly when [--dev] is set and
    the error has a non-empty stack, and the stack follows it; without
    [--dev] the hint to use [--dev] is printed instead. A thrown value that
    is no [Error] gets the failure line alone. The exit code is 1 in every
    case. *)
Theorem stack_trace_needs_dev :
  forall (opts : Options) (st : State),
    (forall msg stack,
       exists out,
         startupFailed opts (ErrorObject msg stack) st = (Exit 1, st, out)
         /\ (In stackHeading out <-> dev opts = true /\ truthy stack = true)
         /\ (dev opts = true -> truthy stack = true ->
             exists before, out = before ++ [stackHeading; ConsoleError (interpolate stack)])
         /\ (dev opts = false -> exists before, out = before ++ [devHint]))
    /\ (forall text,
          startupFailed opts (OtherValue text) st
          = (Exit 1, st,
             [Logger "error" "Server startup failed";
              ConsoleError "❌ Server startup failed"])).
Proof.
  intros opts st. split; [|intros text; apply startupFailed_other].
  intros msg stack. eexists. split; [apply startupFailed_error|]. split; [|split].
  - rewrite In_stackHeading, heading_in_report, andb_true_iff. tauto.
  - intros Hd Hs. unfold errorTail. rewrite Hd, Hs. cbn [andb].
    eexists. rewrite !app_assoc. reflexivity.
  - intros Hd. unfold errorTail. rewrite Hd, andb_false_r.
    eexists. rewrite !app_assoc. reflexivity.
Qed.
